(** * Deal aggregation engine of the broker analytics dashboard

    A shallow embedding of the calculation code of the dashboard pages and
    the verification of the properties stated for it.

    - [BrokerPerformanceAnalysis]: the broker performance page with
      filters, analysis mode and weekly chart ([filteredDeals],
      [brokerPerformance], [filteredBrokers], [chartData]).
    - [BrokerPerformanceThresholds]: the earlier broker performance page.
    - [LeadSourcesAnalysis]: the lead sources page on uploaded deals
      ([calculate30DayRollingAvg], counts of distinct deal ids per date).
    - [LeadSourcesSample]: the lead sources page on generated sample deals
      ([calculate30DayRollingSum], counts of rows per date).
    - [BrokerThresholdsSummary], [BrokerPerformanceSummary] and
      [LeadSourcesSummary]: the summary cards, badges, bar colours, axes
      and year filter of the pages.
    - [LeadSourcesSampleData]: the generator of the sample deals
      ([generateSampleDeals]).
    - [DealsUpload]: the handler of the file input ([handleFileUpload]).

    Conventions of the embedding.
    - JavaScript numbers are exact: counts are integers ([Z]), amounts,
      rates and averages are rationals ([Q]); rounding of binary floating
      point is not modelled, and [NaN] appears only as the invalid time
      value of a [Date] ([None]).
    - Strings are [string]s, one [ascii] per code unit (code units below
      256).
    - An object literal used as a dictionary ([Record<string, T>]) is the
      list of its own properties in creation order, together with the
      property names it inherits from [Object.prototype].
    - A [Set<string>] is a [gset string]; only its size is ever read.
    - Exceptions are explicit: a computation that may throw returns an
      [outcome].
    - The host supplies [Date.parse] and the offset of local time from UTC;
      the offset is constant (no daylight-saving transitions).
    - [Math.random] is a stream of numbers, read in the order of the
      calls.
    - What a library or the host does with a file (reading it, parsing
      JSON, reading a workbook, writing numbers and dates as strings,
      storing) is a parameter of the handler. *)

From Stdlib Require Import ZArith QArith Qround String Ascii List Lia Lqa.
From Stdlib Require Import Permutation Sorted Bool DecimalString.
From Stdlib Require Import DecimalPos DecimalN DecimalZ.
From Stdlib Require OrderedTypeEx.
From stdpp Require Import gmap strings.
Import ListNotations.

Open Scope string_scope.
Open Scope list_scope.
Open Scope Z_scope.

(** ** Strings *)

Module JsString.

(** WhiteSpace and LineTerminator code units below 256: TAB, LF, VT, FF,
    CR, SP and NBSP. *)
Definition is_white_space (c : ascii) : bool :=
  let n := N_of_ascii c in
  ((9 <=? n) && (n <=? 13) || (n =? 32) || (n =? 160))%N.

Fixpoint trimStart (s : string) : string :=
  match s with
  | EmptyString => EmptyString
  | String c s' => if is_white_space c then trimStart s' else s
  end.

Definition reverse (s : string) : string :=
  string_of_list_ascii (List.rev (list_ascii_of_string s)).

(** [s.trim()] *)
Definition trim (s : string) : string :=
  reverse (trimStart (reverse (trimStart s))).

(** ToBoolean on a string. *)
Definition truthy (s : string) : bool := negb (String.eqb s "").

(** [v && v.trim() !== ""] for a field [v : string | null]. *)
Definition filled (v : option string) : bool :=
  match v with
  | Some s => truthy s && negb (String.eqb (trim s) "")
  | None => false
  end.

(** [s.split(sep)[0]]: the part of [s] before the first [sep]. *)
Fixpoint split_head (sep : ascii) (s : string) : string :=
  match s with
  | EmptyString => EmptyString
  | String c s' =>
      if Ascii.eqb c sep then EmptyString else String c (split_head sep s')
  end.

(** Number::toString on an integer. *)
Definition of_Z (z : Z) : string := NilZero.string_of_int (Z.to_int z).

End JsString.

(** ** Completions *)

Inductive JsError : Set := TypeError | RangeError.

Inductive outcome (A : Type) : Type :=
| Returns (a : A)
| Throws (e : JsError).
Arguments Returns {A} a.
Arguments Throws {A} e.

#[global] Instance outcome_ret : MRet outcome := @Returns.

#[global] Instance outcome_bind : MBind outcome := fun A B k c =>
  match c with
  | Returns a => k a
  | Throws e => Throws e
  end.

(** [l.reduce(f, acc)] with a callback that may throw. *)
Fixpoint reduce {A B} (f : B -> A -> outcome B) (l : list A) (acc : B)
  : outcome B :=
  match l with
  | [] => Returns acc
  | x :: l' => acc' ← f acc x; reduce f l' acc'
  end.

(** ** Array.prototype.sort *)

Section ArraySort.
Context {A : Type} (comparefn : A -> A -> Q).

(** [x] comes from before every element of [l]: it stays before the
    elements it does not compare greater than, which keeps the sort
    stable. *)
Fixpoint sort_insert (x : A) (l : list A) : list A :=
  match l with
  | [] => [x]
  | y :: l' =>
      if Qle_bool (comparefn x y) 0 then x :: l else y :: sort_insert x l'
  end.

Definition Array_sort (l : list A) : list A := fold_right sort_insert [] l.
End ArraySort.

(** ** Objects used as dictionaries *)

Module JsObject.

(** The properties of [Object.prototype]. *)
Definition Object_prototype_names : list string :=
  [ "constructor"; "__proto__"; "hasOwnProperty"; "isPrototypeOf";
    "propertyIsEnumerable"; "toLocaleString"; "toString"; "valueOf";
    "__defineGetter__"; "__defineSetter__"; "__lookupGetter__";
    "__lookupSetter__" ].

Definition inherited (k : string) : bool :=
  existsb (String.eqb k) Object_prototype_names.

(** A canonical numeric string below 2^32 - 1 is an array index. *)
Definition array_index (k : string) : option N :=
  match NilZero.uint_of_string k with
  | Some u =>
      let n := N.of_uint u in
      if String.eqb (NilZero.string_of_uint (N.to_uint n)) k
         && (n <? 4294967295)%N
      then Some n else None
  | None => None
  end.

Section Dict.
Context {V : Type}.

(** Own properties, in creation order. *)
Definition t := list (string * V).

Inductive lookup : Type :=
| Own (v : V)
| Inherited
| Undefined.

Fixpoint own (o : t) (k : string) : option V :=
  match o with
  | [] => None
  | (k', v) :: o' => if String.eqb k k' then Some v else own o' k
  end.

(** [o[k]] *)
Definition get (o : t) (k : string) : lookup :=
  match own o k with
  | Some v => Own v
  | None => if inherited k then Inherited else Undefined
  end.

Fixpoint replace (o : t) (k : string) (v : V) : t :=
  match o with
  | [] => []
  | (k', v') :: o' =>
      if String.eqb k k' then (k', v) :: o' else (k', v') :: replace o' k v
  end.

(** [o[k] = v]: an own property is overwritten in place, a new one is
    created last; [__proto__] is an accessor of the prototype and
    creates nothing. *)
Definition set (o : t) (k : string) (v : V) : t :=
  match own o k with
  | Some _ => replace o k v
  | None => if String.eqb k "__proto__" then o else o ++ [(k, v)]
  end.

Definition is_index (e : string * V) : bool :=
  match array_index (fst e) with Some _ => true | None => false end.

Definition index_of (e : string * V) : Z :=
  match array_index (fst e) with Some n => Z.of_N n | None => 0 end.

(** [Object.entries(o)]: array indices in ascending order, then the
    other names in creation order. *)
Definition entries (o : t) : list (string * V) :=
  Array_sort (fun a b => inject_Z (index_of a - index_of b))
             (List.filter is_index o)
  ++ List.filter (fun e => negb (is_index e)) o.
End Dict.
Arguments t V : clear implicits.
Arguments lookup V : clear implicits.

End JsObject.

(** ** Dates *)

(** What the host environment decides: how a date string is read
    ([Date.parse], [None] for [NaN]) and the offset of local time from UTC
    in milliseconds. *)
Class Host : Type := {
  Date_parse : string -> option Z;
  LocalTZA : Z
}.

Module JsDate.

Definition msPerDay : Z := 86400000.

(** Time values range over 100,000,000 days on either side of the epoch. *)
Definition maxTime : Z := 8640000000000000.
Definition minTime : Z := - maxTime.

(** The time value of a Date object; [None] is the invalid date. *)
Definition t : Type := option Z.

Definition TimeClip (time : Z) : t :=
  if Z.abs time <=? maxTime then Some time else None.

Definition Day (tv : Z) : Z := tv / msPerDay.
Definition TimeWithinDay (tv : Z) : Z := tv mod msPerDay.
Definition WeekDay (tv : Z) : Z := (Day tv + 4) mod 7.

(** Proleptic Gregorian calendar: year, month (1 to 12) and day of the
    month of a day number, and back. *)
Definition civil_from_days (day : Z) : Z * Z * Z :=
  let z := day + 719468 in
  let era := z / 146097 in
  let doe := z - era * 146097 in
  let yoe := (doe - doe / 1460 + doe / 36524 - doe / 146096) / 365 in
  let doy := doe - (365 * yoe + yoe / 4 - yoe / 100) in
  let mp := (5 * doy + 2) / 153 in
  let d := doy - (153 * mp + 2) / 5 + 1 in
  let m := if mp <? 10 then mp + 3 else mp - 9 in
  (yoe + era * 400 + (if m <=? 2 then 1 else 0), m, d).

Definition days_from_civil (year month date : Z) : Z :=
  let y := year - (if month <=? 2 then 1 else 0) in
  let era := y / 400 in
  let yoe := y - era * 400 in
  let mp := if 2 <? month then month - 3 else month + 9 in
  let doy := (153 * mp + 2) / 5 + date - 1 in
  let doe := yoe * 365 + yoe / 4 - yoe / 100 + doy in
  era * 146097 + doe - 719468.

Definition YearFromTime (tv : Z) : Z := fst (fst (civil_from_days (Day tv))).
(** Months count from 0. *)
Definition MonthFromTime (tv : Z) : Z :=
  snd (fst (civil_from_days (Day tv))) - 1.
Definition DateFromTime (tv : Z) : Z := snd (civil_from_days (Day tv)).
Definition HourFromTime (tv : Z) : Z := (tv / 3600000) mod 24.
Definition MinFromTime (tv : Z) : Z := (tv / 60000) mod 60.
Definition SecFromTime (tv : Z) : Z := (tv / 1000) mod 60.
Definition msFromTime (tv : Z) : Z := tv mod 1000.

Definition MakeDay (year month date : Z) : Z :=
  let ym := year + month / 12 in
  let mn := month mod 12 in
  days_from_civil ym (mn + 1) 1 + date - 1.

Definition MakeDate (day time : Z) : Z := day * msPerDay + time.

Definition DaysInMonth (year month : Z) : Z :=
  MakeDay year month 1 - MakeDay year (month - 1) 1.

(** [a <= b] and [a >= b] on Date objects compare time values; a
    comparison with [NaN] is false. *)
Definition le (a b : t) : bool :=
  match a, b with
  | Some x, Some y => x <=? y
  | _, _ => false
  end.
Definition ge (a b : t) : bool := le b a.

(** Formatting *)
Definition digit (z : Z) : ascii := ascii_of_N (48 + Z.to_N (z mod 10)).
Definition pad2 (z : Z) : string :=
  String (digit (z / 10)) (String (digit z) EmptyString).
Definition pad3 (z : Z) : string := String (digit (z / 100)) (pad2 z).
Definition pad4 (z : Z) : string := String (digit (z / 1000)) (pad3 z).
Definition pad6 (z : Z) : string :=
  String (digit (z / 100000)) (String (digit (z / 10000)) (pad4 z)).

Definition iso_year (y : Z) : string :=
  if (0 <=? y) && (y <=? 9999) then pad4 y
  else String (if y <? 0 then "-"%char else "+"%char) (pad6 (Z.abs y)).

Definition ISODate (tv : Z) : string :=
  iso_year (YearFromTime tv) +:+ "-" +:+ pad2 (MonthFromTime tv + 1)
    +:+ "-" +:+ pad2 (DateFromTime tv).

Definition ISOString (tv : Z) : string :=
  ISODate tv +:+ "T" +:+ pad2 (HourFromTime tv) +:+ ":"
    +:+ pad2 (MinFromTime tv) +:+ ":" +:+ pad2 (SecFromTime tv) +:+ "."
    +:+ pad3 (msFromTime tv) +:+ "Z".

(** [d.toISOString()] *)
Definition toISOString (d : t) : outcome string :=
  match d with
  | Some tv => Returns (ISOString tv)
  | None => Throws RangeError
  end.

Section Local.
Context `{Host}.

Definition LocalTime (tv : Z) : Z := tv + LocalTZA.
Definition UTC (tv : Z) : Z := tv - LocalTZA.

(** [new Date(s)] *)
Definition of_string (s : string) : t :=
  match Date_parse s with
  | Some tv => TimeClip tv
  | None => None
  end.

(** [new Date(n)] for a number [n] that may be [NaN]. *)
Definition of_number (n : option Z) : t := n ≫= TimeClip.

Definition getTime (d : t) : option Z := d.
Definition getDay (d : t) : option Z :=
  tv ← d; Some (WeekDay (LocalTime tv)).
Definition getDate (d : t) : option Z :=
  tv ← d; Some (DateFromTime (LocalTime tv)).
Definition getFullYear (d : t) : option Z :=
  tv ← d; Some (YearFromTime (LocalTime tv)).

(** [d.setDate(dt)]: the new time value of [d]. *)
Definition setDate (d : t) (dt : option Z) : t :=
  tv ← d; date ← dt;
  let lt := LocalTime tv in
  TimeClip (UTC (MakeDate (MakeDay (YearFromTime lt) (MonthFromTime lt) date)
                          (TimeWithinDay lt))).

(** [d.setHours(0, 0, 0, 0)] *)
Definition setHours0 (d : t) : t :=
  tv ← d; TimeClip (UTC (MakeDate (Day (LocalTime tv)) 0)).

(** [n.toString()] for a year that may be [NaN]. *)
Definition year_toString (n : option Z) : string :=
  match n with
  | Some y => JsString.of_Z y
  | None => "NaN"
  end.
End Local.

(** *** A host that reads the ISO date-only forms

    [YYYY-MM-DD] and the expanded years [+YYYYYY-MM-DD] and
    [-YYYYYY-MM-DD], as UTC midnight; everything else is [NaN]. *)
Fixpoint digits_from (s : string) (acc : Z) : option Z :=
  match s with
  | EmptyString => Some acc
  | String c s' =>
      let n := N_of_ascii c in
      if ((48 <=? n) && (n <=? 57))%N
      then digits_from s' (10 * acc + Z.of_N (n - 48))
      else None
  end.

Definition digits (s : string) : option Z :=
  match s with
  | EmptyString => None
  | _ => digits_from s 0
  end.

Definition parse_fields (sign : Z) (ys rest : string) : option Z :=
  match rest with
  | String "-" (String m1 (String m2
      (String "-" (String d1 (String d2 EmptyString))))) =>
      y ← digits ys;
      m ← digits (String m1 (String m2 EmptyString));
      d ← digits (String d1 (String d2 EmptyString));
      let year := sign * y in
      if (1 <=? m) && (m <=? 12) && (1 <=? d) && (d <=? DaysInMonth year m)
      then Some (days_from_civil year m d * msPerDay)
      else None
  | _ => None
  end.

Definition iso_date_parse (s : string) : option Z :=
  match s with
  | String "+" s' =>
      if (String.length s' =? 12)%nat
      then parse_fields 1 (substring 0 6 s') (substring 6 6 s') else None
  | String "-" s' =>
      if (String.length s' =? 12)%nat && negb (String.eqb (substring 0 6 s') "000000")
      then parse_fields (-1) (substring 0 6 s') (substring 6 6 s') else None
  | _ =>
      if (String.length s =? 10)%nat
      then parse_fields 1 (substring 0 4 s) (substring 4 6 s) else None
  end.

Definition iso_host (tza : Z) : Host :=
  {| Date_parse := iso_date_parse; LocalTZA := tza |}.

End JsDate.

(** ** Numbers *)

Module JsNumber.
Local Open Scope Q_scope.

(** [x || 0] *)
Definition or_zero (x : Q) : Q := if Qeq_bool x 0 then 0 else x.

(** [parseFloat(x.toFixed(1))]: the nearest multiple of one tenth, the
    larger magnitude on a tie. *)
Definition toFixed1 (x : Q) : Q :=
  let n := if Qle_bool 0 x then Qfloor (x * 10 + (1 # 2))
           else (- Qfloor (- x * 10 + (1 # 2)))%Z in
  inject_Z n / 10.

(** [l.reduce((sum, w) => sum + f(w), 0)] *)
Definition sum {A} (f : A -> Q) (l : list A) : Q :=
  fold_left (fun acc w => acc + f w) l 0.

Definition sumZ {A} (f : A -> Z) (l : list A) : Z :=
  fold_left (fun acc w => (acc + f w)%Z) l 0%Z.
End JsNumber.

(** * The broker performance page (filters, analysis mode, weekly chart) *)

Module BrokerPerformanceAnalysis.
Import JsString JsNumber.
Import JsObject (Own, Inherited, Undefined).

(** The fields of a deal that the calculations read, with the types of
    the interface [Deal]: the stage fields ["1. Application"] to
    ["6. Settled"], ["2025 Settlement"] and ["2024 Settlement"] and the
    date hold a string or [null]. The loaders do not check these types; a
    deal with a number or a boolean in such a field is outside this
    record. *)
Record Deal : Type := {
  deal_id : string;
  deal_name : string;
  broker_name : string;
  deal_value : Q;
  f1_Application : option string;
  f2_Assessment : option string;
  f3_Approval : option string;
  f4_Loan_Document : option string;
  f5_Settlement_Queue : option string;
  f6_Settled : option string;
  Settlement_2025 : option string;
  Settlement_2024 : option string;
  latest_date : option string
}.

Inductive Mode : Set := settled | conversion.

Module Stats.
Record t : Type := {
  deals : list Deal;
  settled : Z;
  settledValue : Q;
  converted : Z
}.
End Stats.

Record BrokerPerformance : Type := {
  brokerName : string;
  totalDeals : Z;
  settledDeals : Z;
  settledRate : Q;
  settledValue : Q;
  avgDealValue : Q;
  conversionRate : Q;
  convertedDeals : Z
}.

Definition isSettled (deal : Deal) : bool := filled (f6_Settled deal).

Definition isConverted (deal : Deal) : bool :=
  filled (f1_Application deal) || filled (f2_Assessment deal)
  || filled (f3_Approval deal) || filled (f4_Loan_Document deal)
  || filled (f5_Settlement_Queue deal) || filled (f6_Settled deal)
  || filled (Settlement_2025 deal) || filled (Settlement_2024 deal).

(** *** [filteredDeals] *)
Section Filter.
Context `{Host}.

Definition year_matches (selectedYear : string) (deal : Deal) : bool :=
  match latest_date deal with
  | Some s =>
      if truthy s then
        let year :=
          JsDate.year_toString (JsDate.getFullYear (JsDate.of_string s)) in
        String.eqb year selectedYear
      else false
  | None => false
  end.

Definition filteredDeals (deals : list Deal)
    (selectedBroker selectedYear : string) : list Deal :=
  let filtered := deals in
  let filtered :=
    if negb (String.eqb selectedBroker "all")
    then List.filter (fun deal => String.eqb (broker_name deal) selectedBroker)
                     filtered
    else filtered in
  let filtered :=
    if negb (String.eqb selectedYear "all")
    then List.filter (year_matches selectedYear) filtered
    else filtered in
  filtered.
End Filter.

(** *** [brokerPerformance] *)

Definition new_stats : Stats.t :=
  {| Stats.deals := []; Stats.settled := 0;
     Stats.settledValue := 0%Q; Stats.converted := 0 |}.

(** The statements of the reducer that update [acc[brokerName]]. *)
Definition record_deal (deal : Deal) (stats : Stats.t) : Stats.t :=
  let stats :=
    {| Stats.deals := Stats.deals stats ++ [deal];
       Stats.settled := Stats.settled stats;
       Stats.settledValue := Stats.settledValue stats;
       Stats.converted := Stats.converted stats |} in
  let stats :=
    if isSettled deal then
      {| Stats.deals := Stats.deals stats;
         Stats.settled := Stats.settled stats + 1;
         Stats.settledValue :=
           (Stats.settledValue stats + or_zero (deal_value deal))%Q;
         Stats.converted := Stats.converted stats |}
    else stats in
  if isConverted deal then
    {| Stats.deals := Stats.deals stats;
       Stats.settled := Stats.settled stats;
       Stats.settledValue := Stats.settledValue stats;
       Stats.converted := Stats.converted stats + 1 |}
  else stats.

(** The reducer. [!acc[brokerName]] holds only when the name is neither
    an own property nor inherited; on an inherited name
    [acc[brokerName].deals] is [undefined] and [push] throws. *)
Definition brokerStats_step (acc : JsObject.t Stats.t) (deal : Deal)
  : outcome (JsObject.t Stats.t) :=
  let brokerName := broker_name deal in
  let acc :=
    match JsObject.get acc brokerName with
    | Undefined => JsObject.set acc brokerName new_stats
    | _ => acc
    end in
  match JsObject.get acc brokerName with
  | Own stats => Returns (JsObject.set acc brokerName (record_deal deal stats))
  | _ => Throws TypeError
  end.

Definition brokerStats (deals : list Deal) : outcome (JsObject.t Stats.t) :=
  reduce brokerStats_step deals [].

(** The callback of [Object.entries(brokerStats).map]. *)
Definition performance_of (entry : string * Stats.t) : BrokerPerformance :=
  let '(brokerName, stats) := entry in
  let totalDeals := Z.of_nat (length (Stats.deals stats)) in
  let settledRate :=
    if (totalDeals >? 0)%Z
    then (inject_Z (Stats.settled stats) / inject_Z totalDeals * 100)%Q
    else 0%Q in
  let conversionRate :=
    if (totalDeals >? 0)%Z
    then (inject_Z (Stats.converted stats) / inject_Z totalDeals * 100)%Q
    else 0%Q in
  let avgDealValue :=
    if (Stats.settled stats >? 0)%Z
    then (Stats.settledValue stats / inject_Z (Stats.settled stats))%Q
    else 0%Q in
  {| brokerName := brokerName;
     totalDeals := totalDeals;
     settledDeals := Stats.settled stats;
     settledRate := settledRate;
     settledValue := Stats.settledValue stats;
     avgDealValue := avgDealValue;
     conversionRate := conversionRate;
     convertedDeals := Stats.converted stats |}.

Definition by_mode (selectedMode : Mode) (a b : BrokerPerformance) : Q :=
  match selectedMode with
  | settled => (settledValue b - settledValue a)%Q
  | conversion => (conversionRate b - conversionRate a)%Q
  end.

Definition brokerPerformance (filteredDeals : list Deal)
    (selectedMode : Mode) : outcome (list BrokerPerformance) :=
  if (length filteredDeals =? 0)%nat then Returns []
  else
    stats ← brokerStats filteredDeals;
    Returns (Array_sort (by_mode selectedMode)
                        (map performance_of (JsObject.entries stats))).

(** *** [filteredBrokers] *)
Definition filteredBrokers (brokerPerformance : list BrokerPerformance)
    (minDealsThreshold : Q) : list BrokerPerformance :=
  List.filter
    (fun broker => Qle_bool minDealsThreshold (inject_Z (totalDeals broker)))
    brokerPerformance.

(** *** [chartData]: weekly performance by threshold category *)

Module Week.
Record t : Type := {
  weekStart : JsDate.t;
  deals : list Deal;
  totalDeals : Z;
  settledDeals : Z;
  convertedDeals : Z
}.
End Week.

Module WeekRow.
Record t : Type := {
  totalDeals : Z;
  rate : Q;
  settledRate : Q;
  conversionRate : Q;
  settledDeals : Z;
  convertedDeals : Z;
  isAboveThreshold : bool
}.
End WeekRow.

Module Category.
Record t : Type := {
  category : string;
  rate : Q;
  weekCount : Z;
  totalDeals : Z;
  avgSettledRate : Q;
  avgConversionRate : Q
}.
End Category.

Definition new_week (weekStart : JsDate.t) : Week.t :=
  {| Week.weekStart := weekStart; Week.deals := [];
     Week.totalDeals := 0; Week.settledDeals := 0;
     Week.convertedDeals := 0 |}.

Definition record_week_deal (deal : Deal) (w : Week.t) : Week.t :=
  let w :=
    {| Week.weekStart := Week.weekStart w;
       Week.deals := Week.deals w ++ [deal];
       Week.totalDeals := Week.totalDeals w + 1;
       Week.settledDeals := Week.settledDeals w;
       Week.convertedDeals := Week.convertedDeals w |} in
  let w :=
    if isSettled deal then
      {| Week.weekStart := Week.weekStart w;
         Week.deals := Week.deals w;
         Week.totalDeals := Week.totalDeals w;
         Week.settledDeals := Week.settledDeals w + 1;
         Week.convertedDeals := Week.convertedDeals w |}
    else w in
  if isConverted deal then
    {| Week.weekStart := Week.weekStart w;
       Week.deals := Week.deals w;
       Week.totalDeals := Week.totalDeals w;
       Week.settledDeals := Week.settledDeals w;
       Week.convertedDeals := Week.convertedDeals w + 1 |}
  else w.

Section Weekly.
Context `{Host}.

(** The week start of a deal date: the copy [weekStart] of [dealDate]
    after [setDate(diff)] and [setHours(0, 0, 0, 0)]. *)
Definition week_start (dealDate : JsDate.t) : JsDate.t :=
  let weekStart := dealDate in
  let day := JsDate.getDay weekStart in
  let diff :=
    date ← JsDate.getDate weekStart;
    day ← day;
    Some (date - day + (if day =? 0 then -6 else 1)) in
  let weekStart := JsDate.setDate weekStart diff in
  JsDate.setHours0 weekStart.

(** [weekStart.toISOString().split('T')[0]] *)
Definition week_key (weekStart : JsDate.t) : outcome string :=
  iso ← JsDate.toISOString weekStart;
  Returns (split_head "T" iso).

Definition weeklyGroups_step (acc : JsObject.t Week.t) (deal : Deal)
  : outcome (JsObject.t Week.t) :=
  match latest_date deal with
  | None => Returns acc
  | Some s =>
      if negb (truthy s) then Returns acc
      else
        let dealDate := JsDate.of_string s in
        match JsDate.getTime dealDate with
        | None => Returns acc
        | Some _ =>
            let weekStart := week_start dealDate in
            weekKey ← week_key weekStart;
            let acc :=
              match JsObject.get acc weekKey with
              | Undefined => JsObject.set acc weekKey (new_week weekStart)
              | _ => acc
              end in
            match JsObject.get acc weekKey with
            | Own w =>
                Returns (JsObject.set acc weekKey (record_week_deal deal w))
            | _ => Throws TypeError
            end
        end
  end.

Definition weeklyGroups (brokerDeals : list Deal)
  : outcome (JsObject.t Week.t) :=
  reduce weeklyGroups_step brokerDeals [].
End Weekly.

(** The callback of [Object.entries(weeklyGroups).map]. *)
Definition week_row (selectedMode : Mode) (threshold : Z)
    (entry : string * Week.t) : WeekRow.t :=
  let data := snd entry in
  let settledRate :=
    if (Week.totalDeals data >? 0)%Z
    then (inject_Z (Week.settledDeals data)
          / inject_Z (Week.totalDeals data) * 100)%Q
    else 0%Q in
  let conversionRate :=
    if (Week.totalDeals data >? 0)%Z
    then (inject_Z (Week.convertedDeals data)
          / inject_Z (Week.totalDeals data) * 100)%Q
    else 0%Q in
  let rate :=
    match selectedMode with
    | settled => settledRate
    | conversion => conversionRate
    end in
  {| WeekRow.totalDeals := Week.totalDeals data;
     WeekRow.rate := rate;
     WeekRow.settledRate := settledRate;
     WeekRow.conversionRate := conversionRate;
     WeekRow.settledDeals := Week.settledDeals data;
     WeekRow.convertedDeals := Week.convertedDeals data;
     WeekRow.isAboveThreshold := (Week.totalDeals data >=? threshold)%Z |}.

(** [ws.reduce((sum, w) => sum + f(w), 0) / ws.length] *)
Definition average (f : WeekRow.t -> Q) (ws : list WeekRow.t) : Q :=
  (sum f ws / inject_Z (Z.of_nat (length ws)))%Q.

Definition category_of (label : string) (avg : Q) (ws : list WeekRow.t)
  : Category.t :=
  {| Category.category := label;
     Category.rate := toFixed1 avg;
     Category.weekCount := Z.of_nat (length ws);
     Category.totalDeals := sumZ WeekRow.totalDeals ws;
     Category.avgSettledRate := average WeekRow.settledRate ws;
     Category.avgConversionRate := average WeekRow.conversionRate ws |}.

(** From [weeklyData] to the chart: the two categories, each pushed only
    when it has weeks. *)
Definition threshold_chart (threshold : Z) (weeklyData : list WeekRow.t)
  : list Category.t :=
  let aboveThresholdWeeks := List.filter WeekRow.isAboveThreshold weeklyData in
  let belowThresholdWeeks :=
    List.filter (fun w => negb (WeekRow.isAboveThreshold w)) weeklyData in
  let avgAboveThreshold :=
    if (0 <? length aboveThresholdWeeks)%nat
    then average WeekRow.rate aboveThresholdWeeks else 0%Q in
  let avgBelowThreshold :=
    if (0 <? length belowThresholdWeeks)%nat
    then average WeekRow.rate belowThresholdWeeks else 0%Q in
  let chartData := [] in
  let chartData :=
    if (0 <? length belowThresholdWeeks)%nat
    then chartData ++ [category_of ("< " +:+ of_Z threshold)
                                   avgBelowThreshold belowThresholdWeeks]
    else chartData in
  let chartData :=
    if (0 <? length aboveThresholdWeeks)%nat
    then chartData ++ [category_of (">= " +:+ of_Z threshold)
                                   avgAboveThreshold aboveThresholdWeeks]
    else chartData in
  chartData.

Definition weeklyData (selectedMode : Mode) (threshold : Z)
    (weeklyGroups : JsObject.t Week.t) : list WeekRow.t :=
  map (week_row selectedMode threshold) (JsObject.entries weeklyGroups).

Definition chartData `{Host} (filteredDeals : list Deal)
    (selectedBroker : string) (selectedMode : Mode) (threshold : Z)
  : outcome (list Category.t) :=
  if String.eqb selectedBroker "all" || (length filteredDeals =? 0)%nat
  then Returns []
  else
    let brokerDeals :=
      List.filter (fun deal => String.eqb (broker_name deal) selectedBroker)
                  filteredDeals in
    if (length brokerDeals =? 0)%nat then Returns []
    else
      groups ← weeklyGroups brokerDeals;
      Returns (threshold_chart threshold
                 (weeklyData selectedMode threshold groups)).

End BrokerPerformanceAnalysis.

(** * The earlier broker performance page (rate thresholds, no filters) *)

Module BrokerPerformanceThresholds.
Import BrokerPerformanceAnalysis.

(** The same record of a deal, the same reducer and the same derivation
    of rates; the list is always ordered by settled value. *)
Definition brokerPerformance (deals : list Deal)
  : outcome (list BrokerPerformance) :=
  if (length deals =? 0)%nat then Returns []
  else
    stats ← brokerStats deals;
    Returns (Array_sort (fun a b => (settledValue b - settledValue a)%Q)
                        (map performance_of (JsObject.entries stats))).

Definition filteredBrokers (brokerPerformance : list BrokerPerformance)
    (minDealsThreshold : Q) : list BrokerPerformance :=
  List.filter
    (fun broker => Qle_bool minDealsThreshold (inject_Z (totalDeals broker)))
    brokerPerformance.
End BrokerPerformanceThresholds.

(** * Arrays of strings *)

Module JsArray.
(** [Array.from(new Set(l))]: the first occurrence of each string. *)
Definition unique (l : list string) : list string :=
  fold_left (fun acc x => if existsb (String.eqb x) acc then acc
                          else acc ++ [x]) l [].

(** [l.sort()]: ascending by code units. *)
Definition sort_strings (l : list string) : list string :=
  Array_sort (fun a b => match String.compare a b with
                         | Lt => (-1)%Q
                         | Eq => 0%Q
                         | Gt => 1%Q
                         end) l.

(** [l.slice(-n)] *)
Definition slice_last {A} (n : nat) (l : list A) : list A :=
  skipn (length l - n) l.
End JsArray.

(** * The lead sources page on uploaded deals (fixed divisor) *)

Module LeadSourcesAnalysis.
Import JsString JsNumber.
Import JsObject (Own, Inherited, Undefined).

(** [created_date] is absent from deals uploaded through the dashboard,
    so both dates are optional here; a date that is present is a string,
    as the interface [Deal] declares. *)
Record Deal : Type := {
  deal_id : string;
  deal_name : string;
  broker_name : string;
  status : string;
  deal_value : Q;
  From_Rednote : string;
  From_LifeX : string;
  created_date : option string;
  latest_date : option string
}.

Record ChartDataPoint : Type := {
  date : string;
  settledDeals30DayAvg : Q;
  rednoteDeals30DayAvg : Q
}.

Section WithHost.
Context `{Host}.

Definition calculate30DayRollingAvg (dateValueMap : JsObject.t Z)
    (targetDate : string) (allAvailableDates : list string) : Q :=
  let current := JsDate.of_string targetDate in
  let thirtyDaysBefore :=
    JsDate.of_number
      (tv ← JsDate.getTime current; Some (tv - 30 * 24 * 60 * 60 * 1000)) in
  let sum := 0 in
  if (length allAvailableDates =? 0)%nat then 0%Q
  else
    let sum :=
      fold_left
        (fun sum '(date, count) =>
           let dateObj := JsDate.of_string date in
           if JsDate.ge dateObj thirtyDaysBefore && JsDate.le dateObj current
           then sum + count else sum)
        (JsObject.entries dateValueMap) sum in
    (inject_Z sum / 30)%Q.
End WithHost.

(** [deal.latest_date || deal.created_date] *)
Definition bucket_date (deal : Deal) : option string :=
  match latest_date deal with
  | Some s => if truthy s then Some s else created_date deal
  | None => created_date deal
  end.

Definition is_settled (deal : Deal) : bool :=
  String.eqb (status deal) "6. Settled".
Definition is_rednote (deal : Deal) : bool :=
  String.eqb (From_Rednote deal) "Yes".

(** The reducer that collects the deal ids of each date. *)
Definition idsByDate_step (acc : JsObject.t (gset string)) (deal : Deal)
  : outcome (JsObject.t (gset string)) :=
  match bucket_date deal with
  | Some date =>
      if filled (Some date) then
        let acc :=
          match JsObject.get acc date with
          | Undefined => JsObject.set acc date (∅ : gset string)
          | _ => acc
          end in
        match JsObject.get acc date with
        | Own ids => Returns (JsObject.set acc date ({[ deal_id deal ]} ∪ ids))
        | _ => Throws TypeError
        end
      else Returns acc
  | None => Returns acc
  end.

Definition idsByDate (select : Deal -> bool) (deals : list Deal)
  : outcome (JsObject.t (gset string)) :=
  reduce idsByDate_step (List.filter select deals) [].

(** "Convert sets to counts" *)
Definition countByDate (byDate : JsObject.t (gset string)) : JsObject.t Z :=
  fold_left (fun acc '(date, dealIds) =>
               JsObject.set acc date (Z.of_nat (size dealIds)))
            (JsObject.entries byDate) [].

Definition settledCountByDate (deals : list Deal) : outcome (JsObject.t Z) :=
  byDate ← idsByDate is_settled deals; Returns (countByDate byDate).

Definition rednoteCountByDate (deals : list Deal) : outcome (JsObject.t Z) :=
  byDate ← idsByDate is_rednote deals; Returns (countByDate byDate).

Definition allDates (deals : list Deal) : list string :=
  JsArray.sort_strings
    (JsArray.unique
       (omap (fun deal =>
                match bucket_date deal with
                | Some date => if filled (Some date) then Some date else None
                | None => None
                end) deals)).

Definition chartData `{Host} (deals : list Deal)
  : outcome (list ChartDataPoint) :=
  if (length deals =? 0)%nat then Returns []
  else
    settledCountByDate ← settledCountByDate deals;
    rednoteCountByDate ← rednoteCountByDate deals;
    let allDates := allDates deals in
    if (length allDates =? 0)%nat then Returns []
    else
      let result :=
        map (fun date =>
               {| date := date;
                  settledDeals30DayAvg :=
                    calculate30DayRollingAvg settledCountByDate date allDates;
                  rednoteDeals30DayAvg :=
                    calculate30DayRollingAvg rednoteCountByDate date allDates
               |}) allDates in
      Returns (JsArray.slice_last 90 result).

End LeadSourcesAnalysis.

(** * The lead sources page on sample deals (full window) *)

Inductive number_or_null : Type :=
| Num (q : Q)
| null.

Module LeadSourcesSample.
Import JsString JsNumber.
Import JsObject (Own, Inherited, Undefined).

Record Deal : Type := {
  deal_id : string;
  deal_name : string;
  broker_name : string;
  status : string;
  deal_value : Q;
  From_Rednote : string;
  From_LifeX : string;
  created_date : string
}.

Record ChartDataPoint : Type := {
  date : string;
  settledDeals30DayAvg : number_or_null;
  rednoteDeals30DayAvg : number_or_null
}.

(** The functions of this page return [None] when they have neither a
    number nor [null] to return: when the loop below is cut short by its
    fuel, and when a looked-up name is a property inherited from
    [Object.prototype] (the sum would then become a string). *)
Section WithHost.
Context `{Host}.

(** The [for] loop over the days of the window, from [d] to [current]. *)
Fixpoint window_loop (fuel : nat) (dateValueMap : JsObject.t Z)
    (current d : JsDate.t) (sum dayCount : Z) : option (Z * Z) :=
  match fuel with
  | O => None
  | S fuel =>
      if JsDate.le d current then
        match JsDate.toISOString d with
        | Returns iso =>
            let dateStr := split_head "T" iso in
            match JsObject.get dateValueMap dateStr with
            | Inherited => None
            | found =>
                let count :=
                  match found with
                  | Own v => if v =? 0 then 0 else v
                  | _ => 0
                  end in
                let sum := sum + count in
                let dayCount := dayCount + 1 in
                let d :=
                  JsDate.setDate d (n ← JsDate.getDate d; Some (n + 1)) in
                window_loop fuel dateValueMap current d sum dayCount
            end
        | Throws _ => None
        end
      else Some (sum, dayCount)
  end.

(** More iterations than there are days from [d] to [current]. *)
Definition window_fuel (current d : JsDate.t) : nat :=
  match current, d with
  | Some c, Some tv => Z.to_nat ((c - tv) / JsDate.msPerDay) + 2
  | _, _ => 1
  end.

Definition calculate30DayRollingSum (dateValueMap : JsObject.t Z)
    (targetDate : string) : option number_or_null :=
  let current := JsDate.of_string targetDate in
  let thirtyDaysBefore :=
    JsDate.setDate current (n ← JsDate.getDate current; Some (n - 30)) in
  '(sum, dayCount) ←
    window_loop (window_fuel current thirtyDaysBefore) dateValueMap
                current thirtyDaysBefore 0 0;
  Some (if dayCount >=? 30 then Num (inject_Z sum / 30)%Q else null).
End WithHost.

Definition is_settled (deal : Deal) : bool :=
  String.eqb (status deal) "6. Settled".
Definition is_rednote (deal : Deal) : bool :=
  String.eqb (From_Rednote deal) "Yes".

(** [acc[date] = (acc[date] || 0) + 1] *)
Definition rowsByDate_step (acc : JsObject.t Z) (deal : Deal)
  : option (JsObject.t Z) :=
  let date := created_date deal in
  match JsObject.get acc date with
  | Own v => Some (JsObject.set acc date ((if v =? 0 then 0 else v) + 1))
  | Undefined => Some (JsObject.set acc date (0 + 1))
  | Inherited => None
  end.

Definition rowsByDate (select : Deal -> bool) (deals : list Deal)
  : option (JsObject.t Z) :=
  foldl (fun acc deal => acc ← acc; rowsByDate_step acc deal) (Some [])
        (List.filter select deals).

Section Chart.
Context `{Host}.

Definition year_matches (selectedYear : string) (deal : Deal) : bool :=
  let dealYear :=
    JsDate.year_toString
      (JsDate.getFullYear (JsDate.of_string (created_date deal))) in
  String.eqb dealYear selectedYear.

Definition point (settledByDate rednoteByDate : JsObject.t Z)
    (date : string) : option ChartDataPoint :=
  s ← calculate30DayRollingSum settledByDate date;
  r ← calculate30DayRollingSum rednoteByDate date;
  Some {| date := date; settledDeals30DayAvg := s;
          rednoteDeals30DayAvg := r |}.

Definition chartData (deals : list Deal) (selectedYear : string)
  : option (list ChartDataPoint) :=
  if (length deals =? 0)%nat then Some []
  else
    let filteredDeals :=
      if String.eqb selectedYear "all" then deals
      else List.filter (year_matches selectedYear) deals in
    settledByDate ← rowsByDate is_settled filteredDeals;
    rednoteByDate ← rowsByDate is_rednote filteredDeals;
    let allDates :=
      JsArray.sort_strings
        (JsArray.unique (map fst (JsObject.entries settledByDate)
                         ++ map fst (JsObject.entries rednoteByDate))) in
    result ← mapM (point settledByDate rednoteByDate) allDates;
    Some (List.filter
            (fun d => match settledDeals30DayAvg d, rednoteDeals30DayAvg d with
                      | null, null => false
                      | _, _ => true
                      end) result).
End Chart.

End LeadSourcesSample.

(** ** More numbers *)

Module JsMath.
Local Open Scope Q_scope.

(** [Math.max(a, b)] and [Math.min(a, b)] *)
Definition max (a b : Q) : Q := if Qle_bool a b then b else a.
Definition min (a b : Q) : Q := if Qle_bool a b then a else b.

(** [Math.max(...l)] and [Math.min(...l)] on an array with a first
    element. *)
Definition max_of (x : Q) (l : list Q) : Q := fold_left max l x.
Definition min_of (x : Q) (l : list Q) : Q := fold_left min l x.

(** [denominator > 0 ? (count / denominator) * 100 : 0] *)
Definition percent (count denominator : Z) : Q :=
  if (denominator >? 0)%Z
  then inject_Z count / inject_Z denominator * 100
  else 0.
End JsMath.

(** * The earlier broker performance page: summary cards and badges *)

Module BrokerThresholdsSummary.
Import BrokerPerformanceAnalysis JsNumber.

Module Summary.
Record t : Type := {
  aboveSettledThreshold : Z;
  aboveConversionThreshold : Z;
  totalBrokers : Z;
  avgSettledRate : Q;
  avgConversionRate : Q
}.
End Summary.

Definition performanceSummary (filteredBrokers : list BrokerPerformance)
    (settledRateThreshold conversionRateThreshold : Q) : Summary.t :=
  let aboveSettledThreshold :=
    Z.of_nat (length (List.filter
                        (fun b => Qle_bool settledRateThreshold (settledRate b))
                        filteredBrokers)) in
  let aboveConversionThreshold :=
    Z.of_nat (length (List.filter
                        (fun b => Qle_bool conversionRateThreshold
                                           (conversionRate b))
                        filteredBrokers)) in
  let totalBrokers := Z.of_nat (length filteredBrokers) in
  {| Summary.aboveSettledThreshold := aboveSettledThreshold;
     Summary.aboveConversionThreshold := aboveConversionThreshold;
     Summary.totalBrokers := totalBrokers;
     Summary.avgSettledRate :=
       if totalBrokers >? 0
       then (sum settledRate filteredBrokers / inject_Z totalBrokers)%Q
       else 0%Q;
     Summary.avgConversionRate :=
       if totalBrokers >? 0
       then (sum conversionRate filteredBrokers / inject_Z totalBrokers)%Q
       else 0%Q |}.

(** The badge of a broker; the icon component is left out. *)
Module Badge.
Record t : Type := { status : string; color : string }.
End Badge.

Definition getPerformanceStatus (settledRateThreshold conversionRateThreshold : Q)
    (broker : BrokerPerformance) : Badge.t :=
  let settledMeetsThreshold :=
    Qle_bool settledRateThreshold (settledRate broker) in
  let conversionMeetsThreshold :=
    Qle_bool conversionRateThreshold (conversionRate broker) in
  if settledMeetsThreshold && conversionMeetsThreshold then
    {| Badge.status := "excellent";
       Badge.color := "bg-green-100 text-green-800" |}
  else if settledMeetsThreshold || conversionMeetsThreshold then
    {| Badge.status := "good";
       Badge.color := "bg-yellow-100 text-yellow-800" |}
  else
    {| Badge.status := "needs-improvement";
       Badge.color := "bg-red-100 text-red-800" |}.

(** The class of a rate in the table:
    [rate >= threshold ? 'text-green-600 font-semibold' : 'text-red-600'] *)
Definition rate_class (rate threshold : Q) : string :=
  if Qle_bool threshold rate then "text-green-600 font-semibold"
  else "text-red-600".

(** The number of brokers of the list with a badge. *)
Definition badge_count (settledRateThreshold conversionRateThreshold : Q)
    (status : string) (brokers : list BrokerPerformance) : Z :=
  Z.of_nat (length (List.filter
    (fun b => String.eqb
                (Badge.status (getPerformanceStatus settledRateThreshold
                                 conversionRateThreshold b)) status)
    brokers)).
End BrokerThresholdsSummary.

(** * The lead sources page on uploaded deals: axes and summary *)

Module LeadSourcesSummary.
Import LeadSourcesAnalysis JsMath.

(** One axis: the positive values of a series, padded by a tenth of their
    range and at least a twentieth of their maximum; [1] and [0] stand for
    the maximum and the minimum of a series without positive values. *)
Definition axis_domain (series : list Q) : Q * Q :=
  let values := List.filter (fun v => negb (Qle_bool v 0)) series in
  let maxValue :=
    match values with
    | v :: vs => max_of v vs
    | [] => 1%Q
    end in
  let minValue :=
    match values with
    | v :: vs => min_of v vs
    | [] => 0%Q
    end in
  let padding :=
    max ((maxValue - minValue) * (1 # 10))%Q (maxValue * (5 # 100))%Q in
  (max 0 (minValue - padding)%Q, (maxValue + padding)%Q).

Module Domains.
Record t : Type := { leftDomain : Q * Q; rightDomain : Q * Q }.
End Domains.

Definition yAxisDomains (chartData : list ChartDataPoint) : Domains.t :=
  if (length chartData =? 0)%nat then
    {| Domains.leftDomain := (0%Q, 10%Q);
       Domains.rightDomain := (0%Q, 10%Q) |}
  else
    {| Domains.leftDomain := axis_domain (map settledDeals30DayAvg chartData);
       Domains.rightDomain :=
         axis_domain (map rednoteDeals30DayAvg chartData) |}.

Module Metrics.
Record t : Type := {
  totalLeads : Z;
  conversionRate : Q;
  avgDealValue : Q;
  rednoteLeads : Z;
  lifexLeads : Z;
  otherLeads : Z;
  settledDeals : Z;
  rednotePercentage : Q;
  lifexPercentage : Q;
  rednoteConversionRate : Q;
  lifexConversionRate : Q;
  otherConversionRate : Q
}.
End Metrics.

Definition is_lifex (deal : Deal) : bool :=
  String.eqb (From_LifeX deal) "Yes".

(** [deals.filter(p).length] *)
Definition count (p : Deal -> bool) (deals : list Deal) : Z :=
  Z.of_nat (length (List.filter p deals)).

Definition summaryMetrics (deals : list Deal) : Metrics.t :=
  if (length deals =? 0)%nat then
    {| Metrics.totalLeads := 0; Metrics.conversionRate := 0;
       Metrics.avgDealValue := 0; Metrics.rednoteLeads := 0;
       Metrics.lifexLeads := 0; Metrics.otherLeads := 0;
       Metrics.settledDeals := 0; Metrics.rednotePercentage := 0;
       Metrics.lifexPercentage := 0; Metrics.rednoteConversionRate := 0;
       Metrics.lifexConversionRate := 0; Metrics.otherConversionRate := 0 |}
  else
    let totalLeads := Z.of_nat (length deals) in
    let settledDeals := count is_settled deals in
    let conversionRate := percent settledDeals totalLeads in
    let dealValues :=
      map deal_value
          (List.filter (fun deal => negb (Qeq_bool (deal_value deal) 0)
                                    && negb (Qle_bool (deal_value deal) 0))
                       deals) in
    let avgDealValue :=
      if (0 <? length dealValues)%nat
      then (fold_left Qplus dealValues 0
            / inject_Z (Z.of_nat (length dealValues)))%Q
      else 0%Q in
    let rednoteLeads := count is_rednote deals in
    let lifexLeads := count is_lifex deals in
    let otherLeads := totalLeads - rednoteLeads - lifexLeads in
    let rednotePercentage := percent rednoteLeads totalLeads in
    let lifexPercentage := percent lifexLeads totalLeads in
    let rednoteSettledDeals :=
      count (fun deal => is_rednote deal && is_settled deal) deals in
    let lifexSettledDeals :=
      count (fun deal => is_lifex deal && is_settled deal) deals in
    let otherSettledDeals :=
      count (fun deal => negb (is_rednote deal) && negb (is_lifex deal)
                         && is_settled deal) deals in
    let rednoteConversionRate := percent rednoteSettledDeals rednoteLeads in
    let lifexConversionRate := percent lifexSettledDeals lifexLeads in
    let otherConversionRate := percent otherSettledDeals otherLeads in
    {| Metrics.totalLeads := totalLeads;
       Metrics.conversionRate := conversionRate;
       Metrics.avgDealValue := avgDealValue;
       Metrics.rednoteLeads := rednoteLeads;
       Metrics.lifexLeads := lifexLeads;
       Metrics.otherLeads := otherLeads;
       Metrics.settledDeals := settledDeals;
       Metrics.rednotePercentage := rednotePercentage;
       Metrics.lifexPercentage := lifexPercentage;
       Metrics.rednoteConversionRate := rednoteConversionRate;
       Metrics.lifexConversionRate := lifexConversionRate;
       Metrics.otherConversionRate := otherConversionRate |}.

(** The "Best Source" card: the name, and the share shown under it. *)
Definition bestSource (m : Metrics.t) : string :=
  if negb (Qle_bool (Metrics.rednotePercentage m) (Metrics.lifexPercentage m))
  then "Rednote" else "LifeX".

Definition bestSourceShare (m : Metrics.t) : Q :=
  max (Metrics.rednotePercentage m) (Metrics.lifexPercentage m).

(** The deal is attributed to both sources. *)
Definition both_sources (deal : Deal) : bool :=
  is_rednote deal && is_lifex deal.

(** The deal is attributed to neither source. *)
Definition no_source (deal : Deal) : bool :=
  negb (is_rednote deal) && negb (is_lifex deal).
End LeadSourcesSummary.

(** ** More strings *)

Module JsText.
Import JsString.

Definition is_digit (c : ascii) : bool :=
  let n := N_of_ascii c in ((48 <=? n) && (n <=? 57))%N.

(** The value of a code unit as a digit of a radix up to 36. *)
Definition digit_value (c : ascii) : option Z :=
  let n := N_of_ascii c in
  if ((48 <=? n) && (n <=? 57))%N then Some (Z.of_N (n - 48))
  else if ((97 <=? n) && (n <=? 122))%N then Some (Z.of_N (n - 87))
  else if ((65 <=? n) && (n <=? 90))%N then Some (Z.of_N (n - 55))
  else None.

(** The number written by the longest prefix of digits of the radix,
    after the digits read so far ([None] when none has been read). *)
Fixpoint radix_prefix (radix : Z) (s : string) (acc : option Z) : option Z :=
  match s with
  | EmptyString => acc
  | String c s' =>
      match digit_value c with
      | Some d =>
          if d <? radix
          then radix_prefix radix s' (Some (radix * default 0 acc + d))
          else acc
      | None => acc
      end
  end.

(** [parseInt(s)], [None] for [NaN]: leading white space, a sign, an
    optional [0x] or [0X] that selects radix 16, and the longest prefix
    of digits. *)
Definition parseInt (s : string) : option Z :=
  let s := trimStart s in
  let '(sign, s) :=
    match s with
    | String "-" s' => (-1, s')
    | String "+" s' => (1, s')
    | _ => (1, s)
    end in
  let '(radix, s) :=
    match s with
    | String "0" (String "x" s') => (16, s')
    | String "0" (String "X" s') => (16, s')
    | _ => (10, s)
    end in
  n ← radix_prefix radix s None; Some (sign * n).

(** [s.includes(pattern)] *)
Fixpoint includes (s pattern : string) : bool :=
  String.prefix pattern s
  || match s with
     | EmptyString => false
     | String _ s' => includes s' pattern
     end.
End JsText.

(** * The broker performance page: year filter, summary cards and colours *)

Module BrokerPerformanceSummary.
Import BrokerPerformanceAnalysis JsString JsText JsNumber.

Section WithHost.
Context `{Host}.

(** The year of a deal that [availableYears] adds to its set. *)
Definition year_of (deal : Deal) : option string :=
  match latest_date deal with
  | Some s =>
      if truthy s then
        let year :=
          JsDate.year_toString (JsDate.getFullYear (JsDate.of_string s)) in
        match parseInt year with
        | Some _ => Some year
        | None => None
        end
      else None
  | None => None
  end.

(** [(a, b) => parseInt(b) - parseInt(a)]; the sort reads a [NaN] as 0. *)
Definition newest_first (a b : string) : Q :=
  match parseInt b, parseInt a with
  | Some y, Some x => inject_Z (y - x)
  | _, _ => 0%Q
  end.

Definition availableYears (deals : list Deal) : list string :=
  let years := JsArray.unique (omap year_of deals) in
  Array_sort newest_first years.

(** The time values that [performanceSummary] takes the range of. *)
Definition dated (deal : Deal) : bool :=
  match latest_date deal with
  | Some s => truthy s
  | None => false
  end.

Definition deal_times (brokerDeals : list Deal) : list Z :=
  omap (fun deal => s ← latest_date deal; JsDate.getTime (JsDate.of_string s))
       (List.filter dated brokerDeals).
End WithHost.

Module Summary.
Record t : Type := { selectedBrokerRate : Q; avgDealsPerWeek : Q }.
End Summary.

Definition performanceSummary `{Host}
    (brokerPerformance : list BrokerPerformance) (filteredDeals : list Deal)
    (selectedBroker : string) (selectedMode : Mode) : Summary.t :=
  let selectedBrokerData :=
    List.find (fun b => String.eqb (brokerName b) selectedBroker)
              brokerPerformance in
  let selectedBrokerRate :=
    match selectedBrokerData with
    | Some b =>
        match selectedMode with
        | settled => settledRate b
        | conversion => conversionRate b
        end
    | None => 0%Q
    end in
  let avgDealsPerWeek := 0%Q in
  let avgDealsPerWeek :=
    if negb (String.eqb selectedBroker "all")
       && (0 <? length filteredDeals)%nat
    then
      let brokerDeals :=
        List.filter (fun deal => String.eqb (broker_name deal) selectedBroker)
                    filteredDeals in
      if (0 <? length brokerDeals)%nat then
        match deal_times brokerDeals with
        | time :: times =>
            let minDate := fold_left Z.min times time in
            let maxDate := fold_left Z.max times time in
            let totalDays :=
              JsMath.max 1 (inject_Z (maxDate - minDate)
                            / inject_Z (1000 * 60 * 60 * 24))%Q in
            let totalWeeks := JsMath.max 1 (totalDays / 7)%Q in
            (inject_Z (Z.of_nat (length brokerDeals)) / totalWeeks)%Q
        | [] => avgDealsPerWeek
        end
      else avgDealsPerWeek
    else avgDealsPerWeek in
  {| Summary.selectedBrokerRate := selectedBrokerRate;
     Summary.avgDealsPerWeek := avgDealsPerWeek |}.

(** The badge of a broker; the icon component is left out. *)
Module Badge.
Record t : Type := { status : string; color : string }.
End Badge.

Definition getPerformanceStatus (selectedMode : Mode) (threshold : Q)
    (broker : BrokerPerformance) : Badge.t :=
  let meetsThreshold :=
    match selectedMode with
    | settled => Qle_bool threshold (inject_Z (settledDeals broker))
    | conversion => Qle_bool threshold (inject_Z (convertedDeals broker))
    end in
  if meetsThreshold then
    {| Badge.status := "above-threshold";
       Badge.color := "bg-green-100 text-green-800" |}
  else
    {| Badge.status := "below-threshold";
       Badge.color := "bg-red-100 text-red-800" |}.

(** The handler of the threshold field:
    [Math.min(60, Math.max(0, Number(e.target.value) || 0))], on the number
    read from the field ([None] for [NaN]). *)
Definition threshold_of_input (value : option Q) : Q :=
  let number :=
    match value with
    | Some q => or_zero q
    | None => 0%Q
    end in
  JsMath.min 60 (JsMath.max 0 number).

(** The fill of a bar of the weekly chart. *)
Definition fill (entry : Category.t) : string :=
  if includes (Category.category entry) "<" then "#dc2626" else "#16a34a".
End BrokerPerformanceSummary.

(** * The lead sources page on sample deals: years and sample data *)

Module LeadSourcesSampleData.
Import LeadSourcesSample JsString.

Section WithHost.
Context `{Host}.

(** The year that a deal adds to the set of [availableYears]. *)
Definition year_of (deal : Deal) : option string :=
  if truthy (created_date deal)
  then Some (JsDate.year_toString
               (JsDate.getFullYear (JsDate.of_string (created_date deal))))
  else None.

(** [Array.from(years).sort().reverse()] *)
Definition availableYears (deals : list Deal) : list string :=
  let years := JsArray.unique (omap year_of deals) in
  List.rev (JsArray.sort_strings years).

(** *** [generateSampleDeals]

    [random n] is the number that the call number [n] of [Math.random()]
    returns, a number from 0 up to but not including 1; the functions
    below pass on the number of calls made so far. The arithmetic on
    these numbers is exact here. *)
Section Generate.
Variable random : nat -> Q.

Definition statuses : list string :=
  [ "1. Application"; "2. Assessment"; "3. Approval"; "4. Loan Document";
    "5. Settlement Queue"; "Lost" ].

(** [new Date(n)] for a number with a fraction: the fraction is dropped. *)
Definition date_of_number (n : option Q) : JsDate.t :=
  q ← n;
  JsDate.TimeClip (if Qle_bool 0 q then Qfloor q else Qceiling q).

(** [Math.random() < p] *)
Definition below (calls : nat) (p : Q) : bool := negb (Qle_bool p (random calls)).

(** [Math.floor(Math.random() * n)] *)
Definition pick (calls : nat) (n : Q) : Z := Qfloor (random calls * n).

(** The body of the loop: the deal that is pushed, unless the date cannot
    be formatted, and the number of calls of [Math.random()] after it. An
    index past the end of [statuses], which no number below 1 gives,
    reads as the empty text here. *)
Definition sample_deal (startDate endDate : JsDate.t) (i : Z) (calls : nat)
  : outcome Deal * nat :=
  let randomDate :=
    date_of_number
      (s ← JsDate.getTime startDate; e ← JsDate.getTime endDate;
       Some (inject_Z s + random calls * inject_Z (e - s))%Q) in
  let calls := S calls in
  let isRednote := below calls (25 # 100) in
  let calls := S calls in
  let isSettled := below calls (15 # 100) in
  let calls := S calls in
  let broker := "Broker " +:+ of_Z (pick calls 15) in
  let calls := S calls in
  let '(status, calls) :=
    if isSettled then ("6. Settled", calls)
    else
      let index := pick calls 6 in
      (if (0 <=? index)%Z then nth (Z.to_nat index) statuses "" else "",
       S calls) in
  let value := pick calls 1500000 in
  let calls := S calls in
  let '(lifex, calls) :=
    if negb isRednote
    then (if below calls (35 # 100) then "Yes" else "No", S calls)
    else ("No", calls) in
  (iso ← JsDate.toISOString randomDate;
   Returns {| deal_id := "deal_" +:+ of_Z i;
              deal_name := "Deal " +:+ of_Z i;
              broker_name := broker;
              status := status;
              deal_value := inject_Z value;
              From_Rednote := if isRednote then "Yes" else "No";
              From_LifeX := lifex;
              created_date := split_head "T" iso |},
   calls).

(** The loop, with [count] iterations to go from [i] on. *)
Fixpoint generate_from (startDate endDate : JsDate.t) (count : nat) (i : Z)
    (calls : nat) (deals : list Deal) : outcome (list Deal) :=
  match count with
  | O => Returns deals
  | S count =>
      let '(deal, calls) := sample_deal startDate endDate i calls in
      deal ← deal;
      generate_from startDate endDate count (i + 1)%Z calls (deals ++ [deal])
  end.

(** [(a, b) => new Date(a.created_date).getTime()
               - new Date(b.created_date).getTime()]; the sort reads a
    [NaN] as 0. *)
Definition by_created_date (a b : Deal) : Q :=
  match JsDate.getTime (JsDate.of_string (created_date a)),
        JsDate.getTime (JsDate.of_string (created_date b)) with
  | Some x, Some y => inject_Z (x - y)
  | _, _ => 0%Q
  end.

Definition generateSampleDeals : outcome (list Deal) :=
  let startDate := JsDate.of_string "2023-01-01" in
  let endDate := JsDate.of_string "2025-01-10" in
  deals ← generate_from startDate endDate 2000 0 0 [];
  Returns (Array_sort by_created_date deals).
End Generate.
End WithHost.

(** What every generated deal is like: the deal number [i] of the loop,
    created at a time from the start to the end of the range (the end
    included: the sum of the start and the random part of the range is
    rounded when it is computed in binary floating point). *)
Definition sample_of (i : Z) (deal : Deal) : Prop :=
  deal_id deal = "deal_" +:+ of_Z i
  /\ deal_name deal = "Deal " +:+ of_Z i
  /\ (exists b, (0 <= b < 15)%Z /\ broker_name deal = "Broker " +:+ of_Z b)
  /\ In (status deal) ("6. Settled" :: statuses)
  /\ (exists v, (0 <= v < 1500000)%Z /\ deal_value deal = inject_Z v)
  /\ In (From_Rednote deal) ["Yes"; "No"]
  /\ In (From_LifeX deal) ["Yes"; "No"]
  /\ (From_Rednote deal = "Yes" -> From_LifeX deal = "No")
  /\ exists tv,
       (1672531200000 <= tv <= 1736467200000)%Z
       /\ created_date deal = JsDate.ISODate tv.
End LeadSourcesSampleData.

(** * Uploading a file of deals *)

Module DealsUpload.
Import JsString JsText.

(** ** What a file holds *)

(** A value made by [JSON.parse]. *)
#[warnings="-register-all"]
Inductive json : Type :=
| JNull
| JBool (b : bool)
| JNumber (n : Q)
| JString (s : string)
| JArray (l : list json)
| JObject (o : list (string * json)).

(** A cell of a row of a sheet read with [cellDates]: text, a number
    ([None] for [NaN]), a boolean, a [Date], [null] or [undefined]. *)
Inductive cell : Type :=
| Text (s : string)
| Num (n : option Q)
| Flag (b : bool)
| DateCell (d : JsDate.t)
| Null
| Undefined.

(** A row of [sheet_to_json] with [header: 1]: an array that may have
    holes ([None]). *)
Definition row : Type := list (option cell).

(** An element of the page's [deals]: the handler stores what it read. *)
Inductive record : Type :=
| Parsed (v : json)
| Imported (o : JsObject.t cell).

Record File : Type := {
  name : string;
  content : string
}.

(** ** What is thrown *)

(** The exceptions of the host that the handler's code can raise; each is
    an [Error] with a message of the host. *)
Inductive HostThrow : Set :=
| ReadOfNull
| ReadOfUndefined
| NotAFunction
| InvalidTime
| QuotaExceeded.

(** What reaches [catch]: an [Error] of the code or of a library with its
    message, an exception of the host, or a value that is not an
    [Error]. *)
Inductive thrown : Type :=
| Error (message : string)
| ByHost (e : HostThrow)
| NotAnError.

Inductive attempt (A : Type) : Type :=
| Done (a : A)
| Fails (e : thrown).
Arguments Done {A} a.
Arguments Fails {A} e.

#[global] Instance attempt_ret : MRet attempt := @Done.

#[global] Instance attempt_bind : MBind attempt := fun A B k c =>
  match c with
  | Done a => k a
  | Fails e => Fails e
  end.

(** [l.forEach(key => ...)] with a callback that updates [s] and may
    throw. *)
Fixpoint forEach {A S} (f : S -> A -> attempt S) (l : list A) (s : S)
  : attempt S :=
  match l with
  | [] => Done s
  | x :: l' => s' ← f s x; forEach f l' s'
  end.

(** ** The extension of the file name *)

(** [c.toLowerCase()] on a code unit below 256. *)
Definition lower (c : ascii) : ascii :=
  let n := N_of_ascii c in
  if ((65 <=? n) && (n <=? 90)
      || (192 <=? n) && (n <=? 222) && negb (n =? 215))%N
  then ascii_of_N (n + 32) else c.

Fixpoint toLowerCase (s : string) : string :=
  match s with
  | EmptyString => EmptyString
  | String c s' => String (lower c) (toLowerCase s')
  end.

(** [s.split(sep).pop()], after the part [current] of the last piece read
    so far: the part of [s] after its last [sep]. *)
Fixpoint split_pop (sep : ascii) (s current : string) : string :=
  match s with
  | EmptyString => current
  | String c s' =>
      if Ascii.eqb c sep then split_pop sep s' EmptyString
      else split_pop sep s' (current +:+ String c EmptyString)
  end.

(** [file.name.split('.').pop()?.toLowerCase()] *)
Definition fileExtension (file : File) : string :=
  toLowerCase (split_pop "." (name file) EmptyString).

(** ** The amount written in a cell *)

Definition is_amount_char (c : ascii) : bool :=
  is_digit c || Ascii.eqb c "." || Ascii.eqb c "-".

(** [s.replace(/[^0-9.-]+/g, "")] *)
Fixpoint keep_amount (s : string) : string :=
  match s with
  | EmptyString => EmptyString
  | String c s' =>
      if is_amount_char c then String c (keep_amount s') else keep_amount s'
  end.

Fixpoint all_digits (s : string) : bool :=
  match s with
  | EmptyString => true
  | String c s' => is_digit c && all_digits s'
  end.

(** The part before the first [.] and the part after it, if there is
    one. *)
Fixpoint split_at_point (s : string) : string * option string :=
  match s with
  | EmptyString => (EmptyString, None)
  | String c s' =>
      if Ascii.eqb c "." then (EmptyString, Some s')
      else let '(whole, fraction) := split_at_point s' in
           (String c whole, fraction)
  end.

(** The value of a string of decimal digits. *)
Definition digits_value (s : string) : Z :=
  default 0 (radix_prefix 10 s None).

(** StrUnsignedDecimalLiteral on a string of digits, [.] and [-]: digits
    with an optional fraction, or a fraction alone. *)
Definition unsigned_decimal (s : string) : option Q :=
  let '(whole, fraction) := split_at_point s in
  if all_digits whole then
    match fraction with
    | None =>
        if truthy whole then Some (inject_Z (digits_value whole)) else None
    | Some f =>
        if all_digits f && (truthy whole || truthy f)
        then Some (inject_Z (digits_value whole)
                   + inject_Z (digits_value f)
                     / inject_Z (10 ^ Z.of_nat (String.length f)))%Q
        else None
    end
  else None.

(** [Number(s)] for a string [s] of digits, [.] and [-]; [None] for
    [NaN]. The number is exact here; the code has the nearest binary
    floating point number, which is the same for an integer of magnitude
    at most 2^53. *)
Definition Number_of_amount (s : string) : option Q :=
  match s with
  | EmptyString => Some 0%Q
  | String "-" s' => option_map Qopp (unsigned_decimal s')
  | _ => unsigned_decimal s
  end.

(** ** The deals of a JSON file *)

(** The array the handler takes from the parsed value: the value itself,
    or its property [deals]. *)
Definition dealsArray_of_json (jsonData : json) : attempt (list json) :=
  match jsonData with
  | JArray l => Done l
  | JNull => Fails (ByHost ReadOfNull)
  | JObject o =>
      match JsObject.own o "deals" with
      | Some (JArray l) => Done l
      | _ => Fails (Error "Invalid JSON structure.")
      end
  | _ => Fails (Error "Invalid JSON structure.")
  end.

(** ** The deals of a sheet *)

Section Sheet.
(** Number::toString and [Date.prototype.toString], which [String(v)]
    calls on a number and on a valid [Date]. *)
Variable Number_toString : Q -> string.
Variable Date_toString : Z -> string.

Definition ToBoolean (c : cell) : bool :=
  match c with
  | Text s => truthy s
  | Num (Some q) => negb (Qeq_bool q 0)
  | Num None => false
  | Flag b => b
  | DateCell _ => true
  | Null | Undefined => false
  end.

(** [String(c)] *)
Definition ToString (c : cell) : string :=
  match c with
  | Text s => s
  | Num (Some q) => Number_toString q
  | Num None => "NaN"
  | Flag true => "true"
  | Flag false => "false"
  | DateCell (Some tv) => Date_toString tv
  | DateCell None => "Invalid Date"
  | Null => "null"
  | Undefined => "undefined"
  end.

(** [h.trim()] on a header cell; [map] leaves a hole as it is. *)
Definition trim_header (h : option cell) : attempt (option string) :=
  match h with
  | None => Done None
  | Some (Text s) => Done (Some (trim s))
  | Some Null => Fails (ByHost ReadOfNull)
  | Some Undefined => Fails (ByHost ReadOfUndefined)
  | Some _ => Fails (ByHost NotAFunction)
  end.

(** [row[colIndex] ?? null] *)
Definition cell_or_null (r : row) (colIndex : nat) : cell :=
  match r !! colIndex with
  | Some (Some Undefined) | Some None | None => Null
  | Some (Some c) => c
  end.

(** [headers.forEach((header, colIndex) => { deal[header] = ... })], from
    column [colIndex] on; [forEach] skips a hole. Under a header
    [__proto__] the assignment creates no property; that it makes a
    [Date] cell or [null] the prototype of the deal is not recorded. *)
Fixpoint assign_columns (headers : list (option string)) (colIndex : nat)
    (r : row) (deal : JsObject.t cell) : JsObject.t cell :=
  match headers with
  | [] => deal
  | header :: headers' =>
      assign_columns headers' (S colIndex) r
        match header with
        | Some h => JsObject.set deal h (cell_or_null r colIndex)
        | None => deal
        end
  end.

(** [String(deal[field] || fallback)]; none of the four fields it is
    used for is a property of [Object.prototype]. *)
Definition text_or (deal : JsObject.t cell) (field fallback : string)
  : string :=
  match JsObject.own deal field with
  | Some c => if ToBoolean c then ToString c else fallback
  | None => fallback
  end.

(** The amount of the deal: text is read as a number, what is neither
    text nor a number becomes 0. *)
Definition amount (deal : JsObject.t cell) : JsObject.t cell :=
  match JsObject.own deal "deal_value" with
  | Some (Text s) =>
      JsObject.set deal "deal_value"
        (Num (Some (default 0%Q (Number_of_amount (keep_amount s)))))
  | Some (Num _) => deal
  | _ => JsObject.set deal "deal_value" (Num (Some 0%Q))
  end.

(** One step of the loop over [Object.keys(deal)]: a [Date] becomes its
    ISO string. *)
Definition date_to_iso (deal : JsObject.t cell) (key : string)
  : attempt (JsObject.t cell) :=
  match JsObject.own deal key with
  | Some (DateCell d) =>
      match JsDate.toISOString d with
      | Returns s => Done (JsObject.set deal key (Text s))
      | Throws _ => Fails (ByHost InvalidTime)
      end
  | _ => Done deal
  end.

Definition dates_to_iso (deal : JsObject.t cell)
  : attempt (JsObject.t cell) :=
  forEach date_to_iso (map fst (JsObject.entries deal)) deal.

(** The callback of [map]: the deal of the row at position [index] of the
    data rows. *)
Definition import_row (headers : list (option string)) (index : nat)
    (r : row) : attempt (JsObject.t cell) :=
  let deal := assign_columns headers 0 r [] in
  let number := of_Z (Z.of_nat index + 1) in
  let deal :=
    JsObject.set deal "deal_id"
                 (Text (text_or deal "deal_id" ("excel_" +:+ number))) in
  let deal :=
    JsObject.set deal "deal_name"
                 (Text (text_or deal "deal_name" ("Deal " +:+ number))) in
  let deal :=
    JsObject.set deal "broker_name"
                 (Text (text_or deal "broker_name" "Unknown Broker")) in
  let deal :=
    JsObject.set deal "status" (Text (text_or deal "status" "Unknown")) in
  dates_to_iso (amount deal).

Fixpoint import_rows (headers : list (option string)) (index : nat)
    (rows : list row) : attempt (list (JsObject.t cell)) :=
  match rows with
  | [] => Done []
  | r :: rows' =>
      deal ← import_row headers index r;
      deals ← import_rows headers (S index) rows';
      Done (deal :: deals)
  end.

(** The callback of [filter]; [deal_name] is the string assigned by
    [import_row]. *)
Definition named (deal : JsObject.t cell) : bool :=
  match JsObject.own deal "deal_name" with
  | Some (Text s) => filled (Some s)
  | _ => false
  end.

(** The deals of the rows of the first sheet; the first row holds the
    headers. *)
Definition dealsArray_of_sheet (jsonData : list row)
  : attempt (list (JsObject.t cell)) :=
  match jsonData with
  | [] => Fails (ByHost ReadOfUndefined)
  | first :: rows =>
      headers ← mapM trim_header first;
      deals ← import_rows headers 0 rows;
      Done (List.filter named deals)
  end.
End Sheet.

(** ** The handler *)

(** The state the handler works on: the state of the page, the storage
    area the page uses and the value of the file input. *)
Record Page : Type := {
  deals : list record;
  isLoading : bool;
  error : option string;
  storage : gmap string string;
  input_value : string
}.

Definition setDeals (v : list record) (st : Page) : Page :=
  {| deals := v; isLoading := isLoading st; error := error st;
     storage := storage st; input_value := input_value st |}.

Definition setIsLoading (v : bool) (st : Page) : Page :=
  {| deals := deals st; isLoading := v; error := error st;
     storage := storage st; input_value := input_value st |}.

Definition setError (v : option string) (st : Page) : Page :=
  {| deals := deals st; isLoading := isLoading st; error := v;
     storage := storage st; input_value := input_value st |}.

Definition setStorage (v : gmap string string) (st : Page) : Page :=
  {| deals := deals st; isLoading := isLoading st; error := error st;
     storage := v; input_value := input_value st |}.

Definition setInputValue (v : string) (st : Page) : Page :=
  {| deals := deals st; isLoading := isLoading st; error := error st;
     storage := storage st; input_value := v |}.

Definition unsupported : string :=
  "Unsupported file format. Please upload a JSON or Excel (.xlsx/.xls) file.".

Section Handler.
Variable Number_toString : Q -> string.
Variable Date_toString : Z -> string.
(** The key of the stored deals: [dashboard-deals-data] in session
    storage for the page with filters, [dashboard-deals] in local storage
    for the earlier page. *)
Variable storage_key : string.
(** [JSON.parse(await file.text())]: the value, or what is thrown. *)
Variable read_json : File -> attempt json.
(** The rows of the first sheet of the workbook that [XLSX.read] makes of
    the file, or what is thrown. *)
Variable read_sheet : File -> attempt (list row).
(** [JSON.stringify] of deals made of strings, numbers, booleans and
    [null]. *)
Variable JSON_stringify : list record -> string.
(** Whether [setItem] throws for want of space. *)
Variable quota_exceeded : gmap string string -> string -> string -> bool.
(** The message of an exception of the host. *)
Variable host_message : HostThrow -> string.

Definition message_of (e : thrown) : string :=
  match e with
  | Error message => message
  | ByHost e => host_message e
  | NotAnError => "Failed to parse file"
  end.

(** [setDeals(dealsArray); setError(null); setItem(...)]: the state
    reached and what was thrown, if anything. *)
Definition keep_deals (dealsArray : list record) (st : Page)
  : Page * option thrown :=
  let st := setError None (setDeals dealsArray st) in
  let text := JSON_stringify dealsArray in
  if quota_exceeded (storage st) storage_key text
  then (st, Some (ByHost QuotaExceeded))
  else (setStorage (<[storage_key := text]> (storage st)) st, None).

(** The body of [try]. *)
Definition read_file (file : File) (st : Page) : Page * option thrown :=
  let fileExtension := fileExtension file in
  if String.eqb fileExtension "json" then
    match jsonData ← read_json file; dealsArray_of_json jsonData with
    | Done dealsArray => keep_deals (map Parsed dealsArray) st
    | Fails e => (st, Some e)
    end
  else if String.eqb fileExtension "xlsx" || String.eqb fileExtension "xls"
  then
    match jsonData ← read_sheet file;
          dealsArray_of_sheet Number_toString Date_toString jsonData with
    | Done dealsArray => keep_deals (map Imported dealsArray) st
    | Fails e => (st, Some e)
    end
  else (st, Some (Error unsupported)).

(** For the proofs: the deals the body of [try] arrives at, before they
    are kept, and the page once they are kept. *)
Definition read_deals (file : File) : attempt (list record) :=
  if String.eqb (fileExtension file) "json" then
    jsonData ← read_json file;
    dealsArray ← dealsArray_of_json jsonData;
    Done (map Parsed dealsArray)
  else if String.eqb (fileExtension file) "xlsx"
          || String.eqb (fileExtension file) "xls" then
    jsonData ← read_sheet file;
    dealsArray ← dealsArray_of_sheet Number_toString Date_toString jsonData;
    Done (map Imported dealsArray)
  else Fails (Error unsupported).

Definition kept (dealsArray : list record) (st : Page) : Page :=
  setStorage (<[storage_key := JSON_stringify dealsArray]> (storage st))
             (setError None (setDeals dealsArray st)).

(** The handler of the file input, on the first of the chosen files. *)
Definition handleFileUpload (file : option File) (st : Page) : Page :=
  match file with
  | None => st
  | Some file =>
      let st := setError None (setIsLoading true st) in
      let '(st, caught) := read_file file st in
      let st :=
        match caught with
        | Some err =>
            setStorage (delete storage_key (storage st))
              (setDeals [] (setError (Some (message_of err)) st))
        | None => st
        end in
      setInputValue "" (setIsLoading false st)
  end.
End Handler.

(** What is said of an imported deal: its four text fields are strings,
    its name is not blank, its amount is a number and none of its
    properties is a [Date]. *)
Definition normalised (deal : JsObject.t cell) : Prop :=
  (exists id, JsObject.own deal "deal_id" = Some (Text id))
  /\ (exists name, JsObject.own deal "deal_name" = Some (Text name)
                   /\ filled (Some name) = true)
  /\ (exists broker, JsObject.own deal "broker_name" = Some (Text broker))
  /\ (exists status, JsObject.own deal "status" = Some (Text status))
  /\ (exists value, JsObject.own deal "deal_value" = Some (Num value))
  /\ (forall key d, JsObject.own deal key <> Some (DateCell d)).

(** What the loop over the keys makes of a property: a valid [Date]
    becomes its ISO string. *)
Definition iso_cell (c : option cell) : option cell :=
  match c with
  | Some (DateCell (Some tv)) => Some (Text (JsDate.ISOString tv))
  | _ => c
  end.

(** A property that is not an invalid [Date]. *)
Definition no_invalid_date (e : string * cell) : Prop :=
  snd e <> DateCell None.

(** No cell of the row is an invalid [Date]. *)
Definition valid_dates (r : row) : Prop :=
  ~ In (Some (DateCell None)) r.

(** A header row the handler can trim: text and holes. *)
Definition header_cell (h : option cell) : Prop :=
  match h with
  | None | Some (Text _) => True
  | Some _ => False
  end.

End DealsUpload.

(** ** A worked upload *)

Module UploadExample.
Import DealsUpload.

(** A sheet with a header row and three rows of cells, the last one
    without a name. *)
Definition header_row : row :=
  [Some (Text " deal_name "); Some (Text "deal_value");
   Some (Text "created_time")].

Definition data_rows : list row :=
  [ [Some (Text "Loan A"); Some (Text "$1,250");
     Some (DateCell (Some 1736380800000))];
    [Some (Text "Loan B"); None; Some (Num (Some 7%Q))];
    [Some (Text "  "); Some (Num (Some 3%Q))] ].

Definition rows : list row := header_row :: data_rows.

Definition sheet : File := {| name := "Deals.2025.XLSX"; content := "" |}.
Definition table : File := {| name := "deals.json.csv"; content := "" |}.
Definition parsed : File := {| name := "deals.JSON"; content := "" |}.

Definition page : Page :=
  {| deals := []; isLoading := false; error := None; storage := ∅;
     input_value := "Deals.2025.XLSX" |}.

Definition text_of_number (q : Q) : string := JsString.of_Z (Qfloor q).
Definition text_of_date (tv : Z) : string := JsDate.ISOString tv.

(** The handler of the page with filters, in a host where the file with
    the name of [parsed] holds an object with two deals, every other file
    holds the sheet [rows], and storage has room. *)
Definition upload : option File -> Page -> Page :=
  handleFileUpload text_of_number text_of_date "dashboard-deals-data"
    (fun _ => Done (JObject [("deals", JArray [JNumber 1; JNull])]))
    (fun _ => Done rows)
    (fun _ => "[]")
    (fun _ _ _ => false)
    (fun _ => "host").
End UploadExample.

(** * The stated properties *)

Module Stated.
Import BrokerPerformanceAnalysis.

(** [settledDeals <= convertedDeals <= totalDeals] *)
Definition counts_ordered (p : BrokerPerformance) : Prop :=
  settledDeals p <= convertedDeals p <= totalDeals p.

Definition percentage (q : Q) : Prop := (0 <= q /\ q <= 100)%Q.

Definition rates_in_range (p : BrokerPerformance) : Prop :=
  percentage (settledRate p) /\ percentage (conversionRate p).

(** The deals of a broker, in the order of the list. *)
Definition group_of (name : string) (deals : list Deal) : list Deal :=
  List.filter (fun deal => String.eqb (broker_name deal) name) deals.

(** What the reducer holds for a group of deals. *)
Definition stats_of (group : list Deal) : Stats.t :=
  {| Stats.deals := group;
     Stats.settled := Z.of_nat (length (List.filter isSettled group));
     Stats.settledValue :=
       fold_left (fun value deal =>
                    (value + JsNumber.or_zero (deal_value deal))%Q)
                 (List.filter isSettled group) 0%Q;
     Stats.converted := Z.of_nat (length (List.filter isConverted group)) |}.

(** The entry counts the deals of its broker. *)
Definition counts_group (deals : list Deal) (p : BrokerPerformance) : Prop :=
  let group := group_of (brokerName p) deals in
  group <> []
  /\ totalDeals p = Z.of_nat (length group)
  /\ settledDeals p = Z.of_nat (length (List.filter isSettled group))
  /\ convertedDeals p = Z.of_nat (length (List.filter isConverted group)).

(** The number the list is ordered by in each analysis mode. *)
Definition sort_key (mode : Mode) (p : BrokerPerformance) : Q :=
  match mode with
  | settled => settledValue p
  | conversion => conversionRate p
  end.

(** Every element is at least as large as all the later ones. *)
Definition descending_by {A} (key : A -> Q) (l : list A) : Prop :=
  StronglySorted (fun a b => (key b <= key a)%Q) l.

(** The elements with key [v], in their order in [l]. *)
Definition ties {A} (key : A -> Q) (v : Q) (l : list A) : list A :=
  List.filter (fun a => Qeq_bool (key a) v) l.

(** [deal.latest_date] is neither null nor empty. *)
Definition has_latest_date (deal : Deal) : bool :=
  match latest_date deal with
  | Some s => JsString.truthy s
  | None => false
  end.

(** The count recorded for the day of the time value [tv], 0 when the
    dictionary has no property of that date. *)
Definition count_on (dateValueMap : JsObject.t Z) (tv : Z) : Z :=
  match JsObject.own dateValueMap (JsDate.ISODate tv) with
  | Some v => v
  | None => 0
  end.

(** The counts of the [days + 1] calendar days that end with the day of
    [tv], added from the earliest day on. *)
Fixpoint window_total (dateValueMap : JsObject.t Z) (tv : Z) (days : nat) : Z :=
  match days with
  | O => count_on dateValueMap tv
  | S n =>
      count_on dateValueMap (tv - Z.of_nat days * JsDate.msPerDay)
      + window_total dateValueMap tv n
  end.

(** The date string [date] reads as a time in the inclusive window of the
    30 days that end at [tv]. *)
Definition in_window `{Host} (tv : Z) (date : string) : bool :=
  match JsDate.of_string date with
  | Some u => (tv - 30 * JsDate.msPerDay <=? u) && (u <=? tv)
  | None => false
  end.

(** The counts of the properties whose date is in the window of [tv]. *)
Definition window_count `{Host} (dateValueMap : JsObject.t Z) (tv : Z) : Z :=
  fold_right (fun e acc => (if in_window tv (fst e) then snd e else 0) + acc)
             0 dateValueMap.

(** The deal is bucketed on [date]: its bucketing date is [date], and is
    not blank. *)
Definition bucket_is (date : string) (deal : LeadSourcesAnalysis.Deal) : bool :=
  match LeadSourcesAnalysis.bucket_date deal with
  | Some d => JsString.filled (Some d) && String.eqb d date
  | None => false
  end.

(** The distinct deal ids of the selected deals bucketed on [date]. *)
Definition distinct_ids (select : LeadSourcesAnalysis.Deal -> bool)
    (deals : list LeadSourcesAnalysis.Deal) (date : string) : gset string :=
  list_to_set
    (map LeadSourcesAnalysis.deal_id
         (List.filter (fun deal => select deal && bucket_is date deal) deals)).

(** The count a dictionary holds for [date], 0 without such a property. *)
Definition count_at (dateValueMap : JsObject.t Z) (date : string) : Z :=
  default 0 (JsObject.own dateValueMap date).

(** The selected rows of the sample page created on [date]. *)
Definition rows_on (select : LeadSourcesSample.Deal -> bool)
    (deals : list LeadSourcesSample.Deal) (date : string)
  : list LeadSourcesSample.Deal :=
  List.filter
    (fun deal => select deal
                 && String.eqb (LeadSourcesSample.created_date deal) date)
    deals.

(** The sum and the arithmetic mean of a list of numbers. *)
Definition total (l : list Q) : Q := fold_right Qplus 0%Q l.


(** A row of the weekly data: its rate is the rate of the analysis mode
    and it is flagged by its total against the threshold. *)
Definition week_row_ok (mode : Mode) (threshold : Z) (w : WeekRow.t) : Prop :=
  WeekRow.rate w = match mode with
                   | settled => WeekRow.settledRate w
                   | conversion => WeekRow.conversionRate w
                   end
  /\ WeekRow.isAboveThreshold w = (WeekRow.totalDeals w >=? threshold).


(** The rows behind the chart of a broker: none when no broker is selected
    or the broker has no deals, else one per weekly group, in the order of
    [Object.entries]. *)
Definition weekly_rows `{Host} (filteredDeals : list Deal)
    (selectedBroker : string) (mode : Mode) (threshold : Z)
    (weeks : list WeekRow.t) : Prop :=
  let brokerDeals :=
    List.filter (fun deal => String.eqb (broker_name deal) selectedBroker)
                filteredDeals in
  (weeks = [] /\ (selectedBroker = "all" \/ brokerDeals = []))
  \/ exists groups,
       weeklyGroups brokerDeals = Returns groups
       /\ weeks = map (week_row mode threshold) (JsObject.entries groups).

(** The deal has a date, and [key] is the key of the week of that date. *)
Definition deal_keyed `{Host} (key : string) (deal : Deal) : Prop :=
  exists s,
    latest_date deal = Some s
    /\ week_key (week_start (JsDate.of_string s)) = Returns key.

(** A weekly group under its key: its deals are the deals of that week, in
    the order of the list, and its counters count them. *)
Definition week_group_ok `{Host} (entry : string * Week.t) : Prop :=
  let '(key, w) := entry in
  week_key (Week.weekStart w) = Returns key
  /\ Forall (deal_keyed key) (Week.deals w)
  /\ Week.totalDeals w = Z.of_nat (length (Week.deals w))
  /\ 0 <= Week.settledDeals w <= Week.convertedDeals w
  /\ Week.convertedDeals w <= Week.totalDeals w.

End Stated.

(** * Stated properties of the weekly chart *)

Module StatedWeekly.
Import BrokerPerformanceAnalysis JsString.

(** The deal has a date, and the date reads as a time. *)
Definition week_dated `{Host} (deal : Deal) : bool :=
  match latest_date deal with
  | Some s =>
      truthy s && match JsDate.of_string s with Some _ => true | None => false end
  | None => false
  end.

(** The deal is dated in the first seven days of the range of time
    values. *)
Definition first_week_dated `{Host} (deal : Deal) : Prop :=
  exists s tv,
    latest_date deal = Some s /\ JsDate.of_string s = Some tv
    /\ tv < JsDate.minTime + 7 * JsDate.msPerDay.
End StatedWeekly.

(** * Stated properties of the lead sources chart *)

Module StatedLeadSources.
Import LeadSourcesAnalysis JsString.

(** The deal is bucketed on a date whose text is the name of a property
    that every object inherits. *)
Definition bucketed_on_inherited_name (deal : Deal) : bool :=
  match bucket_date deal with
  | Some date => filled (Some date) && JsObject.inherited date
  | None => false
  end.

(** The deal is counted in one of the two series of the chart. *)
Definition charted (deal : Deal) : bool :=
  is_settled deal || is_rednote deal.
End StatedLeadSources.

(** * Sample data *)

Module Samples.
Import BrokerPerformanceAnalysis.

Definition deal (id broker : string) (value : Q)
    (application settled_on latest : option string) : Deal :=
  {| deal_id := id; deal_name := "Deal " +:+ id; broker_name := broker;
     deal_value := value;
     f1_Application := application; f2_Assessment := None;
     f3_Approval := None; f4_Loan_Document := None;
     f5_Settlement_Queue := None; f6_Settled := settled_on;
     Settlement_2025 := None; Settlement_2024 := None;
     latest_date := latest |}.

(** One broker with a settled deal and an application, a second broker
    with an enquiry without a date. *)
Definition three_deals : list Deal :=
  [ deal "1" "A" 100 None (Some "2024-01-01") (Some "2024-01-07");
    deal "2" "A" 0 (Some "x") None (Some "2023-06-30");
    deal "3" "B" 50 None None None ].

(** Two rows of one settled deal dated the same day, as after a repeated
    upload. *)
Definition uploaded_twice : list LeadSourcesAnalysis.Deal :=
  let row :=
    {| LeadSourcesAnalysis.deal_id := "deal_1";
       LeadSourcesAnalysis.deal_name := "Deal 1";
       LeadSourcesAnalysis.broker_name := "Broker 1";
       LeadSourcesAnalysis.status := "6. Settled";
       LeadSourcesAnalysis.deal_value := 1;
       LeadSourcesAnalysis.From_Rednote := "Yes";
       LeadSourcesAnalysis.From_LifeX := "No";
       LeadSourcesAnalysis.created_date := None;
       LeadSourcesAnalysis.latest_date := Some "2024-01-05" |} in
  [row; row].

(** Two deals of the sample page with ids of their own: a settled deal
    created on the first day of the data and a settled Rednote deal created
    two days later. *)
Definition first_days : list LeadSourcesSample.Deal :=
  [ {| LeadSourcesSample.deal_id := "deal_0";
       LeadSourcesSample.deal_name := "Deal 0";
       LeadSourcesSample.broker_name := "Broker 1";
       LeadSourcesSample.status := "6. Settled";
       LeadSourcesSample.deal_value := 1;
       LeadSourcesSample.From_Rednote := "No";
       LeadSourcesSample.From_LifeX := "No";
       LeadSourcesSample.created_date := "2023-01-01" |};
    {| LeadSourcesSample.deal_id := "deal_1";
       LeadSourcesSample.deal_name := "Deal 1";
       LeadSourcesSample.broker_name := "Broker 2";
       LeadSourcesSample.status := "6. Settled";
       LeadSourcesSample.deal_value := 1;
       LeadSourcesSample.From_Rednote := "Yes";
       LeadSourcesSample.From_LifeX := "No";
       LeadSourcesSample.created_date := "2023-01-03" |} ].

(** Two deals of broker A, dated Sunday 2024-01-07 and Monday
    2024-01-08. *)
Definition sunday_and_monday : list Deal :=
  [ deal "1" "A" 1 None None (Some "2024-01-07");
    deal "2" "A" 1 None None (Some "2024-01-08") ].


(** The weekly chart of broker A for [three_deals], in a UTC host. *)
Definition weekly_chart_of_A : outcome (list Category.t) :=
  Eval vm_compute in
    chartData (H := JsDate.iso_host 0) three_deals "A" settled 20.

End Samples.

(** * Properties *)

(** ** Completions and reducers *)

Lemma bind_Returns {A B} (c : outcome A) (k : A -> outcome B) (b : B) :
  c ≫= k = Returns b -> exists a, c = Returns a /\ k a = Returns b.
Proof.
  destruct c as [a|e]; cbn; intros Hk; [eauto | discriminate].
Qed.

(** A property of the accumulator kept by every step holds of the result. *)
Lemma reduce_invariant {A B} (P : B -> Prop) (f : B -> A -> outcome B) :
  (forall acc x acc', P acc -> f acc x = Returns acc' -> P acc') ->
  forall l acc r, P acc -> reduce f l acc = Returns r -> P r.
Proof.
  intros Hstep l; induction l as [|x l IH]; intros acc r Hacc Hr; cbn in Hr.
  - now inversion Hr; subst.
  - apply bind_Returns in Hr as (acc' & Hf & Hr). eauto.
Qed.

(** A reducer whose steps return on the elements of the list returns. *)
Lemma reduce_returns {A B} (P : B -> Prop) (R : A -> Prop)
    (f : B -> A -> outcome B) :
  (forall acc x, P acc -> R x -> exists acc', f acc x = Returns acc' /\ P acc') ->
  forall l acc, P acc -> Forall R l -> exists r, reduce f l acc = Returns r.
Proof.
  intros Hstep l; induction l as [|x l IH]; intros acc Hacc Hl; cbn.
  - eauto.
  - inversion Hl as [|? ? Hx Hl']; subst.
    destruct (Hstep acc x Hacc Hx) as (acc' & -> & Hacc'). cbn. eauto.
Qed.

(** A property of the accumulator and of the elements consumed so far. *)
Lemma reduce_prefix_invariant {A B} (P : list A -> B -> Prop)
    (f : B -> A -> outcome B) :
  (forall pre acc x acc',
      P pre acc -> f acc x = Returns acc' -> P (pre ++ [x]) acc') ->
  forall l pre acc r,
    P pre acc -> reduce f l acc = Returns r -> P (pre ++ l) r.
Proof.
  intros Hstep l; induction l as [|x l IH]; intros pre acc r Hacc Hr; cbn in Hr.
  - inversion Hr; subst. now rewrite app_nil_r.
  - apply bind_Returns in Hr as (acc' & Hf & Hr).
    replace (pre ++ x :: l) with ((pre ++ [x]) ++ l)
      by (now rewrite <- app_assoc).
    eauto.
Qed.

(** ** Sorting *)

Section SortFacts.
Context {A : Type}.

Lemma sort_insert_perm (cmp : A -> A -> Q) x l :
  Permutation (sort_insert cmp x l) (x :: l).
Proof.
  induction l as [|y l IH]; cbn; [reflexivity|].
  destruct (Qle_bool (cmp x y) 0); [reflexivity|].
  rewrite IH. apply perm_swap.
Qed.

Lemma Array_sort_perm (cmp : A -> A -> Q) l :
  Permutation (Array_sort cmp l) l.
Proof.
  induction l as [|x l IH]; cbn; [reflexivity|].
  rewrite sort_insert_perm. now constructor.
Qed.

(** Sorting with [(a, b) => key(b) - key(a)]. *)
Variable key : A -> Q.
Local Abbreviation cmp := (fun a b : A => (key b - key a)%Q).
Local Abbreviation ge_key := (fun a b : A => (key b <= key a)%Q).

Lemma sort_insert_descending x l :
  StronglySorted ge_key l -> StronglySorted ge_key (sort_insert cmp x l).
Proof.
  induction 1 as [|y l Hl IH Hy]; cbn.
  - repeat constructor.
  - destruct (Qle_bool (cmp x y) 0) eqn:E.
    + apply Qle_bool_iff in E.
      constructor; [now constructor|].
      constructor; [lra|].
      eapply List.Forall_impl; [|exact Hy].
      cbn; intros z Hz; lra.
    + assert (Hlt : ~ (key y - key x <= 0)%Q)
        by (rewrite <- Qle_bool_iff; congruence).
      constructor; [exact IH|].
      rewrite (sort_insert_perm cmp x l).
      constructor; [lra | exact Hy].
Qed.

Lemma Array_sort_descending l : StronglySorted ge_key (Array_sort cmp l).
Proof.
  induction l as [|x l IH]; cbn; [constructor|].
  now apply sort_insert_descending.
Qed.

(** Elements with equal keys keep their order. *)
Lemma sort_insert_stable v x l :
  List.filter (fun a => Qeq_bool (key a) v) (sort_insert cmp x l)
  = List.filter (fun a => Qeq_bool (key a) v) (x :: l).
Proof.
  induction l as [|y l IH]; [reflexivity|].
  cbn [sort_insert].
  destruct (Qle_bool (cmp x y) 0) eqn:E; [reflexivity|].
  assert (Hlt : ~ (key y - key x <= 0)%Q)
    by (rewrite <- Qle_bool_iff; congruence).
  cbn [List.filter] in *. rewrite IH.
  destruct (Qeq_bool (key y) v) eqn:Ey, (Qeq_bool (key x) v) eqn:Ex;
    try reflexivity.
  apply Qeq_bool_iff in Ey, Ex. lra.
Qed.

Lemma Array_sort_stable v l :
  List.filter (fun a => Qeq_bool (key a) v) (Array_sort cmp l)
  = List.filter (fun a => Qeq_bool (key a) v) l.
Proof.
  induction l as [|x l IH]; [reflexivity|].
  cbn [Array_sort fold_right]. rewrite sort_insert_stable.
  cbn [List.filter]. fold (Array_sort cmp l). now rewrite IH.
Qed.
End SortFacts.

(** ** Dictionaries *)

Section DictFacts.
Context {V : Type}.
Implicit Types (o : JsObject.t V) (k : string) (v : V).

Lemma own_In o k v : JsObject.own o k = Some v -> In (k, v) o.
Proof.
  induction o as [|[k' v'] o IH]; cbn; [discriminate|].
  destruct (String.eqb_spec k k') as [->|]; intros E.
  - inversion E; subst. now left.
  - right. auto.
Qed.

Lemma get_Own_In o k v : JsObject.get o k = JsObject.Own v -> In (k, v) o.
Proof.
  unfold JsObject.get. destruct (JsObject.own o k) eqn:E.
  - intros [= ->]. now apply own_In.
  - destruct (JsObject.inherited k); discriminate.
Qed.

Lemma replace_Forall (P : string * V -> Prop) o k v :
  Forall P o -> P (k, v) -> Forall P (JsObject.replace o k v).
Proof.
  intros Ho Hv. induction Ho as [|[k' v'] o Hx Ho IH]; cbn; [constructor|].
  destruct (String.eqb_spec k k') as [<-|]; constructor; auto.
Qed.

Lemma set_Forall (P : string * V -> Prop) o k v :
  Forall P o -> P (k, v) -> Forall P (JsObject.set o k v).
Proof.
  intros Ho Hv. unfold JsObject.set.
  destruct (JsObject.own o k); [now apply replace_Forall|].
  destruct (String.eqb k "__proto__"); [exact Ho|].
  apply Forall_app; split; [exact Ho | constructor; auto].
Qed.

Lemma entries_perm o : Permutation (JsObject.entries o) o.
Proof.
  unfold JsObject.entries. rewrite Array_sort_perm.
  symmetry. clear. induction o as [|e o IH]; cbn; [constructor|].
  destruct (JsObject.is_index e); cbn.
  - now constructor.
  - rewrite IH at 1. apply Permutation_middle.
Qed.

Lemma own_set_same o k v :
  JsObject.inherited k = false -> JsObject.own (JsObject.set o k v) k = Some v.
Proof.
  intros Hk. unfold JsObject.set.
  destruct (JsObject.own o k) eqn:E.
  - clear Hk. induction o as [|[k' v'] o IH]; cbn in *; [discriminate|].
    destruct (String.eqb_spec k k') as [->|Hne]; cbn.
    + now rewrite String.eqb_refl.
    + destruct (String.eqb_spec k k'); [contradiction | auto].
  - destruct (String.eqb_spec k "__proto__") as [->|_]; [discriminate|].
    induction o as [|[k' v'] o IH]; cbn in *.
    + now rewrite String.eqb_refl.
    + destruct (String.eqb k k'); [discriminate | auto].
Qed.

Lemma inherited_proto k : JsObject.inherited k = false -> k <> "__proto__".
Proof. intros Hk ->. discriminate. Qed.

Lemma own_None_keys o k : JsObject.own o k = None -> ~ In k (map fst o).
Proof.
  induction o as [|[k' v'] o IH]; cbn; [tauto|].
  destruct (String.eqb_spec k k') as [->|Hne]; [discriminate|].
  intros Ho [E|Hin]; [congruence | now apply IH].
Qed.

Lemma own_replace o k v k' :
  JsObject.own o k <> None ->
  JsObject.own (JsObject.replace o k v) k'
  = if String.eqb k' k then Some v else JsObject.own o k'.
Proof.
  induction o as [|[k0 v0] o IH]; cbn; [congruence|].
  destruct (String.eqb_spec k k0) as [->|Hne]; cbn.
  - intros _. destruct (String.eqb_spec k' k0); reflexivity.
  - intros Ho. rewrite (IH Ho).
    destruct (String.eqb_spec k' k0) as [->|]; [|reflexivity].
    destruct (String.eqb_spec k0 k); [congruence | reflexivity].
Qed.

Lemma own_app o o' k :
  JsObject.own (o ++ o') k
  = match JsObject.own o k with
    | Some v => Some v
    | None => JsObject.own o' k
    end.
Proof.
  induction o as [|[k0 v0] o IH]; cbn; [reflexivity|].
  destruct (String.eqb k k0); [reflexivity | exact IH].
Qed.

(** Reading a dictionary after an assignment. *)
Lemma own_set o k v k' :
  JsObject.own o k <> None \/ k <> "__proto__" ->
  JsObject.own (JsObject.set o k v) k'
  = if String.eqb k' k then Some v else JsObject.own o k'.
Proof.
  intros Hk. unfold JsObject.set.
  destruct (JsObject.own o k) eqn:E.
  - apply own_replace. congruence.
  - destruct Hk as [|Hk]; [congruence|].
    destruct (String.eqb_spec k "__proto__"); [contradiction|].
    rewrite own_app. cbn.
    destruct (String.eqb_spec k' k) as [->|]; [now rewrite E|].
    now destruct (JsObject.own o k').
Qed.

Lemma replace_keys o k v :
  map fst (JsObject.replace o k v) = map fst o.
Proof.
  induction o as [|[k0 v0] o IH]; cbn; [reflexivity|].
  destruct (String.eqb k k0); cbn; congruence.
Qed.

(** The names of a dictionary stay distinct. *)
Lemma set_NoDup o k v :
  NoDup (map fst o) -> NoDup (map fst (JsObject.set o k v)).
Proof.
  intros Ho. unfold JsObject.set.
  destruct (JsObject.own o k) eqn:E.
  - now rewrite replace_keys.
  - destruct (String.eqb k "__proto__"); [exact Ho|].
    rewrite map_app. cbn. apply NoDup_app. split; [exact Ho|]. split.
    + intros x Hx [<-|[]]%list_elem_of_In. apply list_elem_of_In in Hx.
      exact (own_None_keys _ _ E Hx).
    + repeat constructor. intros []%list_elem_of_In.
Qed.

Lemma own_Some_iff o k v :
  NoDup (map fst o) -> JsObject.own o k = Some v <-> In (k, v) o.
Proof.
  intros Ho. split; [apply own_In|].
  induction o as [|[k0 v0] o IH]; cbn; [tauto|].
  inversion Ho as [|? ? Hk0 Ho']; subst.
  destruct (String.eqb_spec k k0) as [->|Hne].
  - intros [[= ->]|Hin]; [reflexivity|].
    exfalso. apply Hk0. apply list_elem_of_In.
    apply (in_map fst) in Hin. exact Hin.
  - intros [[= -> ->]|Hin]; [congruence | auto].
Qed.

Lemma own_perm o o' k :
  NoDup (map fst o) -> Permutation o o' ->
  JsObject.own o k = JsObject.own o' k.
Proof.
  intros Ho Hp.
  assert (Ho' : NoDup (map fst o')) by (now rewrite <- Hp).
  destruct (JsObject.own o k) as [v|] eqn:E.
  - symmetry. apply own_Some_iff; [exact Ho'|].
    eapply Permutation_in; [exact Hp|]. now apply own_In.
  - destruct (JsObject.own o' k) as [v'|] eqn:E'; [|reflexivity].
    apply own_In in E'. apply (Permutation_in _ (Permutation_sym Hp)) in E'.
    apply own_Some_iff in E'; [congruence | exact Ho].
Qed.
End DictFacts.

(** ** The broker performance list *)

Section BrokerPerformanceFacts.
Import BrokerPerformanceAnalysis Stated.

(** The earlier page computes the list of the settled mode. *)
Lemma thresholds_page_list deals :
  BrokerPerformanceThresholds.brokerPerformance deals
  = brokerPerformance deals settled.
Proof. reflexivity. Qed.

Lemma isSettled_isConverted deal :
  isSettled deal = true -> isConverted deal = true.
Proof.
  unfold isSettled, isConverted. intros ->.
  now rewrite !orb_true_r.
Qed.

(** What the reducer maintains of every [acc[brokerName]]. *)
Local Abbreviation stats_ok := (fun st : Stats.t =>
  0 <= Stats.settled st <= Stats.converted st
  /\ Stats.converted st <= Z.of_nat (length (Stats.deals st))).

Lemma record_deal_ok deal st : stats_ok st -> stats_ok (record_deal deal st).
Proof.
  intros Hst. unfold record_deal.
  pose proof (isSettled_isConverted deal) as Hsc.
  destruct (isSettled deal), (isConverted deal); cbn in *;
    rewrite ?length_app; cbn; try lia.
Qed.

Lemma brokerStats_step_ok acc deal acc' :
  Forall (fun e => stats_ok (snd e)) acc ->
  brokerStats_step acc deal = Returns acc' ->
  Forall (fun e => stats_ok (snd e)) acc'.
Proof.
  intros Hacc. unfold brokerStats_step.
  assert (Hstep : forall acc1 : JsObject.t Stats.t,
             Forall (fun e => stats_ok (snd e)) acc1 ->
             match JsObject.get acc1 (broker_name deal) with
             | JsObject.Own stats =>
                 Returns (JsObject.set acc1 (broker_name deal)
                                       (record_deal deal stats))
             | _ => Throws TypeError
             end = Returns acc' ->
             Forall (fun e => stats_ok (snd e)) acc').
  { intros acc1 Hacc1.
    destruct (JsObject.get acc1 (broker_name deal)) as [st| |] eqn:E;
      try discriminate.
    intros [= <-]. apply set_Forall; [exact Hacc1|].
    cbn [snd]. apply record_deal_ok.
    apply get_Own_In in E.
    rewrite List.Forall_forall in Hacc1. exact (Hacc1 _ E). }
  destruct (JsObject.get acc (broker_name deal)) eqn:E0.
  - apply (Hstep acc Hacc).
  - rewrite E0. discriminate.
  - apply Hstep. apply set_Forall; [exact Hacc | cbn; lia].
Qed.

Lemma brokerStats_ok deals stats :
  brokerStats deals = Returns stats ->
  Forall (fun e => stats_ok (snd e)) stats.
Proof.
  apply (reduce_invariant (fun acc => Forall (fun e => stats_ok (snd e)) acc)).
  - intros acc x acc'. apply brokerStats_step_ok.
  - constructor.
Qed.

Lemma record_deal_stats_of deal group :
  record_deal deal (stats_of group) = stats_of (group ++ [deal]).
Proof.
  unfold record_deal, stats_of. cbn [Stats.deals Stats.settled
    Stats.settledValue Stats.converted].
  rewrite !List.filter_app. cbn [List.filter].
  destruct (isSettled deal), (isConverted deal);
    rewrite ?app_nil_r, ?length_app, ?fold_left_app;
    cbn [length fold_left Stats.deals Stats.settled Stats.settledValue
         Stats.converted];
    f_equal; first [reflexivity | lia].
Qed.

(** What the reducer has collected of the deals [pre]. *)
Local Abbreviation grouped := (fun (pre : list Deal) (acc : JsObject.t Stats.t) =>
  NoDup (map fst acc)
  /\ forall name,
       JsObject.own acc name
       = if existsb (fun deal => String.eqb (broker_name deal) name) pre
         then Some (stats_of (group_of name pre)) else None).

Lemma brokerStats_step_grouped pre acc deal acc' :
  grouped pre acc ->
  brokerStats_step acc deal = Returns acc' ->
  grouped (pre ++ [deal]) acc'.
Proof.
  intros (Hnd & Hown). unfold brokerStats_step. cbv zeta.
  assert (Hfinal : forall (acc1 : JsObject.t Stats.t),
             NoDup (map fst acc1) ->
             JsObject.own acc1 (broker_name deal)
             = Some (stats_of (group_of (broker_name deal) pre)) ->
             (forall name, name <> broker_name deal ->
                           JsObject.own acc1 name = JsObject.own acc name) ->
             grouped (pre ++ [deal])
                     (JsObject.set acc1 (broker_name deal)
                        (record_deal deal
                           (stats_of (group_of (broker_name deal) pre))))).
  { intros acc1 Hnd1 Hb Hother. split; [now apply set_NoDup|].
    intros name. rewrite own_set by (left; congruence).
    rewrite record_deal_stats_of. unfold group_of.
    rewrite existsb_app, List.filter_app. cbn [existsb List.filter].
    destruct (String.eqb_spec name (broker_name deal)) as [->|Hne].
    - rewrite String.eqb_refl, orb_true_r. reflexivity.
    - destruct (String.eqb_spec (broker_name deal) name); [congruence|].
      rewrite Hother, Hown by exact Hne.
      now rewrite orb_false_r, app_nil_r. }
  destruct (JsObject.get acc (broker_name deal)) as [st| |] eqn:Eg; cbv iota.
  - rewrite Eg. intros [= <-].
    unfold JsObject.get in Eg.
    destruct (JsObject.own acc (broker_name deal)) as [st'|] eqn:Eo;
      [|destruct (JsObject.inherited (broker_name deal)); discriminate].
    injection Eg as ->.
    assert (Est : st = stats_of (group_of (broker_name deal) pre)).
    { rewrite Hown in Eo. destruct (existsb _ pre); congruence. }
    subst st. apply Hfinal; auto.
  - rewrite Eg. discriminate.
  - unfold JsObject.get in Eg.
    destruct (JsObject.own acc (broker_name deal)) as [st'|] eqn:Eo;
      [discriminate|].
    destruct (JsObject.inherited (broker_name deal)) eqn:Ei; [discriminate|].
    unfold JsObject.get. rewrite own_set_same by exact Ei. intros [= <-].
    assert (Eg0 : group_of (broker_name deal) pre = []).
    { rewrite Hown in Eo. unfold group_of.
      destruct (existsb _ pre) eqn:Ee; [discriminate|].
      clear -Ee. induction pre as [|d pre IH]; cbn in *; [reflexivity|].
      destruct (String.eqb (broker_name d) (broker_name deal));
        [discriminate | auto]. }
    rewrite Eg0 in Hfinal. change (stats_of []) with new_stats in Hfinal.
    apply Hfinal.
    + now apply set_NoDup.
    + now apply own_set_same.
    + intros name Hne. rewrite own_set by (right; now apply inherited_proto).
      destruct (String.eqb_spec name (broker_name deal));
        [contradiction | reflexivity].
Qed.

(** The reducer holds, for every broker of the deals, the statistics of
    the deals of that broker, and nothing else. *)
Lemma brokerStats_grouped deals stats :
  brokerStats deals = Returns stats -> grouped deals stats.
Proof.
  intros Hr.
  apply (reduce_prefix_invariant (fun l acc => grouped l acc)
           brokerStats_step brokerStats_step_grouped deals [] [] stats);
    [|exact Hr].
  split; [constructor | reflexivity].
Qed.

Lemma existsb_group_of name deals :
  existsb (fun deal => String.eqb (broker_name deal) name) deals = true ->
  group_of name deals <> [].
Proof.
  unfold group_of. induction deals as [|d deals IH]; cbn; [discriminate|].
  destruct (String.eqb (broker_name d) name); cbn; [discriminate | exact IH].
Qed.

(** The list is the sorted image of the entries of the reducer's result. *)
Lemma brokerPerformance_inv deals mode perf :
  brokerPerformance deals mode = Returns perf ->
  exists stats,
    brokerStats deals = Returns stats
    /\ perf = Array_sort (by_mode mode)
                         (map performance_of (JsObject.entries stats)).
Proof.
  unfold brokerPerformance.
  destruct deals as [|d deals]; cbn [length Nat.eqb].
  - intros [= <-]. exists []. split; reflexivity.
  - intros Hb. apply bind_Returns in Hb as (stats & Hs & [= <-]). eauto.
Qed.

Lemma brokerPerformance_Forall (P : BrokerPerformance -> Prop) deals mode perf :
  (forall name st, stats_ok st -> P (performance_of (name, st))) ->
  brokerPerformance deals mode = Returns perf -> Forall P perf.
Proof.
  intros HP Hb. apply brokerPerformance_inv in Hb as (stats & Hs & ->).
  rewrite Array_sort_perm. apply brokerStats_ok in Hs.
  rewrite entries_perm. apply List.Forall_map.
  eapply List.Forall_impl; [|exact Hs].
  intros [name st]; cbn. apply HP.
Qed.

(** The reducer throws only on a broker whose name is a property of
    [Object.prototype]. *)
Lemma brokerStats_returns deals :
  Forall (fun deal => JsObject.inherited (broker_name deal) = false) deals ->
  exists stats, brokerStats deals = Returns stats.
Proof.
  apply (reduce_returns (fun _ => True)); [|exact I].
  intros acc deal _ Hname. unfold brokerStats_step.
  destruct (JsObject.get acc (broker_name deal)) as [st| |] eqn:E.
  - rewrite E. eauto.
  - unfold JsObject.get in E. rewrite Hname in E.
    destruct (JsObject.own acc (broker_name deal)); discriminate.
  - unfold JsObject.get at 1. rewrite own_set_same by exact Hname. eauto.
Qed.

Lemma brokerPerformance_returns deals mode :
  Forall (fun deal => JsObject.inherited (broker_name deal) = false) deals ->
  exists perf, brokerPerformance deals mode = Returns perf.
Proof.
  intros Hd. unfold brokerPerformance.
  destruct (length deals =? 0)%nat; [eauto|].
  destruct (brokerStats_returns deals Hd) as (stats & ->). cbn. eauto.
Qed.

Lemma ratio_percentage (a b : Z) :
  0 <= a <= b -> 0 < b ->
  percentage (inject_Z a / inject_Z b * 100)%Q.
Proof.
  intros Hab Hb.
  assert (Hb' : (0 < inject_Z b)%Q) by (rewrite Zlt_Qlt in Hb; exact Hb).
  assert (H0 : (0 <= inject_Z a / inject_Z b)%Q).
  { apply Qle_shift_div_l; [exact Hb'|]. rewrite Qmult_0_l.
    change 0%Q with (inject_Z 0). rewrite <- Zle_Qle. lia. }
  assert (H1 : (inject_Z a / inject_Z b <= 1)%Q).
  { apply Qle_shift_div_r; [exact Hb'|]. rewrite Qmult_1_l.
    rewrite <- Zle_Qle. lia. }
  unfold percentage. split; lra.
Qed.

(** Every entry of the list counts the deals of its broker. *)
Lemma brokerPerformance_counts_group deals mode perf :
  brokerPerformance deals mode = Returns perf ->
  Forall (counts_group deals) perf.
Proof.
  intros Hb. apply brokerPerformance_inv in Hb as (stats & Hs & ->).
  rewrite Array_sort_perm, entries_perm.
  apply brokerStats_grouped in Hs as (Hnd & Hown).
  apply List.Forall_map, List.Forall_forall. intros [name st] Hin.
  apply (own_Some_iff _ _ _ Hnd) in Hin. rewrite Hown in Hin.
  destruct (existsb _ deals) eqn:Ee; [|discriminate].
  injection Hin as <-.
  unfold counts_group, performance_of, stats_of; cbn.
  split; [now apply existsb_group_of | auto].
Qed.

Lemma performance_rates name st :
  stats_ok st -> rates_in_range (performance_of (name, st)).
Proof.
  intros Hst. cbv beta in Hst. unfold rates_in_range, performance_of; cbn.
  destruct (Z.gtb_spec (Z.of_nat (length (Stats.deals st))) 0).
  - split; apply ratio_percentage; lia.
  - unfold percentage. split; lra.
Qed.
End BrokerPerformanceFacts.

(** ** The claims on the broker performance list *)

Section BrokerPerformanceClaims.
Import BrokerPerformanceAnalysis Stated.

(** C1. In every entry of the broker performance list, of either page,
    [settledDeals <= convertedDeals <= totalDeals]: the three numbers count
    the deals of the broker, its converted deals and its settled deals, and
    a deal counted as settled is also counted as converted. *)
Theorem counts_ordered_in_every_entry deals mode perf :
  brokerPerformance deals mode = Returns perf ->
  Forall counts_ordered perf
  /\ Forall (counts_group deals) perf
  /\ (forall deal, isSettled deal = true -> isConverted deal = true)
  /\ BrokerPerformanceThresholds.brokerPerformance deals
     = brokerPerformance deals settled.
Proof.
  intros Hb. split; [|split; [|split]].
  - eapply brokerPerformance_Forall; [|exact Hb].
    intros name st Hst. unfold counts_ordered, performance_of; cbn. lia.
  - eapply brokerPerformance_counts_group, Hb.
  - exact isSettled_isConverted.
  - reflexivity.
Qed.

Lemma counts_ordered_witness :
  exists perf,
    brokerPerformance Samples.three_deals conversion = Returns perf
    /\ Forall counts_ordered perf.
Proof.
  eexists. split; [reflexivity|].
  eapply (counts_ordered_in_every_entry Samples.three_deals conversion).
  reflexivity.
Defined.

(** C7. Every rate of the broker performance list lies between 0 and 100,
    and the rates derived from a group without deals are 0. *)
Theorem rates_between_0_and_100 deals mode perf :
  brokerPerformance deals mode = Returns perf ->
  Forall rates_in_range perf
  /\ (forall name stats,
        Stats.deals stats = [] ->
        settledRate (performance_of (name, stats)) = 0%Q
        /\ conversionRate (performance_of (name, stats)) = 0%Q)
  /\ BrokerPerformanceThresholds.brokerPerformance deals
     = brokerPerformance deals settled.
Proof.
  intros Hb. split; [|split].
  - eapply brokerPerformance_Forall; [|exact Hb].
    intros name st. apply performance_rates.
  - intros name stats Hd. unfold performance_of. rewrite Hd. cbn. auto.
  - reflexivity.
Qed.

Lemma rates_between_0_and_100_witness :
  exists perf,
    brokerPerformance Samples.three_deals settled = Returns perf
    /\ Forall rates_in_range perf.
Proof.
  eexists. split; [reflexivity|].
  eapply (rates_between_0_and_100 Samples.three_deals settled).
  reflexivity.
Defined.

Lemma by_mode_key mode :
  by_mode mode = fun a b => (sort_key mode b - sort_key mode a)%Q.
Proof. destruct mode; reflexivity. Qed.

(** C8. The broker performance list is in descending order of
    [settledValue] in the settled mode and of [conversionRate] in the
    conversion mode; it holds the entries of the groups, and entries with
    equal keys stay in the order of [Object.entries]. The earlier page
    orders its list by [settledValue]. *)
Theorem sorted_by_mode deals mode perf :
  brokerPerformance deals mode = Returns perf ->
  descending_by (sort_key mode) perf
  /\ (exists stats,
        brokerStats deals = Returns stats
        /\ Permutation perf (map performance_of (JsObject.entries stats))
        /\ forall v,
             ties (sort_key mode) v perf
             = ties (sort_key mode) v
                    (map performance_of (JsObject.entries stats)))
  /\ BrokerPerformanceThresholds.brokerPerformance deals
     = brokerPerformance deals settled.
Proof.
  intros Hb. apply brokerPerformance_inv in Hb as (stats & Hs & ->).
  rewrite by_mode_key. split; [|split].
  - apply (Array_sort_descending (sort_key mode)).
  - exists stats. split; [exact Hs|]. split.
    + apply Array_sort_perm.
    + intros v. apply (Array_sort_stable (sort_key mode)).
  - reflexivity.
Qed.

Lemma sorted_by_mode_witness :
  exists perf,
    brokerPerformance Samples.three_deals settled = Returns perf
    /\ descending_by settledValue perf.
Proof.
  eexists. split; [reflexivity|].
  eapply (sorted_by_mode Samples.three_deals settled).
  reflexivity.
Defined.

(** C9. [filteredBrokers] keeps exactly the entries with
    [totalDeals >= minDeals], in their order, and a larger [minDeals]
    keeps a sublist: never more entries. *)
Theorem filteredBrokers_monotonic perf (m1 m2 : Q) :
  (m1 <= m2)%Q ->
  (forall b, In b (filteredBrokers perf m1)
             <-> In b perf /\ (m1 <= inject_Z (totalDeals b))%Q)
  /\ sublist (filteredBrokers perf m1) perf
  /\ sublist (filteredBrokers perf m2) (filteredBrokers perf m1)
  /\ (length (filteredBrokers perf m2) <= length (filteredBrokers perf m1))%nat
  /\ BrokerPerformanceThresholds.filteredBrokers = filteredBrokers.
Proof.
  intros Hm.
  assert (Hsub : sublist (filteredBrokers perf m2) (filteredBrokers perf m1)).
  { unfold filteredBrokers.
    induction perf as [|b perf IH]; cbn; [constructor|].
    destruct (Qle_bool m2 (inject_Z (totalDeals b))) eqn:E2.
    - apply Qle_bool_iff in E2.
      assert (E1 : Qle_bool m1 (inject_Z (totalDeals b)) = true)
        by (apply Qle_bool_iff; lra).
      rewrite E1. now constructor.
    - destruct (Qle_bool m1 (inject_Z (totalDeals b))); [now constructor | exact IH]. }
  split; [|split; [|split; [|split]]].
  - intros b. unfold filteredBrokers. rewrite List.filter_In, Qle_bool_iff.
    reflexivity.
  - unfold filteredBrokers. clear.
    induction perf as [|b perf IH]; cbn; [constructor|].
    destruct (Qle_bool m1 (inject_Z (totalDeals b))); now constructor.
  - exact Hsub.
  - now apply sublist_length.
  - reflexivity.
Qed.

Lemma filteredBrokers_monotonic_witness :
  exists perf,
    brokerPerformance Samples.three_deals settled = Returns perf
    /\ (length (filteredBrokers perf 2) <= length (filteredBrokers perf 1))%nat.
Proof.
  eexists. split; [reflexivity|].
  apply (filteredBrokers_monotonic _ 1 2). unfold Qle; cbn; lia.
Defined.
End BrokerPerformanceClaims.

(** ** The deal filter *)

Section FilterClaims.
Import BrokerPerformanceAnalysis Stated.

Lemma filter_filter_implied {A} (p r : A -> bool) (l : list A) :
  (forall x, p x = true -> r x = true) ->
  List.filter p (List.filter r l) = List.filter p l.
Proof.
  intros Hpr. induction l as [|x l IH]; cbn; [reflexivity|].
  destruct (r x) eqn:Er; cbn.
  - now rewrite IH.
  - destruct (p x) eqn:Ep; [|exact IH].
    apply Hpr in Ep. congruence.
Qed.

Lemma filter_comm {A} (p q : A -> bool) (l : list A) :
  List.filter p (List.filter q l) = List.filter q (List.filter p l).
Proof.
  induction l as [|x l IH]; cbn; [reflexivity|].
  destruct (q x) eqn:Eq, (p x) eqn:Ep; cbn; rewrite ?Eq, ?Ep, IH; reflexivity.
Qed.

Lemma year_matches_has_latest_date `{Host} year deal :
  year_matches year deal = true -> has_latest_date deal = true.
Proof.
  unfold year_matches, has_latest_date.
  destruct (latest_date deal) as [s|]; [|discriminate].
  destruct (JsString.truthy s); [reflexivity | discriminate].
Qed.

(** C10. With a year selected, the filtered deals all have a
    [latest_date], and the deals without one change nothing that is derived
    from the filtered deals; with ["all"] the year is not tested and a deal
    without [latest_date] is kept whenever the broker filter keeps it. *)
Theorem year_filter_drops_undated_deals `{Host} deals
    (selectedBroker selectedYear : string) :
  selectedYear <> "all" ->
  (forall deal, In deal (filteredDeals deals selectedBroker selectedYear) ->
                has_latest_date deal = true)
  /\ filteredDeals (List.filter has_latest_date deals)
                   selectedBroker selectedYear
     = filteredDeals deals selectedBroker selectedYear
  /\ (forall mode,
        brokerPerformance
          (filteredDeals (List.filter has_latest_date deals)
                         selectedBroker selectedYear) mode
        = brokerPerformance
            (filteredDeals deals selectedBroker selectedYear) mode)
  /\ (forall mode threshold,
        chartData
          (filteredDeals (List.filter has_latest_date deals)
                         selectedBroker selectedYear)
          selectedBroker mode threshold
        = chartData (filteredDeals deals selectedBroker selectedYear)
                    selectedBroker mode threshold)
  /\ (forall deal,
        In deal deals -> has_latest_date deal = false ->
        selectedBroker = "all" \/ broker_name deal = selectedBroker ->
        In deal (filteredDeals deals selectedBroker "all")).
Proof.
  intros Hyear.
  assert (Hy : String.eqb selectedYear "all" = false)
    by now apply String.eqb_neq.
  assert (Heq : filteredDeals (List.filter has_latest_date deals)
                              selectedBroker selectedYear
                = filteredDeals deals selectedBroker selectedYear).
  { unfold filteredDeals. rewrite Hy. cbn [negb].
    destruct (negb (String.eqb selectedBroker "all")).
    - rewrite (filter_comm _ has_latest_date).
      apply filter_filter_implied, year_matches_has_latest_date.
    - apply filter_filter_implied, year_matches_has_latest_date. }
  split; [|split; [|split; [|split]]].
  - intros deal. unfold filteredDeals. rewrite Hy. cbn [negb].
    rewrite List.filter_In. intros [_ Hm].
    eapply year_matches_has_latest_date, Hm.
  - exact Heq.
  - intros mode. now rewrite Heq.
  - intros mode threshold. now rewrite Heq.
  - intros deal Hin _ Hbroker. unfold filteredDeals. cbn.
    destruct (String.eqb_spec selectedBroker "all") as [Hall|Hall]; cbn.
    + exact Hin.
    + destruct Hbroker as [?|Hb]; [contradiction|].
      apply List.filter_In. split; [exact Hin|].
      now apply String.eqb_eq.
Qed.

Lemma year_filter_drops_undated_deals_witness :
  filteredDeals (H := JsDate.iso_host 0)
    (List.filter has_latest_date Samples.three_deals) "all" "2024"
  = filteredDeals (H := JsDate.iso_host 0) Samples.three_deals "all" "2024".
Proof.
  apply (year_filter_drops_undated_deals (H := JsDate.iso_host 0)
           Samples.three_deals "all" "2024").
  discriminate.
Defined.
End FilterClaims.

(** ** Dates *)

Section DateFacts.
Import JsDate.

Lemma civil_from_days_inverse day :
  let '(y, m, d) := civil_from_days day in
  days_from_civil y m d = day /\ 1 <= m <= 12.
Proof.
  unfold civil_from_days, days_from_civil. cbv zeta.
  set (z := day + 719468).
  set (era := z / 146097).
  set (doe := z - era * 146097).
  assert (Hdoe : 0 <= doe < 146097) by (subst doe era; Z.div_mod_to_equations; lia).
  set (yoe := (doe - doe / 1460 + doe / 36524 - doe / 146096) / 365).
  assert (Hyoe : 0 <= yoe <= 399) by (subst yoe; Z.div_mod_to_equations; lia).
  set (doy := doe - (365 * yoe + yoe / 4 - yoe / 100)).
  assert (Hdoy : 0 <= doy <= 365) by (subst doy yoe; Z.div_mod_to_equations; lia).
  set (mp := (5 * doy + 2) / 153).
  assert (Hmp : 0 <= mp <= 11) by (subst mp; Z.div_mod_to_equations; lia).
  destruct (Z.ltb_spec mp 10).
  - destruct (Z.leb_spec (mp + 3) 2); [lia|].
    destruct (Z.ltb_spec 2 (mp + 3)); [|lia].
    replace (mp + 3 - 3) with mp by lia.
    replace (yoe + era * 400 + 0 - 0) with (era * 400 + yoe) by lia.
    rewrite Z.div_add_l by lia. rewrite (Z.div_small yoe 400) by lia.
    replace (era * 400 + yoe - (era + 0) * 400) with yoe by lia.
    subst doy doe z. lia.
  - destruct (Z.leb_spec (mp - 9) 2); [|lia].
    destruct (Z.ltb_spec 2 (mp - 9)); [lia|].
    replace (mp - 9 + 9) with mp by lia.
    replace (yoe + era * 400 + 1 - 1) with (era * 400 + yoe) by lia.
    rewrite Z.div_add_l by lia. rewrite (Z.div_small yoe 400) by lia.
    replace (era * 400 + yoe - (era + 0) * 400) with yoe by lia.
    subst doy doe z. lia.
Qed.

Lemma days_from_civil_date y m d k :
  days_from_civil y m (d + k) = days_from_civil y m d + k.
Proof. unfold days_from_civil. lia. Qed.

(** The day reached from the fields of a date by moving the day of the
    month. *)
Lemma MakeDay_fields tv k :
  MakeDay (YearFromTime tv) (MonthFromTime tv) (DateFromTime tv + k)
  = Day tv + k.
Proof.
  unfold MakeDay, YearFromTime, MonthFromTime, DateFromTime.
  pose proof (civil_from_days_inverse (Day tv)) as Hinv.
  destruct (civil_from_days (Day tv)) as [[y m] d]; cbn [fst snd].
  destruct Hinv as [Hinv Hm].
  rewrite (Z.div_small (m - 1) 12), (Z.mod_small (m - 1) 12) by lia.
  replace (y + 0) with y by lia. replace (m - 1 + 1) with m by lia.
  replace 1 with (d + (1 - d)) at 1 by lia.
  rewrite days_from_civil_date. lia.
Qed.

Section Local.
Context `{Host}.

(** [d.setDate(d.getDate() + k)] moves a valid date by [k] days. *)
Lemma setDate_getDate tv k :
  setDate (Some tv) (n ← getDate (Some tv); Some (n + k))
  = TimeClip (tv + k * msPerDay).
Proof.
  unfold setDate, getDate.
  cbn -[MakeDay YearFromTime MonthFromTime DateFromTime TimeClip UTC MakeDate
        TimeWithinDay LocalTime].
  rewrite MakeDay_fields. f_equal.
  unfold UTC, MakeDate, LocalTime, TimeWithinDay, Day, msPerDay.
  Z.div_mod_to_equations; lia.
Qed.

Lemma setDate_getDate_sub tv k :
  setDate (Some tv) (n ← getDate (Some tv); Some (n - k))
  = TimeClip (tv - k * msPerDay).
Proof.
  replace (tv - k * msPerDay) with (tv + - k * msPerDay) by lia.
  rewrite <- setDate_getDate. reflexivity.
Qed.

Lemma TimeClip_Some tv :
  minTime <= tv <= maxTime -> TimeClip tv = Some tv.
Proof.
  unfold TimeClip, minTime. intros Htv.
  destruct (Z.leb_spec (Z.abs tv) maxTime); [reflexivity | lia].
Qed.

Lemma TimeClip_None tv :
  tv < minTime \/ maxTime < tv -> TimeClip tv = None.
Proof.
  unfold TimeClip, minTime. intros Htv.
  destruct (Z.leb_spec (Z.abs tv) maxTime); [lia | reflexivity].
Qed.

Lemma TimeClip_inv tv tv' :
  TimeClip tv = Some tv' -> tv' = tv /\ minTime <= tv <= maxTime.
Proof.
  unfold TimeClip, minTime.
  destruct (Z.leb_spec (Z.abs tv) maxTime); [|discriminate].
  intros [= <-]. lia.
Qed.

Lemma of_string_range s tv :
  of_string s = Some tv -> minTime <= tv <= maxTime.
Proof.
  unfold of_string. destruct (Date_parse s); [|discriminate].
  intros Hc. apply TimeClip_inv in Hc as [-> ?]. assumption.
Qed.
End Local.

(** The characters of a formatted number are decimal digits. *)
Lemma digit_code z : (48 <= N_of_ascii (digit z) <= 57)%N.
Proof.
  unfold digit. rewrite N_ascii_embedding.
  - pose proof (Z.mod_pos_bound z 10). lia.
  - pose proof (Z.mod_pos_bound z 10). lia.
Qed.

Lemma digit_neq z c :
  (N_of_ascii c < 48 \/ 57 < N_of_ascii c)%N -> Ascii.eqb (digit z) c = false.
Proof.
  intros Hc. destruct (Ascii.eqb_spec (digit z) c) as [E|]; [|reflexivity].
  pose proof (digit_code z) as Hd. rewrite E in Hd. lia.
Qed.

Lemma split_head_date y m d rest :
  JsString.split_head "T"
    ((iso_year y +:+ "-" +:+ pad2 m +:+ "-" +:+ pad2 d) +:+ "T" +:+ rest)
  = iso_year y +:+ "-" +:+ pad2 m +:+ "-" +:+ pad2 d.
Proof.
  unfold iso_year, pad6, pad4, pad3, pad2.
  destruct ((0 <=? y) && (y <=? 9999)); [|destruct (y <? 0)];
    cbv beta iota fix delta [String.append];
    cbn -[digit]; rewrite ?digit_neq by (cbn; lia); reflexivity.
Qed.

(** [toISOString().split('T')[0]] is the date part. *)
Lemma ISOString_date tv : JsString.split_head "T" (ISOString tv) = ISODate tv.
Proof. unfold ISOString, ISODate. apply split_head_date. Qed.

Lemma date_not_inherited y rest :
  JsObject.inherited (iso_year y +:+ rest) = false.
Proof.
  unfold iso_year, pad6, pad4, pad3, pad2.
  destruct ((0 <=? y) && (y <=? 9999)); [|destruct (y <? 0)];
    cbv beta iota fix delta [String.append];
    unfold JsObject.inherited; cbn -[digit];
    rewrite ?digit_neq by (cbn; lia); reflexivity.
Qed.

(** A formatted date is not the name of a property of [Object.prototype]. *)
Lemma ISODate_not_inherited tv : JsObject.inherited (ISODate tv) = false.
Proof. unfold ISODate. apply date_not_inherited. Qed.

Lemma digit_inj a b : digit a = digit b -> a mod 10 = b mod 10.
Proof.
  unfold digit. intros E.
  apply (f_equal N_of_ascii) in E.
  pose proof (Z.mod_pos_bound a 10). pose proof (Z.mod_pos_bound b 10).
  rewrite !N_ascii_embedding in E by lia. lia.
Qed.

Lemma civil_from_days_range day :
  - 100000000 <= day <= 100000000 ->
  let '(y, m, d) := civil_from_days day in
  -300000 < y < 300000 /\ 1 <= m <= 12 /\ 1 <= d <= 31.
Proof.
  intros Hday. unfold civil_from_days. cbv zeta.
  set (z := day + 719468).
  set (era := z / 146097).
  set (doe := z - era * 146097).
  assert (Hera : -700 <= era <= 700) by (subst era z; Z.div_mod_to_equations; lia).
  assert (Hdoe : 0 <= doe < 146097) by (subst doe era; Z.div_mod_to_equations; lia).
  set (yoe := (doe - doe / 1460 + doe / 36524 - doe / 146096) / 365).
  assert (Hyoe : 0 <= yoe <= 399) by (subst yoe; Z.div_mod_to_equations; lia).
  set (doy := doe - (365 * yoe + yoe / 4 - yoe / 100)).
  assert (Hdoy : 0 <= doy <= 365) by (subst doy yoe; Z.div_mod_to_equations; lia).
  set (mp := (5 * doy + 2) / 153).
  assert (Hmp : 0 <= mp <= 11) by (subst mp; Z.div_mod_to_equations; lia).
  assert (Hd : 1 <= doy - (153 * mp + 2) / 5 + 1 <= 31)
    by (subst mp; Z.div_mod_to_equations; lia).
  destruct (Z.ltb_spec mp 10).
  - destruct (Z.leb_spec (mp + 3) 2); lia.
  - destruct (Z.leb_spec (mp - 9) 2); lia.
Qed.

Lemma iso_date_inj y1 m1 d1 y2 m2 d2 :
  -300000 < y1 < 300000 -> 1 <= m1 <= 12 -> 1 <= d1 <= 31 ->
  -300000 < y2 < 300000 -> 1 <= m2 <= 12 -> 1 <= d2 <= 31 ->
  iso_year y1 +:+ "-" +:+ pad2 m1 +:+  "-" +:+ pad2 d1
  = iso_year y2 +:+ "-" +:+ pad2 m2 +:+  "-" +:+ pad2 d2 ->
  y1 = y2 /\ m1 = m2 /\ d1 = d2.
Proof.
  intros Hy1 Hm1 Hd1 Hy2 Hm2 Hd2.
  unfold iso_year, pad6, pad4, pad3, pad2.
  destruct ((0 <=? y1) && (y1 <=? 9999)) eqn:E1;
    destruct ((0 <=? y2) && (y2 <=? 9999)) eqn:E2;
    cbv beta iota fix delta [String.append]; intros E.
  - injection E as A1 A2 A3 A4 A5 A6 A7 A8.
    apply digit_inj in A1, A2, A3, A4, A5, A6, A7, A8.
    apply andb_true_iff in E1 as [?%Z.leb_le ?%Z.leb_le].
    apply andb_true_iff in E2 as [?%Z.leb_le ?%Z.leb_le].
    Z.div_mod_to_equations; lia.
  - exfalso. injection E as A1 _.
    pose proof (digit_code (y1 / 1000)) as Hc. rewrite A1 in Hc.
    destruct (y2 <? 0); cbn in Hc; lia.
  - exfalso. injection E as A1 _.
    pose proof (digit_code (y2 / 1000)) as Hc. rewrite <- A1 in Hc.
    destruct (y1 <? 0); cbn in Hc; lia.
  - injection E as S A1 A2 A3 A4 A5 A6 A7 A8 A9 A10.
    apply digit_inj in A1, A2, A3, A4, A5, A6, A7, A8, A9, A10.
    assert (Hs : (y1 <? 0) = (y2 <? 0))
      by (destruct (y1 <? 0), (y2 <? 0); congruence).
    destruct (Z.ltb_spec y1 0), (Z.ltb_spec y2 0); try discriminate;
      Z.div_mod_to_equations; lia.
Qed.
(** Formatted dates differ when the days differ. *)
Lemma ISODate_inj tv1 tv2 :
  minTime <= tv1 <= maxTime -> minTime <= tv2 <= maxTime ->
  ISODate tv1 = ISODate tv2 -> Day tv1 = Day tv2.
Proof.
  intros H1 H2 E.
  assert (R1 : - 100000000 <= Day tv1 <= 100000000)
    by (unfold Day, minTime, maxTime, msPerDay in *;
        Z.div_mod_to_equations; lia).
  assert (R2 : - 100000000 <= Day tv2 <= 100000000)
    by (unfold Day, minTime, maxTime, msPerDay in *;
        Z.div_mod_to_equations; lia).
  pose proof (civil_from_days_range _ R1) as C1.
  pose proof (civil_from_days_range _ R2) as C2.
  pose proof (civil_from_days_inverse (Day tv1)) as I1.
  pose proof (civil_from_days_inverse (Day tv2)) as I2.
  unfold ISODate, YearFromTime, MonthFromTime, DateFromTime in E.
  destruct (civil_from_days (Day tv1)) as [[y1 m1] d1].
  destruct (civil_from_days (Day tv2)) as [[y2 m2] d2].
  cbn [fst snd] in E.
  replace (m1 - 1 + 1) with m1 in E by lia.
  replace (m2 - 1 + 1) with m2 in E by lia.
  apply iso_date_inj in E as (-> & -> & ->); try tauto.
  destruct I1 as [<- _], I2 as [<- _]. reflexivity.
Qed.

End DateFacts.

(** ** Week bucketing *)

Section WeekStartFacts.
Import JsDate BrokerPerformanceAnalysis Stated.

(** The days from a date back to the start of its week. *)
Local Abbreviation days_back := (fun wd : Z => - wd + (if wd =? 0 then -6 else 1)).

Lemma week_start_value `{Host} tv :
  week_start (Some tv)
  = t1 ← TimeClip (tv + days_back (WeekDay (LocalTime tv)) * msPerDay);
    TimeClip (UTC (MakeDate (Day (LocalTime t1)) 0)).
Proof.
  unfold week_start.
  rewrite <- setDate_getDate. unfold setHours0, getDay, getDate.
  cbn -[setDate TimeClip UTC MakeDate Day LocalTime WeekDay DateFromTime].
  do 2 f_equal. f_equal. lia.
Qed.

(** The week start of a date that has a week of time values before it. *)
Lemma week_start_returns `{Host} tv :
  minTime + 7 * msPerDay <= tv <= maxTime ->
  week_start (Some tv)
  = Some ((Day (LocalTime tv) + days_back (WeekDay (LocalTime tv))) * msPerDay
          - LocalTZA).
Proof.
  intros Htv. rewrite week_start_value.
  remember (WeekDay (LocalTime tv)) as wd eqn:Ewd.
  assert (Hwd : 0 <= wd < 7) by (subst wd; apply Z.mod_pos_bound; lia).
  assert (Hback : -6 <= days_back wd <= 0)
    by (cbv beta; destruct (Z.eqb_spec wd 0); lia).
  remember (days_back wd) as k eqn:Ek. clear Ek.
  unfold minTime, maxTime, msPerDay in Htv.
  rewrite TimeClip_Some by (unfold minTime, maxTime, msPerDay; lia).
  cbn -[TimeClip UTC MakeDate Day LocalTime Z.mul].
  unfold UTC, MakeDate, LocalTime, Day, msPerDay.
  rewrite TimeClip_Some
    by (unfold minTime, maxTime; Z.div_mod_to_equations; lia).
  f_equal. Z.div_mod_to_equations; lia.
Qed.


(** The time value of a week start. *)
Lemma week_start_inv `{Host} tv ws :
  week_start (Some tv) = Some ws ->
  minTime <= ws <= maxTime
  /\ ws = (Day (LocalTime tv) + days_back (WeekDay (LocalTime tv))) * msPerDay
          - LocalTZA.
Proof.
  rewrite week_start_value. intros Hw.
  remember (WeekDay (LocalTime tv)) as wd eqn:Ewd. clear Ewd.
  destruct (TimeClip (tv + days_back wd * msPerDay)) as [t1|] eqn:E1;
    [|discriminate].
  cbn -[TimeClip UTC MakeDate Day LocalTime] in Hw.
  apply TimeClip_inv in E1 as [-> _].
  apply TimeClip_inv in Hw as [-> Hrange]. split; [exact Hrange|].
  unfold UTC, MakeDate, LocalTime, Day, msPerDay.
  Z.div_mod_to_equations; lia.
Qed.

(** A week start is a Monday, at local midnight, at most six days back. *)
Lemma week_start_monday `{Host} tv ws :
  week_start (Some tv) = Some ws ->
  WeekDay (LocalTime ws) = 1
  /\ TimeWithinDay (LocalTime ws) = 0
  /\ Day (LocalTime ws) <= Day (LocalTime tv) <= Day (LocalTime ws) + 6
  /\ (WeekDay (LocalTime tv) = 0 ->
      Day (LocalTime ws) = Day (LocalTime tv) - 6).
Proof.
  intros Hw. apply week_start_inv in Hw as [_ ->].
  remember (WeekDay (LocalTime tv)) as wd eqn:Ewd.
  assert (Hwd : 0 <= wd < 7) by (subst wd; apply Z.mod_pos_bound; lia).
  unfold WeekDay, TimeWithinDay, LocalTime, Day, msPerDay in *.
  split; [|split; [|split]].
  - destruct (Z.eqb_spec wd 0); Z.div_mod_to_equations; lia.
  - Z.div_mod_to_equations; lia.
  - destruct (Z.eqb_spec wd 0); Z.div_mod_to_equations; lia.
  - intros H0. rewrite H0 in Ewd. subst wd. cbn [Z.eqb].
    Z.div_mod_to_equations; lia.
Qed.

Lemma week_key_date `{Host} ws : week_key (Some ws) = Returns (ISODate ws).
Proof. unfold week_key. cbn -[ISOString]. now rewrite ISOString_date. Qed.

(** Two week starts have the same key only when they are the same. *)
Lemma week_key_inj `{Host} tv tv' ws ws' :
  week_start (Some tv) = Some ws -> week_start (Some tv') = Some ws' ->
  week_key (Some ws') = week_key (Some ws) -> ws' = ws.
Proof.
  intros Hw Hw'. rewrite !week_key_date. intros [= E].
  apply week_start_inv in Hw as [Hr Hws], Hw' as [Hr' Hws'].
  apply ISODate_inj in E; [|assumption..].
  remember (Day (LocalTime tv) + days_back (WeekDay (LocalTime tv))) as D.
  remember (Day (LocalTime tv') + days_back (WeekDay (LocalTime tv'))) as D'.
  subst ws ws'. unfold Day, msPerDay in E |- *.
  Z.div_mod_to_equations; lia.
Qed.

(** The week of 2024-01-07 in a host that reads ISO dates. *)
Lemma week_start_2024_01_07 tza :
  - msPerDay < tza < msPerDay ->
  exists monday,
    week_start (H := iso_host tza) (of_string (H := iso_host tza) "2024-01-07")
    = Some monday
    /\ civil_from_days (Day (LocalTime (H := iso_host tza) monday))
       = (2024, 1, 1).
Proof.
  intros Htza.
  change (of_string (H := iso_host tza) "2024-01-07")
    with (Some 1704585600000).
  rewrite week_start_returns by (unfold minTime, maxTime, msPerDay; lia).
  eexists; split; [reflexivity|].
  unfold WeekDay, LocalTime, Day; cbn [LocalTZA iso_host].
  match goal with
  | |- civil_from_days ?x = _ =>
      assert (Ex : x = 19723); [|rewrite Ex; reflexivity]
  end.
  unfold msPerDay in *.
  destruct (Z.eqb_spec (((1704585600000 + tza) / 86400000 + 4) mod 7) 0);
    Z.div_mod_to_equations; lia.
Qed.
End WeekStartFacts.

(** ** The full-window rolling average *)

Section FullWindowClaims.
Import JsDate LeadSourcesSample Stated.
Context `{Host}.

(** One pass of the loop body on a valid day: the count of that day. *)
Lemma lookup_count (dateValueMap : JsObject.t Z) tv :
  JsObject.get dateValueMap (ISODate tv) <> JsObject.Inherited
  /\ match JsObject.get dateValueMap (ISODate tv) with
     | JsObject.Own v => if v =? 0 then 0 else v
     | _ => 0
     end = count_on dateValueMap tv.
Proof.
  unfold JsObject.get, count_on.
  rewrite ISODate_not_inherited.
  destruct (JsObject.own dateValueMap (ISODate tv)) as [v|].
  - split; [discriminate|]. destruct (Z.eqb_spec v 0); congruence.
  - split; [discriminate | reflexivity].
Qed.

(** The loop started [n] days before [current] runs [n + 1] times and adds
    the counts of those days. *)
Lemma window_loop_total dateValueMap tv n :
  forall fuel sum dayCount,
    minTime <= tv - Z.of_nat n * msPerDay -> tv <= maxTime ->
    (n + 2 <= fuel)%nat ->
    window_loop fuel dateValueMap (Some tv)
                (Some (tv - Z.of_nat n * msPerDay)) sum dayCount
    = Some (sum + window_total dateValueMap tv n, dayCount + Z.of_nat n + 1).
Proof.
  induction n as [|n IH]; intros fuel sum dayCount Hmin Hmax Hfuel.
  - destruct fuel as [|[|fuel]]; [lia | lia |].
    replace (tv - Z.of_nat 0 * msPerDay) with tv by lia.
    cbn [window_loop le toISOString]. rewrite Z.leb_refl.
    rewrite ISOString_date.
    destruct (lookup_count dateValueMap tv) as [Hni Hc].
    rewrite setDate_getDate.
    destruct (JsObject.get dateValueMap (ISODate tv)) eqn:E;
      [| contradiction |];
      rewrite Hc; cbn [window_total];
      (destruct (TimeClip (tv + 1 * msPerDay)) as [t1|] eqn:E1;
       [ apply TimeClip_inv in E1 as [-> _]; cbn [le];
         destruct (Z.leb_spec (tv + 1 * msPerDay) tv);
         [ unfold msPerDay in *; lia | f_equal; f_equal; lia ]
       | cbn [le]; f_equal; f_equal; lia ]).
  - destruct fuel as [|fuel]; [lia|].
    set (d := tv - Z.of_nat (S n) * msPerDay) in *.
    assert (Hd : d + 1 * msPerDay = tv - Z.of_nat n * msPerDay)
      by (subst d; lia).
    assert (Hle : d <= tv) by (subst d; unfold msPerDay; lia).
    cbn [window_loop le toISOString].
    destruct (Z.leb_spec d tv); [|lia].
    rewrite ISOString_date.
    destruct (lookup_count dateValueMap d) as [Hni Hc].
    rewrite setDate_getDate, Hd.
    rewrite TimeClip_Some by (unfold minTime, maxTime, msPerDay in *; lia).
    destruct (JsObject.get dateValueMap (ISODate d)) eqn:E;
      [| contradiction |];
      rewrite Hc, IH by (unfold msPerDay in *; lia);
      cbn [window_total]; fold d; f_equal; f_equal; lia.
Qed.

(** The full-window rolling average of a date is [null] only when fewer
    than 30 days lie between the earliest time value and that date; from
    then on it is a number, whatever the dictionary holds: the counts of
    the 31 days of the window divided by 30. *)
Lemma full_window_null_before_30_days dateValueMap (targetDate : string)
    (tv : Z) :
  of_string targetDate = Some tv ->
  (tv < minTime + 30 * msPerDay ->
   calculate30DayRollingSum dateValueMap targetDate = Some null)
  /\ (minTime + 30 * msPerDay <= tv ->
      calculate30DayRollingSum dateValueMap targetDate
      = Some (Num (inject_Z (window_total dateValueMap tv 30) / 30)%Q)).
Proof.
  intros Hs. pose proof (of_string_range _ _ Hs) as Hrange.
  unfold calculate30DayRollingSum. rewrite Hs.
  rewrite setDate_getDate_sub.
  split; intros Htv.
  - rewrite TimeClip_None by (unfold msPerDay in *; lia). reflexivity.
  - rewrite TimeClip_Some by (unfold minTime, maxTime, msPerDay in *; lia).
    change (tv - 30 * msPerDay) with (tv - Z.of_nat 30 * msPerDay).
    rewrite window_loop_total.
    + reflexivity.
    + unfold msPerDay in *. lia.
    + lia.
    + unfold window_fuel.
      replace ((tv - (tv - Z.of_nat 30 * msPerDay)) / msPerDay) with 30
        by (unfold msPerDay; Z.div_mod_to_equations; lia).
      cbn; lia.
Qed.
End FullWindowClaims.

(** C2. The full-window rolling average does not wait for 30 days of
    data. In a UTC host it is a number on the first day of the data (one
    deal on that day gives 1/30), it is the number 0 on a day in a
    dictionary without any date, and the chart of two deals created on
    2023-01-01 and 2023-01-03 has a point with two numbers for each of the
    two dates: no point of the leading edge is left out. *)
Theorem full_window_number_on_first_day :
  LeadSourcesSample.calculate30DayRollingSum (H := JsDate.iso_host 0)
    [("2023-01-01", 1)] "2023-01-01" = Some (Num (1 # 30))
  /\ LeadSourcesSample.calculate30DayRollingSum (H := JsDate.iso_host 0)
       [] "2023-01-01" = Some (Num (0 # 30))
  /\ LeadSourcesSample.chartData (H := JsDate.iso_host 0)
       Samples.first_days "all"
     = Some [ {| LeadSourcesSample.date := "2023-01-01";
                 LeadSourcesSample.settledDeals30DayAvg := Num (1 # 30);
                 LeadSourcesSample.rednoteDeals30DayAvg := Num (0 # 30) |};
              {| LeadSourcesSample.date := "2023-01-03";
                 LeadSourcesSample.settledDeals30DayAvg := Num (2 # 30);
                 LeadSourcesSample.rednoteDeals30DayAvg := Num (1 # 30) |} ].
Proof.
  split; [|split].
  - refine (proj2 (full_window_null_before_30_days (H := JsDate.iso_host 0)
                     [("2023-01-01", 1)] "2023-01-01" 1672531200000 _) _).
    + reflexivity.
    + discriminate.
  - refine (proj2 (full_window_null_before_30_days (H := JsDate.iso_host 0)
                     [] "2023-01-01" 1672531200000 _) _).
    + reflexivity.
    + discriminate.
  - vm_compute. reflexivity.
Qed.

(** ** The fixed-divisor rolling average *)

Section FixedDivisorClaims.
Import JsDate LeadSourcesAnalysis Stated.
Context `{Host}.

Lemma window_count_perm tv (m m' : JsObject.t Z) :
  Permutation m m' -> window_count m tv = window_count m' tv.
Proof.
  unfold window_count.
  induction 1 as [|e m m' _ IH|e e' m|m m' m'' _ IH1 _ IH2]; cbn.
  - reflexivity.
  - now rewrite IH.
  - lia.
  - congruence.
Qed.

Lemma fold_left_window (test : string -> bool) (l : list (string * Z)) sum :
  fold_left (fun sum '(date, count) => if test date then sum + count else sum)
            l sum
  = sum + fold_right (fun e acc => (if test (fst e) then snd e else 0) + acc)
                     0 l.
Proof.
  revert sum. induction l as [|[date count] l IH]; intros sum; cbn.
  - lia.
  - rewrite IH. destruct (test date); lia.
Qed.

(** The sum the loop computes when the start of the window is a valid
    date. *)
Lemma rolling_sum_window dateValueMap tv :
  minTime + 30 * msPerDay <= tv <= maxTime ->
  fold_left
    (fun sum '(date, count) =>
       let dateObj := of_string date in
       if ge dateObj (of_number (Some (tv - 30 * 24 * 60 * 60 * 1000)))
          && le dateObj (Some tv)
       then sum + count else sum)
    (JsObject.entries dateValueMap) 0
  = window_count dateValueMap tv.
Proof.
  intros Htv.
  rewrite (window_count_perm tv _ _ (Permutation_sym (entries_perm dateValueMap))).
  cbn [of_number mbind option_bind].
  rewrite TimeClip_Some by (unfold minTime, maxTime, msPerDay in *; lia).
  rewrite (fold_left_window
             (fun date => ge (of_string date) (Some (tv - 30 * 24 * 60 * 60 * 1000))
                          && le (of_string date) (Some tv))).
  unfold window_count. rewrite Z.add_0_l.
  generalize (JsObject.entries dateValueMap).
  intros l; induction l as [|[date count] m IH]; cbn [fold_right fst snd];
    [reflexivity|].
  rewrite IH. f_equal.
  unfold in_window, ge, le, msPerDay.
  destruct (of_string date) as [u|]; [|reflexivity].
  replace (tv - 30 * 24 * 60 * 60 * 1000) with (tv - 30 * 86400000) by lia.
  reflexivity.
Qed.

Lemma window_count_single tv date (others : JsObject.t Z) :
  in_window tv date = true ->
  Forall (fun e => snd e = 0) others ->
  window_count ((date, 5) :: others) tv = 5.
Proof.
  intros Hin Hz. unfold window_count. cbn [fold_right fst snd]. rewrite Hin.
  fold (window_count others tv).
  assert (E : window_count others tv = 0).
  { unfold window_count. induction Hz as [|[k v] l Hv _ IH]; cbn; [reflexivity|].
    cbn in Hv. subst v. rewrite IH. now destruct (in_window tv k). }
  rewrite E. reflexivity.
Qed.

Lemma In_slice_last {A} (n : nat) (l : list A) x :
  In x (JsArray.slice_last n l) -> In x l.
Proof.
  unfold JsArray.slice_last. generalize (length l - n)%nat. intros k.
  revert l. induction k as [|k IH]; intros [|y l]; cbn; auto.
Qed.

(** Every point of the chart is computed from the two dictionaries of
    counts, for one of the available dates, of which there are some. *)
Lemma chartData_points deals points p :
  chartData deals = Returns points -> In p points ->
  exists settledCounts rednoteCounts,
    settledCountByDate deals = Returns settledCounts
    /\ rednoteCountByDate deals = Returns rednoteCounts
    /\ allDates deals <> []
    /\ In (date p) (allDates deals)
    /\ settledDeals30DayAvg p
       = calculate30DayRollingAvg settledCounts (date p) (allDates deals)
    /\ rednoteDeals30DayAvg p
       = calculate30DayRollingAvg rednoteCounts (date p) (allDates deals).
Proof.
  unfold chartData.
  destruct (length deals =? 0)%nat; [intros [= <-] []|].
  intros Hc Hp.
  apply bind_Returns in Hc as (settledCounts & Hs & Hc).
  apply bind_Returns in Hc as (rednoteCounts & Hr & Hc).
  destruct (Nat.eqb_spec (length (allDates deals)) 0) as [E0|E0];
    [injection Hc as <-; destruct Hp|].
  injection Hc as <-. apply In_slice_last in Hp.
  apply in_map_iff in Hp as (d & <- & Hd).
  exists settledCounts, rednoteCounts.
  cbn [date settledDeals30DayAvg rednoteDeals30DayAvg].
  repeat split; auto.
  intros E. rewrite E in E0. now apply E0.
Qed.

(** C3. The fixed-divisor rolling average is always a number. It is 0 for
    a dictionary without dates; when dates are available, as they are
    wherever the chart calls it, it is the sum of the counts whose date lies
    in the window of the 30 days up to the target date, divided by 30,
    whatever the number of dates; and a single count of 5 on the target
    date, with zero counts elsewhere, gives 5/30. *)
Theorem fixed_divisor_average (dateValueMap : JsObject.t Z)
    (targetDate : string) (allAvailableDates : list string) (tv : Z) :
  of_string targetDate = Some tv ->
  minTime + 30 * msPerDay <= tv ->
  allAvailableDates <> [] ->
  calculate30DayRollingAvg dateValueMap targetDate allAvailableDates
  = (inject_Z (window_count dateValueMap tv) / 30)%Q
  /\ (forall dates,
        (calculate30DayRollingAvg [] targetDate dates == 0)%Q)
  /\ (forall others,
        Permutation dateValueMap ((targetDate, 5) :: others) ->
        Forall (fun e => snd e = 0) others ->
        calculate30DayRollingAvg dateValueMap targetDate allAvailableDates
        = (5 # 30)%Q)
  /\ (forall deals points p,
        chartData deals = Returns points -> In p points ->
        exists settledCounts,
          settledCountByDate deals = Returns settledCounts
          /\ allDates deals <> []
          /\ settledDeals30DayAvg p
             = calculate30DayRollingAvg settledCounts (date p)
                                        (allDates deals)).
Proof.
  intros Hs Htv Hdates.
  pose proof (of_string_range _ _ Hs) as Hrange.
  assert (Hmain : calculate30DayRollingAvg dateValueMap targetDate
                                           allAvailableDates
                  = (inject_Z (window_count dateValueMap tv) / 30)%Q).
  { unfold calculate30DayRollingAvg.
    destruct allAvailableDates; [contradiction|]. cbn [length Nat.eqb].
    rewrite Hs. cbn [getTime mbind option_bind].
    now rewrite rolling_sum_window by lia. }
  split; [exact Hmain | split; [|split]].
  - intros dates. unfold calculate30DayRollingAvg.
    destruct (length dates =? 0)%nat; reflexivity.
  - intros others Hperm Hz. rewrite Hmain.
    rewrite (window_count_perm tv _ _ Hperm).
    rewrite window_count_single; [reflexivity | | exact Hz].
    unfold in_window. rewrite Hs.
    apply andb_true_intro. split; apply Z.leb_le; unfold msPerDay; lia.
  - intros deals points p Hc Hp.
    destruct (chartData_points _ _ _ Hc Hp)
      as (settledCounts & _ & Hsc & _ & Hd & _ & Havg & _).
    exists settledCounts. auto.
Qed.
End FixedDivisorClaims.

Lemma fixed_divisor_average_witness :
  LeadSourcesAnalysis.calculate30DayRollingAvg (H := JsDate.iso_host 0)
    [("2024-01-05", 0); ("2024-02-04", 5)] "2024-02-04" ["2024-02-04"]
  = (5 # 30)%Q.
Proof.
  eapply (fixed_divisor_average (H := JsDate.iso_host 0)
            [("2024-01-05", 0); ("2024-02-04", 5)] "2024-02-04"
            ["2024-02-04"] 1707004800000).
  - reflexivity.
  - discriminate.
  - discriminate.
  - apply perm_swap.
  - repeat constructor.
Defined.

(** ** Counts per date *)

Section DateCountFacts.
Import LeadSourcesAnalysis Stated.

Local Abbreviation ids_of := (fun (l : list Deal) (date : string) =>
  (list_to_set (map deal_id (List.filter (bucket_is date) l)) : gset string)).

(** What the reducer has collected after the selected deals [l]. *)
Local Abbreviation collected := (fun (l : list Deal) (acc : JsObject.t (gset string)) =>
  NoDup (map fst acc)
  /\ Forall (fun e => JsObject.inherited (fst e) = false) acc
  /\ forall date,
       JsObject.own acc date
       = if existsb (bucket_is date) l then Some (ids_of l date) else None).

Lemma existsb_false_filter {A} (p : A -> bool) l :
  existsb p l = false -> List.filter p l = [].
Proof.
  induction l as [|x l IH]; cbn; [reflexivity|].
  destruct (p x); cbn; [discriminate | exact IH].
Qed.

Lemma idsByDate_step_collected pre acc deal acc' :
  collected pre acc ->
  idsByDate_step acc deal = Returns acc' ->
  collected (pre ++ [deal]) acc'.
Proof.
  intros (Hnd & Hni & Hown). unfold idsByDate_step.
  assert (Hskip : (forall date, bucket_is date deal = false) ->
                  collected (pre ++ [deal]) acc).
  { intros Hb. split; [exact Hnd | split; [exact Hni|]].
    intros date. rewrite Hown, existsb_app, List.filter_app. cbn.
    rewrite Hb, orb_false_r, app_nil_r. reflexivity. }
  destruct (bucket_date deal) as [d0|] eqn:Eb;
    [|intros [= <-]; apply Hskip; intros date; unfold bucket_is;
      now rewrite Eb].
  destruct (JsString.filled (Some d0)) eqn:Ef;
    [|intros [= <-]; apply Hskip; intros date; unfold bucket_is;
      now rewrite Eb, Ef].
  assert (Hb : forall date, bucket_is date deal = String.eqb d0 date)
    by (intros date; unfold bucket_is; now rewrite Eb, Ef).
  assert (Hfinal : forall (acc1 : JsObject.t (gset string)) ids,
             NoDup (map fst acc1) ->
             Forall (fun e => JsObject.inherited (fst e) = false) acc1 ->
             JsObject.inherited d0 = false ->
             JsObject.own acc1 d0 = Some ids ->
             ids = ids_of pre d0 ->
             (forall date, date <> d0 ->
                           JsObject.own acc1 date = JsObject.own acc date) ->
             collected (pre ++ [deal])
                       (JsObject.set acc1 d0 ({[ deal_id deal ]} ∪ ids))).
  { intros acc1 ids Hnd1 Hni1 Hd0 Hids -> Hother.
    split; [now apply set_NoDup | split; [now apply set_Forall|]].
    intros date. rewrite own_set by (left; congruence).
    rewrite existsb_app, List.filter_app, map_app, list_to_set_app_L. cbn.
    rewrite Hb. destruct (String.eqb_spec date d0) as [->|Hne].
    - rewrite String.eqb_refl, orb_true_r. cbn.
      f_equal. rewrite union_empty_r_L. apply union_comm_L.
    - destruct (String.eqb_spec d0 date) as [->|_]; [contradiction|].
      rewrite Hother, Hown by exact Hne. cbn.
      rewrite orb_false_r, union_empty_r_L. reflexivity. }
  cbv zeta.
  destruct (JsObject.get acc d0) as [ids| |] eqn:Eg; cbv iota.
  - rewrite Eg. intros [= <-].
    unfold JsObject.get in Eg.
    destruct (JsObject.own acc d0) as [ids'|] eqn:Eo;
      [|destruct (JsObject.inherited d0); discriminate].
    injection Eg as ->.
    apply Hfinal; auto.
    + apply own_In in Eo. rewrite List.Forall_forall in Hni.
      exact (Hni _ Eo).
    + rewrite Hown in Eo. destruct (existsb (bucket_is d0) pre);
        congruence.
  - rewrite Eg. discriminate.
  - unfold JsObject.get in Eg.
    destruct (JsObject.own acc d0) as [ids'|] eqn:Eo; [discriminate|].
    destruct (JsObject.inherited d0) eqn:Ei; [discriminate|].
    unfold JsObject.get.
    rewrite own_set_same by exact Ei. intros [= <-].
    apply Hfinal.
    + now apply set_NoDup.
    + now apply set_Forall.
    + reflexivity.
    + now apply own_set_same.
    + rewrite Hown in Eo.
      destruct (existsb (bucket_is d0) pre) eqn:Ee; [discriminate|].
      rewrite (existsb_false_filter _ _ Ee). reflexivity.
    + intros date Hne. rewrite own_set by (right; now apply inherited_proto).
      destruct (String.eqb_spec date d0); [contradiction | reflexivity].
Qed.

Lemma idsByDate_collected select deals byDate :
  idsByDate select deals = Returns byDate ->
  collected (List.filter select deals) byDate.
Proof.
  intros Hr.
  apply (reduce_prefix_invariant (fun l acc => collected l acc)
           idsByDate_step idsByDate_step_collected
           (List.filter select deals) [] [] byDate); [|exact Hr].
  split; [constructor | split; [constructor | reflexivity]].
Qed.

(** Converting sets to counts keeps the names and takes the sizes. *)
Lemma own_counts (l : list (string * gset string)) (acc : JsObject.t Z) k :
  NoDup (map fst l) ->
  Forall (fun e => JsObject.inherited (fst e) = false) l ->
  JsObject.own
    (fold_left (fun acc '(date, dealIds) =>
                  JsObject.set acc date (Z.of_nat (size dealIds))) l acc) k
  = match JsObject.own l k with
    | Some ids => Some (Z.of_nat (size ids))
    | None => JsObject.own acc k
    end.
Proof.
  revert acc. induction l as [|[date ids] l IH]; intros acc Hnd Hni; cbn;
    [reflexivity|].
  apply NoDup_cons in Hnd as [Hdate Hnd].
  inversion Hni as [|? ? Hd Hni']; subst. cbn in Hd.
  rewrite IH by assumption.
  rewrite own_set by (right; now apply inherited_proto).
  destruct (String.eqb_spec k date) as [->|Hne]; [|reflexivity].
  destruct (JsObject.own l date) as [ids'|] eqn:E; [|reflexivity].
  exfalso. apply Hdate. apply list_elem_of_In.
  apply own_In in E. apply (in_map fst) in E. exact E.
Qed.

Lemma filter_filter_andb {A} (p q : A -> bool) l :
  List.filter p (List.filter q l) = List.filter (fun x => q x && p x) l.
Proof.
  induction l as [|x l IH]; cbn; [reflexivity|].
  destruct (q x); cbn; [destruct (p x)|]; now rewrite IH.
Qed.

(** The count of a date is the number of distinct ids of its deals. *)
Lemma countByDate_distinct select deals byDate date :
  idsByDate select deals = Returns byDate ->
  count_at (countByDate byDate) date
  = Z.of_nat (size (distinct_ids select deals date)).
Proof.
  intros Hr. apply idsByDate_collected in Hr as (Hnd & Hni & Hown).
  unfold count_at, countByDate.
  pose proof (entries_perm byDate) as Hp.
  rewrite own_counts.
  - rewrite <- (own_perm byDate _ date Hnd (Permutation_sym Hp)), Hown.
    unfold distinct_ids. rewrite <- filter_filter_andb.
    destruct (existsb (bucket_is date) (List.filter select deals)) eqn:Ee;
      cbn; [reflexivity|].
    now rewrite (existsb_false_filter _ _ Ee).
  - now rewrite Hp.
  - now rewrite Hp.
Qed.
End DateCountFacts.

Section RowCountFacts.
Import LeadSourcesSample Stated.

Lemma foldl_None {A B} (f : option B -> A -> option B) (l : list A) :
  (forall x, f None x = None) -> foldl f None l = None.
Proof. intros Hf. induction l as [|x l IH]; cbn; [reflexivity|]. now rewrite Hf. Qed.

(** What the row counter holds after the selected rows [l]. *)
Local Abbreviation counted := (fun (l : list Deal) (acc : JsObject.t Z) =>
  forall date,
    JsObject.own acc date
    = let n := length (List.filter
                         (fun deal => String.eqb (created_date deal) date) l) in
      if (n =? 0)%nat then None else Some (Z.of_nat n)).

Lemma rowsByDate_step_counted pre acc deal acc' :
  counted pre acc ->
  rowsByDate_step acc deal = Some acc' ->
  counted (pre ++ [deal]) acc'.
Proof.
  intros Hown. unfold rowsByDate_step.
  assert (Hnext : forall v,
             JsObject.own acc (created_date deal) <> None
             \/ created_date deal <> "__proto__" ->
             v = Z.of_nat (length (List.filter
                     (fun d => String.eqb (created_date d) (created_date deal))
                     pre)) + 1 ->
             counted (pre ++ [deal]) (JsObject.set acc (created_date deal) v)).
  { intros v Hk -> date. rewrite own_set by exact Hk.
    rewrite List.filter_app, length_app. cbn [List.filter].
    destruct (String.eqb_spec date (created_date deal)) as [->|Hne].
    - rewrite String.eqb_refl. cbn [length].
      destruct (Nat.eqb_spec (length (List.filter
                  (fun d => String.eqb (created_date d) (created_date deal)) pre)
                              + 1) 0); [lia|].
      f_equal. lia.
    - destruct (String.eqb_spec (created_date deal) date); [congruence|].
      cbn [length]. rewrite Nat.add_0_r. apply Hown. }
  unfold JsObject.get.
  destruct (JsObject.own acc (created_date deal)) as [v|] eqn:Eo.
  - intros [= <-]. apply Hnext; [left; congruence|].
    rewrite Hown in Eo. cbv zeta in Eo.
    destruct (Nat.eqb_spec (length (List.filter
                (fun d => String.eqb (created_date d) (created_date deal)) pre))
                           0); [discriminate|].
    injection Eo as <-. destruct (Z.eqb_spec (Z.of_nat (length (List.filter
                (fun d => String.eqb (created_date d) (created_date deal)) pre)))
                                             0); lia.
  - destruct (JsObject.inherited (created_date deal)) eqn:Ei; [discriminate|].
    intros [= <-]. apply Hnext; [right; now apply inherited_proto|].
    rewrite Hown in Eo. cbv zeta in Eo.
    destruct (Nat.eqb_spec (length (List.filter
                (fun d => String.eqb (created_date d) (created_date deal)) pre))
                           0) as [->|]; [reflexivity | discriminate].
Qed.

Lemma rowsByDate_fold_counted l :
  forall pre acc m,
    counted pre acc ->
    foldl (fun acc deal => acc ← acc; rowsByDate_step acc deal) (Some acc) l
    = Some m ->
    counted (pre ++ l) m.
Proof.
  induction l as [|deal l IH]; intros pre acc m Hacc Hm; cbn in Hm.
  - injection Hm as <-. now rewrite app_nil_r.
  - destruct (rowsByDate_step acc deal) as [acc'|] eqn:Es.
    + replace (pre ++ deal :: l) with ((pre ++ [deal]) ++ l)
        by (now rewrite <- app_assoc).
      eapply IH; [|exact Hm]. eapply rowsByDate_step_counted; eauto.
    + rewrite foldl_None in Hm by reflexivity. discriminate.
Qed.

(** The sample page counts the rows of a date. *)
Lemma rowsByDate_rows select deals m date :
  rowsByDate select deals = Some m ->
  count_at m date = Z.of_nat (length (rows_on select deals date)).
Proof.
  intros Hm. unfold rowsByDate in Hm.
  pose proof (rowsByDate_fold_counted _ [] [] m (fun _ => eq_refl) Hm) as Hc.
  unfold count_at, rows_on. rewrite (Hc date). cbn [app]. cbv zeta.
  rewrite filter_filter_andb.
  destruct (Nat.eqb_spec (length (List.filter
              (fun x => select x && String.eqb (created_date x) date) deals)) 0)
    as [->|]; reflexivity.
Qed.

Lemma NoDup_map_filter {A B} (f : A -> B) (p : A -> bool) l :
  NoDup (map f l) -> NoDup (map f (List.filter p l)).
Proof.
  induction l as [|x l IH]; cbn; [constructor|].
  intros [Hx Hl]%NoDup_cons. destruct (p x); cbn; [|auto].
  apply NoDup_cons. split; [|auto].
  intros Hin. apply Hx. apply list_elem_of_In in Hin. apply list_elem_of_In.
  apply in_map_iff in Hin as (y & <- & Hy). apply List.filter_In in Hy as [Hy _].
  now apply in_map.
Qed.
End RowCountFacts.

(** ** The weekly groups *)

Section WeeklyGroupFacts.
Import BrokerPerformanceAnalysis Stated.
Context `{Host}.

Lemma record_week_deal_ok key deal w :
  deal_keyed key deal ->
  week_group_ok (key, w) -> week_group_ok (key, record_week_deal deal w).
Proof.
  intros Hdeal (Hkey & Hdeals & Htotal & Hcounts).
  pose proof (isSettled_isConverted deal) as Hsc.
  unfold week_group_ok, record_week_deal.
  destruct (isSettled deal), (isConverted deal); cbn;
    (split; [exact Hkey|]);
    (split; [apply Forall_app; split; [exact Hdeals | now constructor]|]);
    rewrite ?length_app; cbn; lia.
Qed.

Lemma weeklyGroups_step_ok acc deal acc' :
  Forall week_group_ok acc ->
  weeklyGroups_step acc deal = Returns acc' ->
  Forall week_group_ok acc'.
Proof.
  intros Hacc. unfold weeklyGroups_step.
  destruct (latest_date deal) as [s|] eqn:Es; [|now intros [= <-]].
  destruct (JsString.truthy s); cbn [negb]; [|now intros [= <-]].
  destruct (JsDate.getTime (JsDate.of_string s)); [|now intros [= <-]].
  intros Hr. apply bind_Returns in Hr as (weekKey & Hkey & Hr).
  assert (Hdeal : deal_keyed weekKey deal) by (exists s; auto).
  revert Hr. cbv zeta.
  assert (Hstep : forall acc1 : JsObject.t Week.t,
             Forall week_group_ok acc1 ->
             match JsObject.get acc1 weekKey with
             | JsObject.Own w =>
                 Returns (JsObject.set acc1 weekKey (record_week_deal deal w))
             | _ => Throws TypeError
             end = Returns acc' ->
             Forall week_group_ok acc').
  { intros acc1 Hacc1.
    destruct (JsObject.get acc1 weekKey) as [w| |] eqn:E; try discriminate.
    intros [= <-]. apply set_Forall; [exact Hacc1|].
    apply record_week_deal_ok; [exact Hdeal|].
    apply get_Own_In in E.
    rewrite List.Forall_forall in Hacc1. exact (Hacc1 _ E). }
  destruct (JsObject.get acc weekKey) eqn:E0.
  - apply (Hstep acc Hacc).
  - rewrite E0. discriminate.
  - apply Hstep. apply set_Forall; [exact Hacc|].
    unfold week_group_ok, new_week; cbn.
    split; [exact Hkey|]. split; [constructor | lia].
Qed.

(** Every weekly group holds the deals of its week and counts them. *)
Lemma weeklyGroups_ok brokerDeals groups :
  weeklyGroups brokerDeals = Returns groups -> Forall week_group_ok groups.
Proof.
  apply (reduce_invariant (fun acc => Forall week_group_ok acc)).
  - intros acc x acc'. apply weeklyGroups_step_ok.
  - constructor.
Qed.
End WeeklyGroupFacts.

(** ** The claim on week bucketing *)

Section WeekClaims.
Import JsDate BrokerPerformanceAnalysis Stated.

(** In local time the week of the instant that a deal date reads as
    starts on the Monday, at local midnight, that is at most six days
    before it; a Sunday goes back six days. The key of a weekly group is
    the formatted UTC date of that start, two dates have the same key
    exactly when they have the same week start, and every deal of a group
    has the key of the group. For the date 2024-01-07 the local Monday is
    2024-01-01 in every host, and the key is ["2024-01-01"] in a UTC
    host. *)
Lemma week_starts_on_monday `{Host} (s : string) (tv ws : Z) :
  of_string s = Some tv ->
  week_start (of_string s) = Some ws ->
  WeekDay (LocalTime ws) = 1
  /\ TimeWithinDay (LocalTime ws) = 0
  /\ Day (LocalTime ws) <= Day (LocalTime tv) <= Day (LocalTime ws) + 6
  /\ (WeekDay (LocalTime tv) = 0 ->
      Day (LocalTime ws) = Day (LocalTime tv) - 6)
  /\ week_key (Some ws) = Returns (ISODate ws)
  /\ (forall s' tv' ws',
        of_string s' = Some tv' ->
        week_start (of_string s') = Some ws' ->
        week_key (Some ws') = week_key (Some ws) <-> ws' = ws)
  /\ (forall brokerDeals groups,
        weeklyGroups brokerDeals = Returns groups ->
        Forall week_group_ok groups)
  /\ (forall tza,
        - msPerDay < tza < msPerDay ->
        let host := iso_host tza in
        exists monday,
          week_start (H := host) (of_string (H := host) "2024-01-07")
          = Some monday
          /\ civil_from_days (Day (LocalTime (H := host) monday)) = (2024, 1, 1))
  /\ week_key (week_start (H := iso_host 0)
                          (of_string (H := iso_host 0) "2024-01-07"))
     = Returns "2024-01-01".
Proof.
  intros Hs Hw. rewrite Hs in Hw.
  destruct (week_start_monday _ _ Hw) as (Hmon & Hmid & Hback & Hsun).
  repeat (split; [assumption|]).
  split; [apply week_key_date|]. split; [|split; [|split]].
  - intros s' tv' ws' Hs' Hw'. rewrite Hs' in Hw'. split.
    + now apply (week_key_inj tv tv').
    + now intros ->.
  - intros brokerDeals groups. apply weeklyGroups_ok.
  - intros tza Htza. now apply week_start_2024_01_07.
  - reflexivity.
Qed.

(** C6. The week a deal is put in depends on the offset of local time:
    the date is read as midnight UTC, its weekday and the Monday before it
    are taken in local time, and the key is the UTC date of that local
    midnight. Five hours west of Greenwich the deals dated Sunday
    2024-01-07 and Monday 2024-01-08 fall in one group, that of
    2024-01-01; ten hours east they fall in two groups whose keys are the
    Sundays 2023-12-31 and 2024-01-07; in a UTC host they fall in the
    weeks of Monday 2024-01-01 and Monday 2024-01-08. *)
Theorem week_of_a_date_shifts_with_the_host :
  (exists groups,
      weeklyGroups (H := iso_host (- 18000000)) Samples.sunday_and_monday
      = Returns groups
      /\ map (fun e => (fst e, map deal_id (Week.deals (snd e)))) groups
         = [("2024-01-01", ["1"; "2"])])
  /\ (exists groups,
         weeklyGroups (H := iso_host 36000000) Samples.sunday_and_monday
         = Returns groups
         /\ map (fun e => (fst e, map deal_id (Week.deals (snd e)))) groups
            = [("2023-12-31", ["1"]); ("2024-01-07", ["2"])])
  /\ (exists groups,
         weeklyGroups (H := iso_host 0) Samples.sunday_and_monday
         = Returns groups
         /\ map (fun e => (fst e, map deal_id (Week.deals (snd e)))) groups
            = [("2024-01-01", ["1"]); ("2024-01-08", ["2"])]).
Proof.
  split; [|split]; eexists; (split; [vm_compute; reflexivity|]);
    vm_compute; reflexivity.
Qed.
End WeekClaims.


(** ** The weekly threshold chart *)

Section ThresholdChartFacts.
Import BrokerPerformanceAnalysis JsNumber Stated.

Lemma fold_left_total {A} (f : A -> Q) l a :
  (fold_left (fun acc w => acc + f w) l a == a + total (map f l))%Q.
Proof.
  revert a. induction l as [|x l IH]; intros a; cbn.
  - unfold total; cbn. lra.
  - rewrite IH. unfold total; cbn. lra.
Qed.

Lemma sum_total {A} (f : A -> Q) l : (sum f l == total (map f l))%Q.
Proof. unfold sum. rewrite fold_left_total. lra. Qed.

Lemma sumZ_total {A} (f : A -> Z) l :
  sumZ f l = fold_right Z.add 0 (map f l).
Proof.
  unfold sumZ.
  assert (Hfold : forall a,
             fold_left (fun acc w => acc + f w) l a
             = a + fold_right Z.add 0 (map f l)).
  { induction l as [|x l IH]; intros a; cbn; [lia|]. rewrite IH. lia. }
  rewrite Hfold. lia.
Qed.




(** The chart is the category of the weeks below the threshold, if any,
    followed by the category of the other weeks, if any. *)
Lemma threshold_chart_cases threshold weeks :
  let above := List.filter WeekRow.isAboveThreshold weeks in
  let below :=
    List.filter (fun w => negb (WeekRow.isAboveThreshold w)) weeks in
  threshold_chart threshold weeks
  = match below with
    | [] => []
    | _ => [category_of ("< " +:+ JsString.of_Z threshold)
                        (average WeekRow.rate below) below]
    end
    ++ match above with
       | [] => []
       | _ => [category_of (">= " +:+ JsString.of_Z threshold)
                           (average WeekRow.rate above) above]
       end.
Proof.
  intros above below. unfold threshold_chart. fold above. fold below.
  destruct below, above; reflexivity.
Qed.

Lemma week_row_week_row_ok mode threshold entry :
  week_row_ok mode threshold (week_row mode threshold entry).
Proof. unfold week_row_ok, week_row; cbn. split; reflexivity. Qed.

Lemma chartData_weeks `{Host} filteredDeals selectedBroker mode threshold chart :
  chartData filteredDeals selectedBroker mode threshold = Returns chart ->
  exists weeks,
    weekly_rows filteredDeals selectedBroker mode threshold weeks
    /\ chart = threshold_chart threshold weeks
    /\ Forall (week_row_ok mode threshold) weeks.
Proof.
  unfold chartData, weekly_rows.
  destruct (String.eqb_spec selectedBroker "all") as [Hall|Hall]; cbn [orb].
  { intros [= <-]. exists []. split; [left; auto|]. split; [reflexivity | constructor]. }
  destruct filteredDeals as [|d0 filteredDeals']; cbn [length Nat.eqb].
  { intros [= <-]. exists []. split; [left; auto|]. split; [reflexivity | constructor]. }
  destruct (List.filter _ (d0 :: filteredDeals')) as [|deal brokerDeals] eqn:Eb;
    cbn [length Nat.eqb].
  { intros [= <-]. exists []. split; [left; auto|]. split; [reflexivity | constructor]. }
  intros Hc. apply bind_Returns in Hc as (groups & Hg & [= <-]).
  exists (weeklyData mode threshold groups).
  split; [right; exists groups; split; [exact Hg | reflexivity]|].
  split; [reflexivity|].
  unfold weeklyData. apply List.Forall_map, List.Forall_forall.
  intros entry _. apply week_row_week_row_ok.
Qed.
End ThresholdChartFacts.

Section ThresholdChartClaims.
Import BrokerPerformanceAnalysis JsNumber Stated.


End ThresholdChartClaims.

(** ** Averages of rates *)

Section AverageFacts.
Import JsNumber Stated.

Lemma total_bounds (lo hi : Q) (l : list Q) :
  Forall (fun x => lo <= x /\ x <= hi)%Q l ->
  (inject_Z (Z.of_nat (length l)) * lo <= total l
   /\ total l <= inject_Z (Z.of_nat (length l)) * hi)%Q.
Proof.
  induction 1 as [|x l [Hlo Hhi] Hl [IHlo IHhi]].
  - change (inject_Z (Z.of_nat (length (@nil Q)))) with 0%Q.
    unfold total; cbn. lra.
  - cbn [length total fold_right]. fold (total l).
    rewrite Nat2Z.inj_succ. unfold Z.succ. rewrite inject_Z_plus.
    change (inject_Z 1) with 1%Q. lra.
Qed.

(** The mean of numbers between two bounds lies between the bounds. *)
Lemma sum_mean_bounds {A} (f : A -> Q) (lo hi : Q) (l : list A) :
  l <> [] ->
  Forall (fun a => lo <= f a /\ f a <= hi)%Q l ->
  (lo <= sum f l / inject_Z (Z.of_nat (length l))
   /\ sum f l / inject_Z (Z.of_nat (length l)) <= hi)%Q.
Proof.
  intros Hne Hl. rewrite sum_total.
  assert (Hmap : Forall (fun x => lo <= x /\ x <= hi)%Q (map f l))
    by (now apply List.Forall_map).
  apply total_bounds in Hmap. rewrite length_map in Hmap.
  assert (Hn : (0 < inject_Z (Z.of_nat (length l)))%Q).
  { change 0%Q with (inject_Z 0). rewrite <- Zlt_Qlt.
    destruct l; [contradiction | cbn [length]; lia]. }
  set (n := inject_Z (Z.of_nat (length l))) in *.
  set (t := total (map f l)) in *.
  split.
  - apply Qle_shift_div_l; [exact Hn | lra].
  - apply Qle_shift_div_r; [exact Hn | lra].
Qed.

Lemma filter_length_le {A} (p : A -> bool) (l : list A) :
  (length (List.filter p l) <= length l)%nat.
Proof.
  induction l as [|x l IH]; cbn; [lia|]. destruct (p x); cbn; lia.
Qed.
End AverageFacts.

(** ** The summary cards and badges of the earlier broker page *)

Section BrokerThresholdsSummaryFacts.
Import BrokerPerformanceAnalysis BrokerThresholdsSummary Stated.

(** X1. On the earlier broker page the two counts of brokers that reach a
    threshold never exceed the number of listed brokers, the two average
    rates of the brokers listed from the deals lie between 0 and 100, and
    without a listed broker both averages are 0. *)
Theorem summary_cards_in_range deals perf (minDealsThreshold : Q)
    (settledRateThreshold conversionRateThreshold : Q) :
  BrokerPerformanceThresholds.brokerPerformance deals = Returns perf ->
  let brokers :=
    BrokerPerformanceThresholds.filteredBrokers perf minDealsThreshold in
  let s :=
    performanceSummary brokers settledRateThreshold conversionRateThreshold in
  Summary.totalBrokers s = Z.of_nat (length brokers)
  /\ 0 <= Summary.aboveSettledThreshold s <= Summary.totalBrokers s
  /\ 0 <= Summary.aboveConversionThreshold s <= Summary.totalBrokers s
  /\ percentage (Summary.avgSettledRate s)
  /\ percentage (Summary.avgConversionRate s)
  /\ (brokers = [] ->
      Summary.avgSettledRate s = 0%Q /\ Summary.avgConversionRate s = 0%Q).
Proof.
  intros Hb brokers s.
  assert (Hrates : Forall rates_in_range brokers).
  { apply List.Forall_forall. intros b Hin.
    apply List.filter_In in Hin as [Hin _]. revert b Hin.
    apply List.Forall_forall.
    apply (brokerPerformance_Forall rates_in_range deals settled);
      [|exact Hb].
    intros name st. apply performance_rates. }
  subst s. unfold performanceSummary.
  cbn [Summary.totalBrokers Summary.aboveSettledThreshold
       Summary.aboveConversionThreshold Summary.avgSettledRate
       Summary.avgConversionRate].
  pose proof (filter_length_le
    (fun b => Qle_bool settledRateThreshold (settledRate b)) brokers).
  pose proof (filter_length_le
    (fun b => Qle_bool conversionRateThreshold (conversionRate b)) brokers).
  split; [reflexivity|]. split; [lia|]. split; [lia|].
  destruct (Z.gtb_spec (Z.of_nat (length brokers)) 0) as [Hpos|Hzero].
  - assert (Hne : brokers <> []) by (intros E; rewrite E in Hpos; cbn in Hpos; lia).
    split; [|split].
    + apply sum_mean_bounds; [exact Hne|].
      eapply List.Forall_impl; [|exact Hrates]. now intros b [Hs _].
    + apply sum_mean_bounds; [exact Hne|].
      eapply List.Forall_impl; [|exact Hrates]. now intros b [_ Hc].
    + intros E. contradiction.
  - unfold percentage. repeat split; lra.
Qed.

Lemma summary_cards_in_range_witness :
  exists perf,
    BrokerPerformanceThresholds.brokerPerformance Samples.three_deals
    = Returns perf
    /\ Summary.totalBrokers
         (performanceSummary
            (BrokerPerformanceThresholds.filteredBrokers perf 1) 20 50)
       = Z.of_nat
           (length (BrokerPerformanceThresholds.filteredBrokers perf 1)).
Proof.
  eexists. split; [reflexivity|].
  exact (proj1 (summary_cards_in_range Samples.three_deals _ 1 20 50
                  eq_refl)).
Defined.

(** X2. The badges of the table agree with the summary cards: twice the
    number of excellent brokers plus the number of good ones is the sum of
    the two cards that count the brokers reaching a threshold, every listed
    broker has one of the three badges, and a broker is excellent exactly
    when both of its rates are shown in green and needs improvement exactly
    when both are shown in red. *)
Theorem badges_match_cards (settledRateThreshold conversionRateThreshold : Q)
    (brokers : list BrokerPerformance) :
  let s :=
    performanceSummary brokers settledRateThreshold conversionRateThreshold in
  let n := fun status =>
    badge_count settledRateThreshold conversionRateThreshold status brokers in
  2 * n "excellent" + n "good"
  = Summary.aboveSettledThreshold s + Summary.aboveConversionThreshold s
  /\ n "excellent" + n "good" + n "needs-improvement" = Summary.totalBrokers s
  /\ forall b,
       let badge :=
         getPerformanceStatus settledRateThreshold conversionRateThreshold b in
       let settledClass := rate_class (settledRate b) settledRateThreshold in
       let conversionClass :=
         rate_class (conversionRate b) conversionRateThreshold in
       (Badge.status badge = "excellent"
        <-> settledClass = "text-green-600 font-semibold"
            /\ conversionClass = "text-green-600 font-semibold")
       /\ (Badge.status badge = "needs-improvement"
           <-> settledClass = "text-red-600"
               /\ conversionClass = "text-red-600").
Proof.
  cbv zeta. split; [|split].
  - unfold badge_count, performanceSummary, getPerformanceStatus; cbn.
    induction brokers as [|b brokers IH]; [reflexivity|].
    cbn [List.filter].
    destruct (Qle_bool settledRateThreshold (settledRate b)),
      (Qle_bool conversionRateThreshold (conversionRate b));
      cbn [andb orb Badge.status String.eqb Ascii.eqb Bool.eqb length];
      cbn [length]; lia.
  - unfold badge_count, performanceSummary, getPerformanceStatus; cbn.
    induction brokers as [|b brokers IH]; [reflexivity|].
    cbn [List.filter].
    destruct (Qle_bool settledRateThreshold (settledRate b)),
      (Qle_bool conversionRateThreshold (conversionRate b));
      cbn [andb orb Badge.status String.eqb Ascii.eqb Bool.eqb length];
      cbn [length]; lia.
  - intros b. unfold getPerformanceStatus, rate_class.
    destruct (Qle_bool settledRateThreshold (settledRate b)),
      (Qle_bool conversionRateThreshold (conversionRate b)); cbn;
      repeat split; try discriminate; try reflexivity;
      intros []; discriminate.
Qed.

End BrokerThresholdsSummaryFacts.

(** ** Maxima and minima *)

Section MathFacts.
Import JsMath.

Lemma max_l a b : (a <= max a b)%Q.
Proof.
  unfold max. destruct (Qle_bool a b) eqn:E; [|lra].
  now apply Qle_bool_iff.
Qed.

Lemma max_r a b : (b <= max a b)%Q.
Proof.
  unfold max. destruct (Qle_bool a b) eqn:E; [lra|].
  assert (~ (a <= b)%Q) by (rewrite <- Qle_bool_iff; congruence). lra.
Qed.

Lemma min_l a b : (min a b <= a)%Q.
Proof.
  unfold min. destruct (Qle_bool a b) eqn:E; [lra|].
  assert (~ (a <= b)%Q) by (rewrite <- Qle_bool_iff; congruence). lra.
Qed.

Lemma min_r a b : (min a b <= b)%Q.
Proof.
  unfold min. destruct (Qle_bool a b) eqn:E; [|lra].
  now apply Qle_bool_iff.
Qed.

(** [Math.max(...)] is at least, and [Math.min(...)] at most, every
    argument. *)
Lemma max_of_ge x l : (x <= max_of x l)%Q /\ Forall (fun v => v <= max_of x l)%Q l.
Proof.
  unfold max_of. revert x. induction l as [|y l IH]; intros x; cbn.
  - split; [lra | constructor].
  - destruct (IH (max x y)) as [Hx Hl]. split; [|constructor; [|exact Hl]].
    + pose proof (max_l x y). lra.
    + pose proof (max_r x y). lra.
Qed.

Lemma min_of_le x l : (min_of x l <= x)%Q /\ Forall (fun v => min_of x l <= v)%Q l.
Proof.
  unfold min_of. revert x. induction l as [|y l IH]; intros x; cbn.
  - split; [lra | constructor].
  - destruct (IH (min x y)) as [Hx Hl]. split; [|constructor; [|exact Hl]].
    + pose proof (min_l x y). lra.
    + pose proof (min_r x y). lra.
Qed.

Lemma percent_percentage count denominator :
  0 <= count <= denominator ->
  Stated.percentage (percent count denominator).
Proof.
  intros Hc. unfold percent.
  destruct (Z.gtb_spec denominator 0).
  - apply ratio_percentage; lia.
  - unfold Stated.percentage. lra.
Qed.
End MathFacts.

(** ** The axes and the summary of the lead sources page *)

Section LeadSourcesSummaryFacts.
Import LeadSourcesAnalysis LeadSourcesSummary JsMath Stated.

Lemma axis_domain_bounds series :
  (0 <= fst (axis_domain series))%Q
  /\ (fst (axis_domain series) < snd (axis_domain series))%Q
  /\ Forall (fun v => 0 < v -> fst (axis_domain series) <= v
                               /\ v <= snd (axis_domain series))%Q series.
Proof.
  unfold axis_domain.
  set (values := List.filter (fun v => negb (Qle_bool v 0)) series).
  assert (Hvalues : Forall (fun v => 0 < v)%Q values).
  { apply List.Forall_forall. intros v [_ Hv]%List.filter_In.
    destruct (Qle_bool v 0) eqn:E; [discriminate|].
    assert (~ (v <= 0)%Q) by (rewrite <- Qle_bool_iff; congruence). lra. }
  assert (Hin : forall v, In v series -> (0 < v)%Q -> In v values).
  { intros v Hv Hpos. apply List.filter_In. split; [exact Hv|].
    destruct (Qle_bool v 0) eqn:E; [|reflexivity].
    apply Qle_bool_iff in E. lra. }
  cbv zeta.
  set (maxValue := match values with v :: vs => max_of v vs | [] => 1%Q end).
  set (minValue := match values with v :: vs => min_of v vs | [] => 0%Q end).
  assert (Hmm : (0 < maxValue)%Q /\ (minValue <= maxValue)%Q
                /\ Forall (fun v => minValue <= v /\ v <= maxValue)%Q values).
  { subst maxValue minValue.
    destruct values as [|v vs]; [repeat split; [lra..|constructor]|].
    inversion Hvalues as [|? ? Hv Hvs]; subst.
    destruct (max_of_ge v vs) as [Hx Hl], (min_of_le v vs) as [Hx' Hl'].
    split; [lra|]. split; [lra|].
    constructor; [split; assumption|].
    rewrite List.Forall_forall in *. intros w Hw. split; auto. }
  destruct Hmm as (Hmax & Hminmax & Hbetween).
  set (padding := max ((maxValue - minValue) * (1 # 10))%Q
                      (maxValue * (5 # 100))%Q).
  assert (Hpad : (0 < padding)%Q).
  { pose proof (max_r ((maxValue - minValue) * (1 # 10))%Q
                      (maxValue * (5 # 100))%Q).
    fold padding in H. lra. }
  cbn [fst snd].
  pose proof (max_l 0 (minValue - padding)%Q) as H0.
  assert (Hlo : forall v, (0 <= v)%Q -> (minValue <= v)%Q ->
                          (max 0 (minValue - padding) <= v)%Q).
  { intros v Hv Hm. unfold max.
    destruct (Qle_bool 0 (minValue - padding)); lra. }
  split; [exact H0|]. split.
  - unfold max. destruct (Qle_bool 0 (minValue - padding)); lra.
  - apply List.Forall_forall. intros v Hv Hpos.
    rewrite List.Forall_forall in Hbetween.
    destruct (Hbetween v (Hin v Hv Hpos)) as [Hge Hle].
    split; [apply Hlo; lra | lra].
Qed.

(** X3. The two axes of the chart of the lead sources page start at 0 or
    above and end above their start, and every positive value of a series
    lies on the axis of that series; without points both axes run from 0
    to 10. *)
Theorem axes_hold_the_series (chartData : list ChartDataPoint) :
  let domains := yAxisDomains chartData in
  let left := Domains.leftDomain domains in
  let right := Domains.rightDomain domains in
  (0 <= fst left < snd left)%Q
  /\ (0 <= fst right < snd right)%Q
  /\ Forall (fun p =>
               (0 < settledDeals30DayAvg p ->
                fst left <= settledDeals30DayAvg p <= snd left)
               /\ (0 < rednoteDeals30DayAvg p ->
                   fst right <= rednoteDeals30DayAvg p <= snd right))%Q
            chartData
  /\ (chartData = [] -> left = (0%Q, 10%Q) /\ right = (0%Q, 10%Q)).
Proof.
  cbv zeta. unfold yAxisDomains.
  destruct chartData as [|p chartData]; cbn [length Nat.eqb].
  - cbn. repeat split; try lra. constructor.
  - set (points := p :: chartData).
    destruct (axis_domain_bounds (map settledDeals30DayAvg points))
      as (Hl0 & Hl1 & Hl).
    destruct (axis_domain_bounds (map rednoteDeals30DayAvg points))
      as (Hr0 & Hr1 & Hr).
    cbn [Domains.leftDomain Domains.rightDomain].
    split; [split; assumption|]. split; [split; assumption|].
    split; [|discriminate].
    rewrite List.Forall_map in Hl, Hr.
    rewrite List.Forall_forall in *. intros q Hq. split.
    + exact (Hl q Hq).
    + exact (Hr q Hq).
Qed.

Lemma count_range p deals : 0 <= count p deals <= Z.of_nat (length deals).
Proof. unfold count. pose proof (filter_length_le p deals). lia. Qed.

Lemma count_andb_le p q deals : count (fun d => p d && q d) deals <= count p deals.
Proof.
  unfold count. induction deals as [|d deals IH]; cbn; [lia|].
  destruct (p d), (q d); cbn [andb length]; lia.
Qed.

Lemma fold_left_Qplus_nonneg (l : list Q) (a : Q) :
  (0 <= a)%Q -> Forall (fun v => 0 <= v)%Q l -> (0 <= fold_left Qplus l a)%Q.
Proof.
  revert a. induction l as [|v l IH]; intros a Ha Hl; cbn; [exact Ha|].
  inversion Hl; subst. apply IH; [lra | assumption].
Qed.

(** The deals of no source, less the deals of both. *)
Lemma other_leads deals :
  Z.of_nat (length deals) - count is_rednote deals - count is_lifex deals
  = count no_source deals - count both_sources deals.
Proof.
  unfold count, no_source, both_sources.
  induction deals as [|d deals IH]; cbn [List.filter length]; [reflexivity|].
  destruct (is_rednote d), (is_lifex d); cbn [negb andb length]; lia.
Qed.

(** X4. In the summary of the lead sources page the overall conversion
    rate, the shares of Rednote and of LifeX and the conversion rates of
    these two sources lie between 0 and 100, and the average deal value is
    not negative. The number of other leads is the number of deals of
    neither source less the number of deals attributed to both. *)
Theorem summary_metrics_in_range (deals : list Deal) :
  let m := summaryMetrics deals in
  Metrics.totalLeads m = Z.of_nat (length deals)
  /\ percentage (Metrics.conversionRate m)
  /\ percentage (Metrics.rednotePercentage m)
  /\ percentage (Metrics.lifexPercentage m)
  /\ percentage (Metrics.rednoteConversionRate m)
  /\ percentage (Metrics.lifexConversionRate m)
  /\ (0 <= Metrics.avgDealValue m)%Q
  /\ Metrics.otherLeads m
     = count no_source deals - count both_sources deals.
Proof.
  cbv zeta. unfold summaryMetrics.
  destruct deals as [|d deals]; cbn [length Nat.eqb].
  - cbn. unfold percentage. repeat split; lra.
  - set (all := d :: deals).
    cbn [Metrics.totalLeads Metrics.conversionRate Metrics.avgDealValue
         Metrics.rednoteLeads Metrics.lifexLeads Metrics.otherLeads
         Metrics.settledDeals Metrics.rednotePercentage
         Metrics.lifexPercentage Metrics.rednoteConversionRate
         Metrics.lifexConversionRate Metrics.otherConversionRate].
    change (S (length deals)) with (length all).
    split; [reflexivity|].
    split; [apply percent_percentage, count_range|].
    split; [apply percent_percentage, count_range|].
    split; [apply percent_percentage, count_range|].
    split.
    { apply percent_percentage. split; [apply count_range|].
      apply count_andb_le. }
    split.
    { apply percent_percentage. split; [apply count_range|].
      apply count_andb_le. }
    split; [|apply other_leads].
    set (values := map deal_value _).
    assert (Hvalues : Forall (fun v => 0 <= v)%Q values).
    { subst values. apply List.Forall_map, List.Forall_forall.
      intros x [_ Hx]%List.filter_In.
      apply andb_true_iff in Hx as [_ Hx].
      destruct (Qle_bool (deal_value x) 0) eqn:E; [discriminate|].
      assert (~ (deal_value x <= 0)%Q)
        by (rewrite <- Qle_bool_iff; congruence).
      lra. }
    destruct (Nat.ltb_spec 0 (length values)); [|lra].
    apply Qle_shift_div_l.
    + change 0%Q with (inject_Z 0). rewrite <- Zlt_Qlt. lia.
    + rewrite Qmult_0_l. apply fold_left_Qplus_nonneg; [lra | exact Hvalues].
Qed.

(** X5. When no deal is attributed to both Rednote and LifeX, the three
    sources partition the leads: the number of other leads is the number
    of deals of neither source, and the conversion rate of the other
    leads lies between 0 and 100. *)
Theorem sources_partition_the_leads (deals : list Deal) :
  Forall (fun deal => both_sources deal = false) deals ->
  let m := summaryMetrics deals in
  Metrics.otherLeads m = count no_source deals
  /\ Metrics.rednoteLeads m + Metrics.lifexLeads m + Metrics.otherLeads m
     = Metrics.totalLeads m
  /\ percentage (Metrics.otherConversionRate m).
Proof.
  intros Hboth. cbv zeta.
  assert (Hnone : count both_sources deals = 0).
  { unfold count. induction Hboth as [|d deals Hd Hdeals IH]; cbn; [reflexivity|].
    rewrite Hd. exact IH. }
  pose proof (other_leads deals) as Hother. rewrite Hnone in Hother.
  unfold summaryMetrics.
  destruct deals as [|d deals]; cbn [length Nat.eqb].
  - cbn. unfold percentage. repeat split; lra.
  - set (all := d :: deals) in *.
    cbn [Metrics.totalLeads Metrics.rednoteLeads Metrics.lifexLeads
         Metrics.otherLeads Metrics.otherConversionRate].
    change (S (length deals)) with (length all).
    split; [lia|]. split; [lia|].
    rewrite Hother, Z.sub_0_r.
    apply percent_percentage. split; [apply count_range|].
    apply (count_andb_le no_source is_settled).
Qed.

Lemma sources_partition_the_leads_witness :
  Metrics.otherLeads (summaryMetrics Samples.uploaded_twice)
  = count no_source Samples.uploaded_twice.
Proof.
  apply (sources_partition_the_leads Samples.uploaded_twice).
  repeat constructor.
Defined.

Lemma percent_le a b n :
  0 < n -> (percent a n <= percent b n)%Q <-> a <= b.
Proof.
  intros Hn. unfold percent.
  destruct (Z.gtb_spec n 0); [|lia].
  assert (Hn' : (0 < inject_Z n)%Q)
    by (change 0%Q with (inject_Z 0); now rewrite <- Zlt_Qlt).
  assert (Hinv : (0 < / inject_Z n)%Q) by (now apply Qinv_lt_0_compat).
  unfold Qdiv. rewrite Zle_Qle.
  set (x := inject_Z a). set (y := inject_Z b). set (k := (/ inject_Z n)%Q) in *.
  split; intros Hxy.
  - assert (Hk : (x * k <= y * k)%Q) by lra.
    now apply Qmult_le_r in Hk.
  - assert (Hk : (x * k <= y * k)%Q) by (now apply Qmult_le_r).
    lra.
Qed.

(** X6. The "Best Source" card names Rednote exactly when there are more
    Rednote leads than LifeX leads and LifeX otherwise, also on a tie and
    without deals; the share under the name is the share of the named
    source. *)
Theorem best_source_has_more_leads (deals : list Deal) :
  let m := summaryMetrics deals in
  (bestSource m = "Rednote" <-> Metrics.lifexLeads m < Metrics.rednoteLeads m)
  /\ (bestSource m = "LifeX" <-> Metrics.rednoteLeads m <= Metrics.lifexLeads m)
  /\ bestSourceShare m
     = if String.eqb (bestSource m) "Rednote"
       then Metrics.rednotePercentage m else Metrics.lifexPercentage m.
Proof.
  cbv zeta.
  assert (Hle : Qle_bool (Metrics.rednotePercentage (summaryMetrics deals))
                         (Metrics.lifexPercentage (summaryMetrics deals))
                = (Metrics.rednoteLeads (summaryMetrics deals)
                   <=? Metrics.lifexLeads (summaryMetrics deals))).
  { unfold summaryMetrics.
    destruct deals as [|d deals]; cbn [length Nat.eqb]; [reflexivity|].
    set (all := d :: deals).
    cbn [Metrics.rednoteLeads Metrics.lifexLeads Metrics.rednotePercentage
         Metrics.lifexPercentage].
    change (S (length deals)) with (length all).
    assert (Hn : 0 < Z.of_nat (length all)) by (cbn [all length]; lia).
    pose proof (percent_le (count is_rednote all) (count is_lifex all) _ Hn)
      as Hp.
    destruct (Z.leb_spec (count is_rednote all) (count is_lifex all))
      as [Hc|Hc].
    - apply Qle_bool_iff, Hp, Hc.
    - destruct (Qle_bool _ _) eqn:E; [|reflexivity].
      apply Qle_bool_iff, Hp in E. lia. }
  unfold bestSource, bestSourceShare, max. rewrite Hle.
  destruct (Z.leb_spec (Metrics.rednoteLeads (summaryMetrics deals))
                       (Metrics.lifexLeads (summaryMetrics deals)));
    cbn; repeat split; try discriminate; try reflexivity; try lia;
    intros ?; try lia; try discriminate.
Qed.
End LeadSourcesSummaryFacts.

(** ** Decimal numerals *)

Section NumeralFacts.
Import JsString JsText.

Lemma uint_digits (u : Decimal.uint) :
  Forall (fun c => is_digit c = true)
         (list_ascii_of_string (NilEmpty.string_of_uint u)).
Proof. induction u; cbn; constructor; auto. Qed.

(** The numeral of an integer: an optional minus sign and digits. *)
Lemma of_Z_chars z :
  Forall (fun c => is_digit c = true \/ c = "-"%char)
         (list_ascii_of_string (of_Z z)).
Proof.
  assert (Hu : forall u,
             Forall (fun c => is_digit c = true \/ c = "-"%char)
                    (list_ascii_of_string (NilZero.string_of_uint u))).
  { intros u. destruct u; try (repeat constructor; fail);
      (eapply List.Forall_impl; [|apply uint_digits]; cbv beta; auto). }
  unfold of_Z. destruct (Z.to_int z) as [u|u]; cbn.
  - apply Hu.
  - constructor; [now right | apply Hu].
Qed.

Lemma includes_char s c :
  includes s (String c EmptyString)
  = existsb (Ascii.eqb c) (list_ascii_of_string s).
Proof.
  induction s as [|c' s IH]; [reflexivity|].
  cbn [includes String.prefix list_ascii_of_string existsb].
  rewrite IH. destruct (Ascii.eqb_spec c c') as [->|Hne].
  - destruct (ascii_dec c' c'); [|contradiction].
    now destruct s.
  - destruct (ascii_dec c c'); [contradiction | reflexivity].
Qed.
End NumeralFacts.

(** ** The summary cards and colours of the broker performance page *)

Section BrokerPerformanceSummaryFacts.
Import BrokerPerformanceAnalysis BrokerPerformanceSummary JsString JsText Stated.

Lemma fill_below threshold avg ws :
  fill (category_of ("< " +:+ of_Z threshold) avg ws) = "#dc2626".
Proof. reflexivity. Qed.

Lemma fill_above threshold avg ws :
  fill (category_of (">= " +:+ of_Z threshold) avg ws) = "#16a34a".
Proof.
  unfold fill, category_of. cbn [Category.category].
  rewrite includes_char.
  change (list_ascii_of_string (">= " +:+ of_Z threshold))
    with (">"%char :: "="%char :: " "%char :: list_ascii_of_string (of_Z threshold)).
  cbn [existsb]. change (Ascii.eqb "<" ">") with false.
  change (Ascii.eqb "<" "=") with false. change (Ascii.eqb "<" " ") with false.
  cbn [orb].
  assert (E : existsb (Ascii.eqb "<") (list_ascii_of_string (of_Z threshold))
              = false); [|now rewrite E].
  pose proof (of_Z_chars threshold) as Hc.
  induction Hc as [|c l Hc Hl IH]; [reflexivity|].
  cbn [existsb]. rewrite IH, orb_false_r.
  destruct (Ascii.eqb_spec "<"%char c) as [<-|]; [|reflexivity].
  destruct Hc; discriminate.
Qed.

(** X7. Every bar of the weekly chart is either the category of the weeks
    below the threshold, drawn in red, or the category of the weeks at or
    above it, drawn in green. *)
Theorem bars_red_below_green_above `{Host} filteredDeals
    (selectedBroker : string) (mode : Mode) (threshold : Z) chart :
  chartData filteredDeals selectedBroker mode threshold = Returns chart ->
  Forall (fun c =>
            Category.category c = "< " +:+ of_Z threshold
            /\ fill c = "#dc2626"
            \/ Category.category c = ">= " +:+ of_Z threshold
               /\ fill c = "#16a34a") chart.
Proof.
  intros Hc. apply chartData_weeks in Hc as (weeks & _ & -> & _).
  rewrite threshold_chart_cases. cbv zeta.
  apply Forall_app. split.
  - destruct (List.filter _ weeks); constructor; [|constructor].
    left. split; [reflexivity | apply fill_below].
  - destruct (List.filter _ weeks); constructor; [|constructor].
    right. split; [reflexivity | apply fill_above].
Qed.

Lemma bars_red_below_green_above_witness :
  Forall (fun c =>
            Category.category c = "< 20" /\ fill c = "#dc2626"
            \/ Category.category c = ">= 20" /\ fill c = "#16a34a")
         (threshold_chart 20
            (weeklyData settled 20
               [("2024-01-01", record_week_deal
                                 (Samples.deal "1" "A" 100 None
                                    (Some "2024-01-01") (Some "2024-01-07"))
                                 (new_week (Some 1704067200000)))])).
Proof.
  apply (bars_red_below_green_above (H := JsDate.iso_host 0)
           [Samples.deal "1" "A" 100 None (Some "2024-01-01")
                         (Some "2024-01-07")] "A" settled 20).
  vm_compute. reflexivity.
Defined.

(** X8. The threshold set from the number field always lies between 0 and
    60: a number in that range is kept, a smaller one gives 0, a larger one
    60, and a field that does not read as a number gives 0. *)
Theorem threshold_field_is_clamped (value : option Q) :
  (0 <= threshold_of_input value <= 60)%Q
  /\ (forall q, value = Some q -> (0 <= q <= 60)%Q ->
                (threshold_of_input value == q)%Q)
  /\ (forall q, value = Some q -> (q <= 0)%Q ->
                (threshold_of_input value == 0)%Q)
  /\ (forall q, value = Some q -> (60 <= q)%Q ->
                (threshold_of_input value == 60)%Q)
  /\ (value = None -> threshold_of_input value = 0%Q).
Proof.
  assert (Hclamp : forall n : Q,
             (0 <= JsMath.min 60 (JsMath.max 0 n) <= 60)%Q
             /\ ((0 <= n <= 60)%Q -> (JsMath.min 60 (JsMath.max 0 n) == n)%Q)
             /\ ((n <= 0)%Q -> (JsMath.min 60 (JsMath.max 0 n) == 0)%Q)
             /\ ((60 <= n)%Q -> (JsMath.min 60 (JsMath.max 0 n) == 60)%Q)).
  { intros n. unfold JsMath.min, JsMath.max.
    destruct (Qle_bool 0 n) eqn:E0.
    - apply Qle_bool_iff in E0.
      destruct (Qle_bool 60 n) eqn:E1.
      + apply Qle_bool_iff in E1. repeat split; intros; lra.
      + assert (~ (60 <= n)%Q) by (rewrite <- Qle_bool_iff; congruence).
        repeat split; intros; lra.
    - assert (~ (0 <= n)%Q) by (rewrite <- Qle_bool_iff; congruence).
      change (Qle_bool 60 0) with false. repeat split; intros; lra. }
  assert (Hor : forall q, (JsNumber.or_zero q == q)%Q).
  { intros q. unfold JsNumber.or_zero.
    destruct (Qeq_bool q 0) eqn:E; [|reflexivity].
    apply Qeq_bool_iff in E. now rewrite E. }
  unfold threshold_of_input.
  destruct value as [q|].
  - destruct (Hclamp (JsNumber.or_zero q)) as (Hr & Hin & Hlo & Hhi).
    pose proof (Hor q) as Hq.
    split; [exact Hr|].
    split; [intros ? [= <-] Hrange; rewrite Hin; [exact Hq | rewrite Hq; exact Hrange]|].
    split; [intros ? [= <-] Hrange; apply Hlo; now rewrite Hq|].
    split; [intros ? [= <-] Hrange; apply Hhi; now rewrite Hq|].
    discriminate.
  - split; [exact (proj1 (Hclamp 0%Q))|].
    repeat split; try discriminate.
Qed.
End BrokerPerformanceSummaryFacts.

(** ** Reading numerals back *)

Section ParseIntFacts.
Import JsString JsText.

Lemma radix_prefix_digit c d s acc :
  digit_value c = Some d -> (d <? 10) = true ->
  radix_prefix 10 (String c s) acc
  = radix_prefix 10 s (Some (10 * default 0 acc + d)).
Proof. intros Hc Hd. cbn [radix_prefix]. now rewrite Hc, Hd. Qed.

Ltac digit_step :=
  match goal with
  | |- context [radix_prefix 10 (String ?c ?s) ?acc] =>
      let d := eval vm_compute in (default 0 (digit_value c)) in
      rewrite (radix_prefix_digit c d s acc) by reflexivity
  end.

Lemma radix_prefix_acc (u : Decimal.uint) (p : positive) :
  radix_prefix 10 (NilEmpty.string_of_uint u) (Some (Z.pos p))
  = Some (Z.pos (Pos.of_uint_acc u p)).
Proof.
  revert p.
  induction u; intros p; cbn [NilEmpty.string_of_uint Pos.of_uint_acc];
    [reflexivity|..];
    digit_step; cbn [default from_option id];
    match goal with
    | |- radix_prefix 10 _ (Some ?a) = Some (Z.pos (Pos.of_uint_acc _ ?q)) =>
        replace a with (Z.pos q) by lia
    end; apply IHu.
Qed.

Lemma radix_prefix_uint (u : Decimal.uint) (acc : option Z) :
  default 0 acc = 0 -> u <> Decimal.Nil ->
  radix_prefix 10 (NilEmpty.string_of_uint u) acc
  = Some (Z.of_N (Pos.of_uint u)).
Proof.
  revert acc. induction u; intros acc Hacc Hu;
    cbn [NilEmpty.string_of_uint Pos.of_uint]; [contradiction|..];
    digit_step; rewrite Hacc; cbn [Z.mul Z.add].
  1: { destruct u; try (apply IHu; [reflexivity | discriminate]).
       reflexivity. }
  all: apply radix_prefix_acc.
Qed.

Ltac eval_white_space :=
  repeat match goal with
         | |- context [is_white_space ?c] =>
             let b := eval vm_compute in (is_white_space c) in
             change (is_white_space c) with b
         end.

Lemma parseInt_uint (u : Decimal.uint) :
  u <> Decimal.Nil ->
  parseInt (NilEmpty.string_of_uint u) = Some (Z.of_N (Pos.of_uint u))
  /\ parseInt (String "-" (NilEmpty.string_of_uint u))
     = Some (- Z.of_N (Pos.of_uint u)).
Proof.
  intros Hu. pose proof (radix_prefix_uint u None eq_refl Hu) as Hr.
  unfold parseInt.
  destruct u as [|u|u|u|u|u|u|u|u|u|u]; [contradiction|..];
    cbn [NilEmpty.string_of_uint trimStart] in *.
  1: destruct u; cbn [NilEmpty.string_of_uint] in *.
  all: split; eval_white_space; cbv beta iota; rewrite Hr;
    cbn [mbind option_bind]; f_equal; lia.
Qed.

(** [parseInt] reads the numeral of an integer back. *)
Lemma parseInt_of_Z z : parseInt (of_Z z) = Some z.
Proof.
  unfold of_Z. destruct z as [|p|p]; [reflexivity|..];
    cbn [Z.to_int NilZero.string_of_int];
    pose proof (Unsigned.to_uint_nonnil p) as Hp;
    destruct (parseInt_uint _ Hp) as [Hpos Hneg];
    rewrite DecimalPos.Unsigned.of_to in Hpos, Hneg;
    (replace (NilZero.string_of_uint (Pos.to_uint p))
       with (NilEmpty.string_of_uint (Pos.to_uint p))
       by (destruct (Pos.to_uint p); [contradiction | reflexivity..])).
  - exact Hpos.
  - exact Hneg.
Qed.

Lemma of_Z_inj a b : of_Z a = of_Z b -> a = b.
Proof.
  intros E. apply (f_equal parseInt) in E.
  rewrite !parseInt_of_Z in E. congruence.
Qed.
End ParseIntFacts.

(** ** Arrays without repeats and sorted arrays *)

Section ArrayFacts.

Lemma unique_from (l acc : list string) :
  List.NoDup acc ->
  let r := fold_left (fun acc x => if existsb (String.eqb x) acc then acc
                                   else acc ++ [x]) l acc in
  List.NoDup r /\ forall x, In x r <-> In x acc \/ In x l.
Proof.
  revert acc. induction l as [|y l IH]; intros acc Hacc; cbn [fold_left].
  - split; [exact Hacc|]. intros x. cbn. tauto.
  - destruct (existsb (String.eqb y) acc) eqn:E.
    + destruct (IH acc Hacc) as [Hnd Hin]. split; [exact Hnd|].
      intros x. rewrite Hin. cbn.
      apply existsb_exists in E as (z & Hz & ->%String.eqb_eq).
      split; [tauto|]. intros [H|[<-|H]]; auto.
    + assert (Hy : ~ In y acc).
      { intros Hy. apply not_true_iff_false in E. apply E.
        apply existsb_exists. exists y. split; [exact Hy|].
        apply String.eqb_refl. }
      assert (Hacc' : List.NoDup (acc ++ [y])).
      { apply List.NoDup_app; [exact Hacc | repeat constructor; intros []|].
        intros a Ha [<-|[]]. contradiction. }
      destruct (IH _ Hacc') as [Hnd Hin]. split; [exact Hnd|].
      intros x. rewrite Hin, in_app_iff. cbn. tauto.
Qed.

(** [Array.from(new Set(l))] holds the strings of [l], once each. *)
Lemma unique_NoDup l : List.NoDup (JsArray.unique l).
Proof. apply (unique_from l []). constructor. Qed.

Lemma unique_In l x : In x (JsArray.unique l) <-> In x l.
Proof.
  destruct (unique_from l [] (List.NoDup_nil _)) as [_ Hin].
  unfold JsArray.unique. rewrite Hin. cbn. tauto.
Qed.

(** Sorting the images of a list under a function that respects the
    comparison. *)
Lemma Array_sort_map {A B} (f : A -> B) (cmpA : A -> A -> Q)
    (cmpB : B -> B -> Q) (l : list A) :
  (forall a b, Qle_bool (cmpB (f a) (f b)) 0 = Qle_bool (cmpA a b) 0) ->
  Array_sort cmpB (map f l) = map f (Array_sort cmpA l).
Proof.
  intros Hcmp. induction l as [|x l IH]; [reflexivity|].
  cbn [map Array_sort fold_right]. fold (Array_sort cmpB (map f l)).
  fold (Array_sort cmpA l). rewrite IH.
  generalize (Array_sort cmpA l). intros s.
  induction s as [|y s IHs]; [reflexivity|].
  cbn [map sort_insert]. rewrite Hcmp.
  destruct (Qle_bool (cmpA x y) 0); [reflexivity|].
  cbn [map]. now rewrite IHs.
Qed.

Lemma Array_sort_ext {A} (cmp cmp' : A -> A -> Q) (l : list A) :
  (forall a b, Qle_bool (cmp a b) 0 = Qle_bool (cmp' a b) 0) ->
  Array_sort cmp l = Array_sort cmp' l.
Proof.
  intros Hcmp. rewrite <- (map_id l) at 1.
  rewrite (Array_sort_map id cmp' cmp) by (intros; apply Hcmp).
  apply map_id.
Qed.

Lemma NoDup_map_injective {A B} (f : A -> B) (l : list A) :
  (forall a b, f a = f b -> a = b) -> List.NoDup l -> List.NoDup (map f l).
Proof.
  intros Hf. induction 1 as [|x l Hx Hl IH]; cbn; constructor; [|exact IH].
  intros (y & E & Hy)%in_map_iff. apply Hf in E. now subst.
Qed.

Lemma perm_In_iff {A} (l l' : list A) (x : A) :
  Permutation l l' -> In x l <-> In x l'.
Proof.
  intros Hp. split; apply Permutation_in; [exact Hp | now symmetry].
Qed.

Lemma StronglySorted_weaken {A} (R R' : A -> A -> Prop) (l : list A) :
  (forall a b, R a b -> R' a b) -> StronglySorted R l -> StronglySorted R' l.
Proof.
  intros HR. induction 1 as [|x l Hs IH Hx]; constructor; [exact IH|].
  eapply List.Forall_impl; [|exact Hx]. apply HR.
Qed.

(** A list without repeats that never increases decreases. *)
Lemma descending_strict (l : list Z) :
  List.NoDup l -> StronglySorted (fun a b => b <= a) l ->
  StronglySorted (fun a b => b < a) l.
Proof.
  intros Hnd Hs. induction Hs as [|x l Hs IH Hx]; [constructor|].
  inversion Hnd as [|? ? Hin Hnd']; subst.
  constructor; [auto|].
  rewrite List.Forall_forall in *. intros y Hy.
  specialize (Hx y Hy). assert (y <> x) by congruence. lia.
Qed.
End ArrayFacts.

(** ** The years offered by the broker performance page *)

Section AvailableYearsFacts.
Import JsDate BrokerPerformanceAnalysis BrokerPerformanceSummary.
Import JsString JsText.
Context `{Host}.

(** The year that a deal contributes: the local year of its date, when
    the date reads as a time. *)
Lemma year_of_Some deal y :
  year_of deal = Some y
  <-> exists s tv,
        latest_date deal = Some s /\ truthy s = true
        /\ of_string s = Some tv
        /\ y = of_Z (YearFromTime (LocalTime tv)).
Proof.
  unfold year_of. split.
  - destruct (latest_date deal) as [s|]; [|discriminate].
    destruct (truthy s) eqn:Et; [|discriminate].
    destruct (of_string s) as [tv|] eqn:Es; [|discriminate].
    cbn [getFullYear mbind option_bind year_toString].
    rewrite parseInt_of_Z. intros [= <-]. exists s, tv. auto.
  - intros (s & tv & -> & -> & Es & ->). rewrite Es.
    cbn [getFullYear mbind option_bind year_toString].
    now rewrite parseInt_of_Z.
Qed.

Lemma year_of_number deal y :
  year_of deal = Some y -> exists n, y = of_Z n.
Proof. intros (s & tv & _ & _ & _ & ->)%year_of_Some. eauto. Qed.

Lemma newest_first_numbers a b :
  Qle_bool (newest_first (of_Z a) (of_Z b)) 0
  = Qle_bool (inject_Z b - inject_Z a) 0.
Proof.
  unfold newest_first. rewrite !parseInt_of_Z.
  assert (H1 : Qle_bool (inject_Z (b - a)) 0 = (b <=? a)).
  { destruct (Z.leb_spec b a) as [Hab|Hab].
    - apply Qle_bool_iff. change 0%Q with (inject_Z 0).
      rewrite <- Zle_Qle. lia.
    - apply not_true_iff_false. intros E. apply Qle_bool_iff in E.
      change 0%Q with (inject_Z 0) in E. rewrite <- Zle_Qle in E. lia. }
  assert (H2 : Qle_bool (inject_Z b - inject_Z a) 0 = (b <=? a)).
  { destruct (Z.leb_spec b a) as [Hab|Hab].
    - apply Qle_bool_iff. rewrite Zle_Qle in Hab. lra.
    - apply not_true_iff_false. intros E. apply Qle_bool_iff in E.
      assert (Hle : (inject_Z b <= inject_Z a)%Q) by lra.
      rewrite <- Zle_Qle in Hle. lia. }
  congruence.
Qed.

Lemma numerals (l : list string) :
  Forall (fun y => exists n, y = of_Z n) l -> exists ns, l = map of_Z ns.
Proof.
  induction 1 as [|y l [n ->] _ [ns ->]].
  - now exists [].
  - now exists (n :: ns).
Qed.

Lemma availableYears_In deals y :
  In y (availableYears deals) <-> exists deal, In deal deals /\ year_of deal = Some y.
Proof.
  unfold availableYears.
  split.
  - intros Hy. eapply Permutation_in in Hy; [|apply Array_sort_perm].
    apply (proj1 (unique_In _ _)), list_elem_of_In in Hy.
    apply (proj1 (list_elem_of_omap _ _ _)) in Hy.
    destruct Hy as (deal & Hd%list_elem_of_In & Hy). eauto.
  - intros (deal & Hd & Hy).
    eapply Permutation_in; [symmetry; apply Array_sort_perm|].
    apply (proj2 (unique_In _ _)), list_elem_of_In.
    apply (proj2 (list_elem_of_omap _ _ _)).
    exists deal. split; [now apply list_elem_of_In | exact Hy].
Qed.

(** X9. The years offered by the year filter are the local years of the
    deals whose date reads as a time, each offered once, the latest year
    first; a deal without a date, or with a date that does not read as a
    time, offers no year. *)
Theorem available_years_newest_first deals :
  List.NoDup (availableYears deals)
  /\ (forall y,
        In y (availableYears deals)
        <-> exists deal s tv,
              In deal deals /\ latest_date deal = Some s /\ truthy s = true
              /\ of_string s = Some tv
              /\ y = of_Z (YearFromTime (LocalTime tv)))
  /\ exists numbers,
       availableYears deals = map of_Z numbers
       /\ StronglySorted (fun a b => b < a) numbers.
Proof.
  assert (Hnd : List.NoDup (availableYears deals)).
  { unfold availableYears.
    eapply Permutation_NoDup; [symmetry; apply Array_sort_perm|].
    apply unique_NoDup. }
  split; [exact Hnd|]. split.
  - intros y. rewrite availableYears_In. split.
    + intros (deal & Hd & (s & tv & Hy)%year_of_Some).
      exists deal, s, tv. tauto.
    + intros (deal & s & tv & Hd & Hy). exists deal. split; [exact Hd|].
      apply year_of_Some. exists s, tv. exact Hy.
  - unfold availableYears in *.
    destruct (numerals (JsArray.unique (omap year_of deals))) as [ns Ens].
    { apply List.Forall_forall. intros y Hy.
      apply (proj1 (unique_In _ _)), list_elem_of_In in Hy.
      apply (proj1 (list_elem_of_omap _ _ _)) in Hy as (deal & _ & Hy).
      now apply year_of_number in Hy. }
    rewrite Ens in Hnd |- *.
    rewrite (Array_sort_map of_Z (fun a b => inject_Z b - inject_Z a)%Q)
      in Hnd |- * by (intros; apply newest_first_numbers).
    eexists. split; [reflexivity|].
    apply descending_strict.
    + eapply List.NoDup_map_inv. exact Hnd.
    + pose proof (Array_sort_descending inject_Z ns) as Hs.
      eapply StronglySorted_weaken; [|exact Hs].
      cbv beta. intros a b Hab. now rewrite Zle_Qle.
Qed.

(** X10. A year offered by the filter is never ["all"], and selecting it
    for all brokers leaves at least one deal, each of them a deal of that
    year. *)
Theorem offered_year_selects_deals deals y :
  In y (availableYears deals) ->
  y <> "all"
  /\ filteredDeals deals "all" y <> []
  /\ Forall (fun deal => year_of deal = Some y) (filteredDeals deals "all" y).
Proof.
  intros Hy. apply availableYears_In in Hy as (deal & Hd & Hy).
  assert (Hall : y <> "all").
  { intros ->. apply year_of_number in Hy as [n Hn].
    apply (f_equal parseInt) in Hn. rewrite parseInt_of_Z in Hn.
    discriminate. }
  assert (Hm : forall d, year_matches y d = true <-> year_of d = Some y).
  { intros d. unfold year_matches, year_of.
    destruct (latest_date d) as [s|]; [|split; discriminate].
    destruct (truthy s); [|split; discriminate].
    destruct (of_string s) as [tv|];
      cbn [getFullYear mbind option_bind year_toString].
    - rewrite parseInt_of_Z. rewrite String.eqb_eq.
      split; [now intros -> | now intros [= ->]].
    - split; [|discriminate]. intros E%String.eqb_eq. subst y.
      apply year_of_number in Hy as [n Hn].
      apply (f_equal parseInt) in Hn. rewrite parseInt_of_Z in Hn.
      discriminate. }
  unfold filteredDeals. cbn [String.eqb Ascii.eqb Bool.eqb negb].
  destruct (String.eqb_spec y "all") as [E|_]; [contradiction|].
  cbn [negb]. split; [exact Hall|]. split.
  - intros E. assert (Hin : In deal (List.filter (year_matches y) deals))
      by (apply List.filter_In; split; [exact Hd | now apply Hm]).
    rewrite E in Hin. destruct Hin.
  - apply List.Forall_forall. intros d [_ Hdm]%List.filter_In. now apply Hm.
Qed.
End AvailableYearsFacts.

Lemma offered_year_selects_deals_witness :
  BrokerPerformanceAnalysis.filteredDeals (H := JsDate.iso_host 0)
    Samples.three_deals "all" "2024" <> [].
Proof.
  apply (offered_year_selects_deals (H := JsDate.iso_host 0)
           Samples.three_deals "2024").
  vm_compute. left. reflexivity.
Defined.

(** ** The summary cards of the broker performance page *)

Section PerformanceSummaryFacts.
Import JsDate BrokerPerformanceAnalysis BrokerPerformanceSummary.
Import JsString JsText Stated.

Lemma fold_min_In (ts : list Z) (t : Z) :
  In (fold_left Z.min ts t) (t :: ts)
  /\ Forall (fun x => fold_left Z.min ts t <= x) (t :: ts).
Proof.
  revert t. induction ts as [|u ts IH]; intros t; cbn [fold_left].
  - split; [now left | repeat constructor; lia].
  - destruct (IH (Z.min t u)) as [Hin Hle].
    inversion Hle as [|? ? Hm Hts]; subst. split.
    + destruct Hin as [E|Hin]; [|right; right; exact Hin].
      rewrite <- E. destruct (Z.min_spec t u) as [[_ ->]|[_ ->]];
        [left | right; left]; reflexivity.
    + constructor; [lia|]. constructor; [lia | exact Hts].
Qed.

Lemma fold_max_In (ts : list Z) (t : Z) :
  In (fold_left Z.max ts t) (t :: ts)
  /\ Forall (fun x => x <= fold_left Z.max ts t) (t :: ts).
Proof.
  revert t. induction ts as [|u ts IH]; intros t; cbn [fold_left].
  - split; [now left | repeat constructor; lia].
  - destruct (IH (Z.max t u)) as [Hin Hle].
    inversion Hle as [|? ? Hm Hts]; subst. split.
    + destruct Hin as [E|Hin]; [|right; right; exact Hin].
      rewrite <- E. destruct (Z.max_spec t u) as [[_ ->]|[_ ->]];
        [right; left | left]; reflexivity.
    + constructor; [lia|]. constructor; [lia | exact Hts].
Qed.

(** The number of weeks that the deals are divided by. *)
Lemma weeks_of_span (lo hi : Z) :
  lo <= hi ->
  let totalDays :=
    JsMath.max 1 (inject_Z (hi - lo) / inject_Z (1000 * 60 * 60 * 24))%Q in
  let totalWeeks := JsMath.max 1 (totalDays / 7)%Q in
  (1 <= totalWeeks)%Q
  /\ (inject_Z (hi - lo) <= totalWeeks * inject_Z (7 * msPerDay))%Q
  /\ (hi - lo <= 7 * msPerDay -> (totalWeeks == 1)%Q).
Proof.
  intros Hle. cbv zeta.
  change (1000 * 60 * 60 * 24) with msPerDay.
  set (span := inject_Z (hi - lo)).
  assert (Hspan : (0 <= span)%Q).
  { subst span. change 0%Q with (inject_Z 0). rewrite <- Zle_Qle. lia. }
  assert (Eday : (inject_Z msPerDay == 86400000)%Q) by reflexivity.
  assert (E7 : (inject_Z (7 * msPerDay) == 7 * 86400000)%Q) by reflexivity.
  set (days := (span / inject_Z msPerDay)%Q).
  assert (Edays : (days * 86400000 == span)%Q).
  { subst days. rewrite Eday. field. }
  pose proof (max_l 1 days) as H1. pose proof (max_r 1 days) as H2.
  set (totalDays := JsMath.max 1 days) in *.
  pose proof (max_l 1 (totalDays / 7)%Q) as H3.
  pose proof (max_r 1 (totalDays / 7)%Q) as H4.
  set (totalWeeks := JsMath.max 1 (totalDays / 7)%Q) in *.
  assert (H5 : (totalDays <= totalWeeks * 7)%Q).
  { assert (E : (totalDays == totalDays / 7 * 7)%Q) by field. lra. }
  split; [exact H3|]. split.
  - rewrite E7. nra.
  - intros Hweek.
    assert (Hs : (span <= inject_Z (7 * msPerDay))%Q)
      by (subst span; now rewrite <- Zle_Qle).
    rewrite E7 in Hs.
    assert (Hd : (days <= 7)%Q) by nra.
    assert (Htd : (totalDays <= 7)%Q).
    { subst totalDays. unfold JsMath.max. destruct (Qle_bool 1 days); lra. }
    subst totalWeeks. unfold JsMath.max.
    destruct (Qle_bool 1 (totalDays / 7)) eqn:E; [|reflexivity].
    apply Qle_bool_iff in E.
    assert (E' : (totalDays == totalDays / 7 * 7)%Q) by field. lra.
Qed.

(** Counting the span in days and then in weeks gives the weeks of the
    span, counted as at least one. *)
Lemma weeks_quotient (lo hi : Z) :
  lo <= hi ->
  (JsMath.max 1
     (JsMath.max 1 (inject_Z (hi - lo) / inject_Z (1000 * 60 * 60 * 24)) / 7)
   == JsMath.max 1 (inject_Z (hi - lo) / inject_Z (7 * msPerDay)))%Q.
Proof.
  intros Hle. change (1000 * 60 * 60 * 24) with msPerDay.
  set (span := inject_Z (hi - lo)).
  assert (Eday : (inject_Z msPerDay == 86400000)%Q) by reflexivity.
  assert (E7 : (inject_Z (7 * msPerDay) == 7 * 86400000)%Q) by reflexivity.
  set (d := (span / inject_Z msPerDay)%Q).
  set (w := (span / inject_Z (7 * msPerDay))%Q).
  assert (Ed : (d * 86400000 == span)%Q) by (subst d; rewrite Eday; field).
  assert (Ew : (w * (7 * 86400000) == span)%Q) by (subst w; rewrite E7; field).
  unfold JsMath.max.
  destruct (Qle_bool 1 d) eqn:E1.
  - apply Qle_bool_iff in E1.
    assert (Ex : (d / 7 * 7 == d)%Q) by field.
    set (x := (d / 7)%Q) in *.
    destruct (Qle_bool 1 x) eqn:E2, (Qle_bool 1 w) eqn:E3;
      try apply Qle_bool_iff in E2; try apply Qle_bool_iff in E3;
      try (apply not_true_iff_false in E2; rewrite Qle_bool_iff in E2;
           apply Qnot_le_lt in E2);
      try (apply not_true_iff_false in E3; rewrite Qle_bool_iff in E3;
           apply Qnot_le_lt in E3);
      lra.
  - apply not_true_iff_false in E1. rewrite Qle_bool_iff in E1.
    apply Qnot_le_lt in E1.
    assert (E2 : Qle_bool 1 (1 / 7) = false) by reflexivity. rewrite E2.
    destruct (Qle_bool 1 w) eqn:E3; [|reflexivity].
    apply Qle_bool_iff in E3. lra.
Qed.

Lemma deal_times_nil `{Host} : deal_times [] = [].
Proof. reflexivity. Qed.

(** X11. The average number of deals per week of the selected broker is
    the number of the deals of the broker, dated or not, divided by the
    number of weeks between the earliest and the latest of their dates that
    read as a time, counted as at least one week. It is 0 when no broker is
    selected or no date reads as a time, it never exceeds the number of the
    deals, and it is that number when the dates lie within seven days. *)
Theorem deals_per_week_of_the_span `{Host} perf filteredDeals
    (selectedBroker : string) (mode : Mode) :
  let s := performanceSummary perf filteredDeals selectedBroker mode in
  let brokerDeals :=
    List.filter (fun deal => String.eqb (broker_name deal) selectedBroker)
                filteredDeals in
  let n := inject_Z (Z.of_nat (length brokerDeals)) in
  let times := deal_times brokerDeals in
  (0 <= Summary.avgDealsPerWeek s <= n)%Q
  /\ (selectedBroker = "all" \/ times = [] ->
      Summary.avgDealsPerWeek s = 0%Q)
  /\ (selectedBroker <> "all" -> times <> [] ->
      (forall a b, In a times -> In b times -> a - b <= 7 * msPerDay) ->
      (Summary.avgDealsPerWeek s == n)%Q)
  /\ (selectedBroker <> "all" ->
      forall a b, In a times -> In b times ->
        (Summary.avgDealsPerWeek s * inject_Z (a - b)
         <= n * inject_Z (7 * msPerDay))%Q)
  /\ (selectedBroker <> "all" -> times <> [] ->
      exists lo hi,
        In lo times /\ In hi times
        /\ (forall t, In t times -> lo <= t <= hi)
        /\ (Summary.avgDealsPerWeek s
            == n / JsMath.max 1 (inject_Z (hi - lo)
                                 / inject_Z (7 * msPerDay)))%Q).
Proof.
  cbv zeta. unfold performanceSummary. cbn [Summary.avgDealsPerWeek].
  set (brokerDeals := List.filter _ filteredDeals).
  set (n := inject_Z (Z.of_nat (length brokerDeals))).
  assert (Hn : (0 <= n)%Q).
  { subst n. change 0%Q with (inject_Z 0). rewrite <- Zle_Qle. lia. }
  destruct (String.eqb_spec selectedBroker "all") as [Hall|Hall];
    cbn [negb andb].
  { repeat split; try lra; try reflexivity; contradiction. }
  assert (Hempty : brokerDeals = [] ->
            (0 <= 0 <= n)%Q
            /\ (selectedBroker = "all" \/ deal_times brokerDeals = [] -> 0%Q = 0%Q)
            /\ (selectedBroker <> "all" -> deal_times brokerDeals <> [] ->
                (forall a b, In a (deal_times brokerDeals) ->
                             In b (deal_times brokerDeals) ->
                             a - b <= 7 * msPerDay) -> (0 == n)%Q)
            /\ (selectedBroker <> "all" ->
                forall a b, In a (deal_times brokerDeals) ->
                            In b (deal_times brokerDeals) ->
                  (0 * inject_Z (a - b) <= n * inject_Z (7 * msPerDay))%Q)
            /\ (selectedBroker <> "all" -> deal_times brokerDeals <> [] ->
                exists lo hi,
                  In lo (deal_times brokerDeals)
                  /\ In hi (deal_times brokerDeals)
                  /\ (forall t, In t (deal_times brokerDeals) -> lo <= t <= hi)
                  /\ (0 == n / JsMath.max 1 (inject_Z (hi - lo)
                                             / inject_Z (7 * msPerDay)))%Q)).
  { intros E. rewrite E. cbn [deal_times List.filter omap list_omap].
    split; [lra|]. split; [reflexivity|]. split; [contradiction|].
    split; [now intros _ a b []|]. contradiction. }
  destruct (Nat.ltb_spec 0 (length filteredDeals)) as [_|Hf].
  2: { apply Hempty. subst brokerDeals.
       destruct filteredDeals; [reflexivity | cbn in Hf; lia]. }
  destruct (Nat.ltb_spec 0 (length brokerDeals)) as [_|Hb].
  2: { apply Hempty. destruct brokerDeals; [reflexivity | cbn in Hb; lia]. }
  clear Hempty. clearbody brokerDeals.
  destruct (deal_times brokerDeals) as [|t ts] eqn:Et.
  { split; [lra|]. split; [reflexivity|]. split; [congruence|].
    split; [now intros _ a b []|]. congruence. }
  destruct (fold_min_In ts t) as [Hmin_in Hmin].
  destruct (fold_max_In ts t) as [Hmax_in Hmax].
  set (lo := fold_left Z.min ts t) in *.
  set (hi := fold_left Z.max ts t) in *.
  rewrite List.Forall_forall in Hmin, Hmax.
  assert (Hlohi : lo <= hi) by (apply Hmin; exact Hmax_in).
  destruct (weeks_of_span lo hi Hlohi) as (Hw1 & Hspan & Hweek).
  cbv zeta in Hw1, Hspan, Hweek.
  pose proof (weeks_quotient lo hi Hlohi) as Hquot.
  set (totalWeeks := JsMath.max 1 (JsMath.max 1 _ / 7)) in *.
  assert (Eavg : (n / totalWeeks * totalWeeks == n)%Q) by (field; lra).
  assert (Havg0 : (0 <= n / totalWeeks)%Q).
  { apply Qle_shift_div_l; lra. }
  split; [|split; [|split; [|split]]].
  5: { intros _ _. exists lo, hi.
       split; [exact Hmin_in|]. split; [exact Hmax_in|]. split.
       - intros x Hx. split; [now apply Hmin | now apply Hmax].
       - now rewrite <- Hquot. }
  - split; [exact Havg0|]. apply Qle_shift_div_r; [lra | nra].
  - intros [E|E]; [contradiction | discriminate].
  - intros _ _ Hclose. rewrite Hweek; [field|].
    apply Hclose; assumption.
  - intros _ a b Ha Hb.
    assert (Hab : a - b <= hi - lo).
    { specialize (Hmax a Ha). specialize (Hmin b Hb). lia. }
    rewrite Zle_Qle in Hab.
    set (x := inject_Z (a - b)) in *. set (y := inject_Z (hi - lo)) in *.
    set (w := inject_Z (7 * msPerDay)) in *.
    set (avg := (n / totalWeeks)%Q) in *.
    assert (Hstep : (avg * x <= avg * (totalWeeks * w))%Q).
    { set (p := (totalWeeks * w)%Q) in *.
      assert (Hxp : (x <= p)%Q) by lra. nra. }
    assert (E : (avg * (totalWeeks * w) == n * w)%Q).
    { rewrite Qmult_assoc. now rewrite Eavg. }
    lra.
Qed.

(** The deals left by the filters when a broker is selected are deals of
    that broker. *)
Lemma filteredDeals_of_broker `{Host} deals (selectedBroker selectedYear : string) :
  selectedBroker <> "all" ->
  Forall (fun deal => broker_name deal = selectedBroker)
         (filteredDeals deals selectedBroker selectedYear).
Proof.
  intros Hall. unfold filteredDeals.
  destruct (String.eqb_spec selectedBroker "all"); [contradiction|].
  cbn [negb]. apply List.Forall_forall. intros deal Hin.
  assert (Hb : In deal (List.filter
                          (fun deal => String.eqb (broker_name deal) selectedBroker)
                          deals)).
  { destruct (negb (String.eqb selectedYear "all")); [|exact Hin].
    now apply List.filter_In in Hin as [Hin _]. }
  apply List.filter_In in Hb as [_ Hb]. now apply String.eqb_eq.
Qed.

Lemma group_of_all name deals :
  Forall (fun deal => broker_name deal = name) deals ->
  group_of name deals = deals.
Proof.
  unfold group_of. induction 1 as [|d deals Hd _ IH]; [reflexivity|].
  cbn [List.filter]. rewrite Hd, String.eqb_refl. now rewrite IH.
Qed.

(** The reducer of the deals of one broker holds one property. *)
Lemma brokerStats_of_one_broker name deals stats :
  deals <> [] ->
  Forall (fun deal => broker_name deal = name) deals ->
  brokerStats deals = Returns stats ->
  stats = [(name, stats_of deals)].
Proof.
  intros Hne Hall Hs. apply brokerStats_grouped in Hs as [Hnd Hown].
  assert (Hentry : forall k v, In (k, v) stats -> k = name /\ v = stats_of deals).
  { intros k v Hin. apply (own_Some_iff _ _ _ Hnd) in Hin.
    rewrite Hown in Hin.
    destruct (existsb _ deals) eqn:Ee; [|discriminate].
    apply existsb_exists in Ee as (d & Hd & Ek%String.eqb_eq).
    rewrite List.Forall_forall in Hall. rewrite (Hall d Hd) in Ek. subst k.
    rewrite group_of_all in Hin by (now apply List.Forall_forall).
    split; congruence. }
  assert (Hin : In (name, stats_of deals) stats).
  { apply (own_Some_iff _ _ _ Hnd). rewrite Hown.
    rewrite group_of_all by exact Hall.
    destruct deals as [|d deals]; [contradiction|].
    inversion Hall; subst. cbn [existsb]. now rewrite String.eqb_refl. }
  destruct stats as [|[k v] stats]; [destruct Hin|].
  destruct (Hentry k v (or_introl eq_refl)) as [-> ->].
  destruct stats as [|[k' v'] stats]; [reflexivity|].
  destruct (Hentry k' v' (or_intror (or_introl eq_refl))) as [-> ->].
  cbn in Hnd. apply NoDup_cons in Hnd as [Hnd _].
  exfalso. apply Hnd. left.
Qed.

Lemma entries_singleton {V} (k : string) (v : V) :
  JsObject.entries [(k, v)] = [(k, v)].
Proof.
  unfold JsObject.entries. cbn [List.filter].
  destruct (JsObject.is_index (k, v)); reflexivity.
Qed.

(** X12. With a broker selected, the list of the page has at most the
    entry of that broker, and the rate on the first card is the share of
    the settled deals, or of the converted deals in the conversion mode,
    among the deals left by the filters; it lies between 0 and 100 and is
    0 when the filters leave no deal. *)
Theorem selected_broker_rate `{Host} deals (selectedBroker selectedYear : string)
    (mode : Mode) perf :
  selectedBroker <> "all" ->
  brokerPerformance (filteredDeals deals selectedBroker selectedYear) mode
  = Returns perf ->
  let filtered := filteredDeals deals selectedBroker selectedYear in
  let s := performanceSummary perf filtered selectedBroker mode in
  let counted :=
    match mode with
    | settled => isSettled
    | conversion => isConverted
    end in
  (length perf <= 1)%nat
  /\ Forall (fun p => brokerName p = selectedBroker) perf
  /\ Summary.selectedBrokerRate s
     = JsMath.percent (Z.of_nat (length (List.filter counted filtered)))
                      (Z.of_nat (length filtered))
  /\ percentage (Summary.selectedBrokerRate s).
Proof.
  intros Hall Hperf. cbv zeta.
  pose proof (filteredDeals_of_broker deals selectedBroker selectedYear Hall)
    as Hbroker.
  set (filtered := filteredDeals deals selectedBroker selectedYear) in *.
  assert (Hrate : Summary.selectedBrokerRate
                    (performanceSummary perf filtered selectedBroker mode)
                  = JsMath.percent
                      (Z.of_nat (length (List.filter
                         match mode with
                         | settled => isSettled
                         | conversion => isConverted
                         end filtered)))
                      (Z.of_nat (length filtered))
                  /\ (length perf <= 1)%nat
                  /\ Forall (fun p => brokerName p = selectedBroker) perf).
  { destruct filtered as [|d rest] eqn:Ef.
    - cbn in Hperf. injection Hperf as <-. cbn.
      split; [now destruct mode|]. split; [lia | constructor].
    - rewrite <- Ef in *.
      assert (Hne : filtered <> []) by (rewrite Ef; discriminate).
      clear Ef d rest.
      apply brokerPerformance_inv in Hperf as (stats & Hs & ->).
      apply (brokerStats_of_one_broker selectedBroker) in Hs;
        [|assumption..].
      subst stats. rewrite entries_singleton. cbn [map Array_sort fold_right sort_insert].
      unfold performanceSummary. cbn [Summary.selectedBrokerRate List.find].
      cbn [performance_of brokerName]. rewrite String.eqb_refl.
      split; [now destruct mode|]. split; [cbn; lia|].
      repeat constructor. }
  destruct Hrate as (Hrate & Hlen & Hnames).
  split; [exact Hlen|]. split; [exact Hnames|]. split; [exact Hrate|].
  rewrite Hrate. apply percent_percentage.
  pose proof (filter_length_le
                match mode with
                | settled => isSettled
                | conversion => isConverted
                end filtered).
  lia.
Qed.

Lemma selected_broker_rate_witness :
  exists perf,
    brokerPerformance
      (filteredDeals (H := JsDate.iso_host 0) Samples.three_deals "A" "all")
      settled = Returns perf
    /\ (length perf <= 1)%nat.
Proof.
  eexists. split; [reflexivity|].
  apply (selected_broker_rate (H := JsDate.iso_host 0)
           Samples.three_deals "A" "all" settled).
  - discriminate.
  - reflexivity.
Defined.

(** X13. The badge of a broker is "above-threshold" exactly when the count
    of the analysis mode, settled or converted deals, reaches the
    threshold, and "below-threshold" otherwise; a broker of the list that
    is above the threshold in the settled mode is above it in the
    conversion mode. *)
Theorem badge_follows_the_mode deals (mode : Mode) perf (threshold : Q) :
  brokerPerformance deals mode = Returns perf ->
  Forall (fun b =>
            Badge.status (getPerformanceStatus settled threshold b)
            = "above-threshold" ->
            Badge.status (getPerformanceStatus conversion threshold b)
            = "above-threshold") perf
  /\ forall b m,
       let count :=
         match m with
         | settled => settledDeals b
         | conversion => convertedDeals b
         end in
       let badge := getPerformanceStatus m threshold b in
       ((threshold <= inject_Z count)%Q ->
        Badge.status badge = "above-threshold"
        /\ Badge.color badge = "bg-green-100 text-green-800")
       /\ ((inject_Z count < threshold)%Q ->
           Badge.status badge = "below-threshold"
           /\ Badge.color badge = "bg-red-100 text-red-800").
Proof.
  intros Hperf. split.
  - eapply brokerPerformance_Forall; [|exact Hperf].
    intros name st Hst. cbv beta in Hst.
    unfold getPerformanceStatus, performance_of.
    cbn [settledDeals convertedDeals].
    destruct (Qle_bool threshold (inject_Z (Stats.settled st))) eqn:Es;
      [|discriminate].
    intros _. apply Qle_bool_iff in Es.
    assert (Hc : Qle_bool threshold (inject_Z (Stats.converted st)) = true).
    { apply Qle_bool_iff.
      assert (Hle : (inject_Z (Stats.settled st)
                     <= inject_Z (Stats.converted st))%Q)
        by (rewrite <- Zle_Qle; lia).
      lra. }
    now rewrite Hc.
  - intros b m. cbv zeta. unfold getPerformanceStatus.
    destruct m;
      match goal with
      | |- context [Qle_bool threshold ?c] =>
          destruct (Qle_bool threshold c) eqn:E;
            [apply Qle_bool_iff in E
            |assert (~ (threshold <= c)%Q)
               by (rewrite <- Qle_bool_iff; congruence)]
      end; cbn; split; intros; try (split; reflexivity); lra.
Qed.

Lemma badge_follows_the_mode_witness :
  exists perf,
    brokerPerformance Samples.three_deals settled = Returns perf
    /\ Forall (fun b =>
                 Badge.status (getPerformanceStatus settled 1 b)
                 = "above-threshold" ->
                 Badge.status (getPerformanceStatus conversion 1 b)
                 = "above-threshold") perf.
Proof.
  eexists. split; [reflexivity|].
  apply (badge_follows_the_mode Samples.three_deals settled _ 1).
  reflexivity.
Defined.
End PerformanceSummaryFacts.

(** ** The broker performance list: one entry for each broker *)

Section BrokerListFacts.
Import BrokerPerformanceAnalysis Stated.

Lemma sum_perm (l l' : list Z) :
  Permutation l l' -> fold_right Z.add 0 l = fold_right Z.add 0 l'.
Proof. induction 1; cbn; lia. Qed.

(** The groups of the names of a list without repeats partition the
    deals of these names. *)
Lemma groups_partition (names : list string) (deals : list Deal) :
  List.NoDup names ->
  fold_right Z.add 0
    (map (fun name => Z.of_nat (length (group_of name deals))) names)
  = Z.of_nat (length (List.filter
                        (fun deal => existsb (String.eqb (broker_name deal)) names)
                        deals)).
Proof.
  intros Hnd. induction deals as [|d deals IH].
  - cbn. induction names; cbn; [reflexivity|].
    inversion Hnd; subst. rewrite IHnames by assumption. reflexivity.
  - cbn [List.filter].
    assert (Hone : fold_right Z.add 0
                     (map (fun name => Z.of_nat (length (group_of name (d :: deals))))
                          names)
                   = (if existsb (String.eqb (broker_name d)) names then 1 else 0)
                     + fold_right Z.add 0
                         (map (fun name => Z.of_nat (length (group_of name deals)))
                              names)).
    { clear IH. induction names as [|k names IHn]; [reflexivity|].
      inversion Hnd as [|? ? Hk Hnd']; subst.
      cbn [map fold_right existsb]. rewrite (IHn Hnd').
      unfold group_of at 1. cbn [List.filter]. fold (group_of k deals).
      destruct (String.eqb_spec (broker_name d) k) as [E|Hne]; cbn [orb].
      - assert (Hex : existsb (String.eqb (broker_name d)) names = false).
        { apply not_true_iff_false. intros Hex.
          apply existsb_exists in Hex as (z & Hz & Ez%String.eqb_eq).
          apply Hk. congruence. }
        rewrite Hex. cbn [length]. lia.
      - lia. }
    rewrite Hone, IH.
    destruct (existsb (String.eqb (broker_name d)) names); cbn [length]; lia.
Qed.

Lemma group_of_filter p name deals :
  List.filter p (group_of name deals) = group_of name (List.filter p deals).
Proof.
  unfold group_of. induction deals as [|d deals IH]; [reflexivity|].
  cbn [List.filter].
  destruct (String.eqb (broker_name d) name) eqn:E, (p d) eqn:Ep;
    cbn [List.filter]; rewrite ?E, ?Ep; congruence.
Qed.

(** The names of the reducer's result are the brokers of the deals. *)
Lemma brokerStats_names deals stats :
  brokerStats deals = Returns stats ->
  List.NoDup (map fst stats)
  /\ (forall name, In name (map fst stats)
                   <-> exists deal, In deal deals /\ broker_name deal = name)
  /\ Forall (fun e => snd e = stats_of (group_of (fst e) deals)) stats.
Proof.
  intros Hs. apply brokerStats_grouped in Hs as [Hnd Hown].
  split; [now apply NoDup_ListNoDup|]. split.
  - intros name. split.
    + intros ((k & v) & <- & Hin)%in_map_iff. cbn [fst].
      apply (own_Some_iff _ _ _ Hnd) in Hin. rewrite Hown in Hin.
      destruct (existsb _ deals) eqn:Ee; [|discriminate].
      apply existsb_exists in Ee as (d & Hd & Ek%String.eqb_eq). eauto.
    + intros (d & Hd & <-).
      assert (Ho : JsObject.own stats (broker_name d)
                   = Some (stats_of (group_of (broker_name d) deals))).
      { rewrite Hown.
        assert (Ee : existsb (fun deal => String.eqb (broker_name deal)
                                            (broker_name d)) deals = true).
        { apply existsb_exists. exists d. split; [exact Hd|].
          apply String.eqb_refl. }
        now rewrite Ee. }
      apply own_In in Ho. apply (in_map fst) in Ho. exact Ho.
  - apply List.Forall_forall. intros [k v] Hin. cbn [fst snd].
    apply (own_Some_iff _ _ _ Hnd) in Hin. rewrite Hown in Hin.
    destruct (existsb _ deals); congruence.
Qed.

(** X14. The broker performance list has one entry for each broker of
    the deals and no other entry, and the entries account for every deal
    once: their totals add up to the number of the deals, their settled
    counts to the number of settled deals and their converted counts to
    the number of converted deals. *)
Theorem one_entry_for_each_broker deals (mode : Mode) perf :
  brokerPerformance deals mode = Returns perf ->
  List.NoDup (map brokerName perf)
  /\ (forall name,
        In name (map brokerName perf)
        <-> exists deal, In deal deals /\ broker_name deal = name)
  /\ fold_right Z.add 0 (map totalDeals perf) = Z.of_nat (length deals)
  /\ fold_right Z.add 0 (map settledDeals perf)
     = Z.of_nat (length (List.filter isSettled deals))
  /\ fold_right Z.add 0 (map convertedDeals perf)
     = Z.of_nat (length (List.filter isConverted deals)).
Proof.
  intros Hperf. apply brokerPerformance_inv in Hperf as (stats & Hs & ->).
  apply brokerStats_names in Hs as (Hnd & Hnames & Hstats).
  assert (Hperm : Permutation
                    (Array_sort (by_mode mode)
                       (map performance_of (JsObject.entries stats)))
                    (map performance_of stats)).
  { rewrite Array_sort_perm. apply Permutation_map, entries_perm. }
  assert (Ename : map brokerName (map performance_of stats) = map fst stats).
  { rewrite map_map. apply map_ext. now intros [k v]. }
  assert (Hcover : forall p,
             List.filter (fun deal => existsb (String.eqb (broker_name deal))
                                              (map fst stats))
                         (List.filter p deals)
             = List.filter p deals).
  { intros p. apply List.forallb_filter_id, forallb_forall.
    intros d [Hd _]%List.filter_In. apply existsb_exists.
    exists (broker_name d). split; [|apply String.eqb_refl].
    apply Hnames. eauto. }
  assert (Hsum : forall (p : Deal -> bool) (f : BrokerPerformance -> Z),
             (forall k, f (performance_of (k, stats_of (group_of k deals)))
                        = Z.of_nat (length (List.filter p (group_of k deals)))) ->
             fold_right Z.add 0
               (map f (Array_sort (by_mode mode)
                         (map performance_of (JsObject.entries stats))))
             = Z.of_nat (length (List.filter p deals))).
  { intros p f Hf.
    rewrite (sum_perm _ _ (Permutation_map f Hperm)).
    rewrite map_map.
    rewrite <- (Hcover p), <- (groups_partition _ _ Hnd), map_map.
    f_equal. apply List.map_ext_in. intros [k v] Hin.
    rewrite List.Forall_forall in Hstats. specialize (Hstats _ Hin).
    cbn [fst snd] in Hstats |- *. subst v.
    rewrite Hf. now rewrite group_of_filter. }
  split; [|split; [|split; [|split]]].
  - rewrite (Permutation_map brokerName Hperm), Ename. exact Hnd.
  - intros name. rewrite <- Hnames, <- Ename.
    split; apply Permutation_in;
      [ | symmetry ]; apply Permutation_map, Hperm.
  - rewrite (Hsum (fun _ => true) totalDeals).
    + f_equal. f_equal. apply List.forallb_filter_id.
      apply forallb_forall. reflexivity.
    + intros k. cbn. f_equal. f_equal. symmetry.
      apply List.forallb_filter_id. apply forallb_forall. reflexivity.
  - apply (Hsum isSettled settledDeals). reflexivity.
  - apply (Hsum isConverted convertedDeals). reflexivity.
Qed.

Lemma one_entry_for_each_broker_witness :
  exists perf,
    brokerPerformance Samples.three_deals settled = Returns perf
    /\ fold_right Z.add 0 (map totalDeals perf) = 3.
Proof.
  eexists. split; [reflexivity|].
  apply (one_entry_for_each_broker Samples.three_deals settled).
  reflexivity.
Defined.
End BrokerListFacts.

(** ** When the broker performance list fails *)

Section BrokerListErrors.
Import BrokerPerformanceAnalysis Stated.

Local Abbreviation plain_names := (fun acc : JsObject.t Stats.t =>
  Forall (fun e => JsObject.inherited (fst e) = false) acc).

Lemma own_plain (acc : JsObject.t Stats.t) name :
  plain_names acc -> JsObject.inherited name = true ->
  JsObject.own acc name = None.
Proof.
  intros Hacc Hname. destruct (JsObject.own acc name) as [v|] eqn:E;
    [|reflexivity].
  apply own_In in E. rewrite List.Forall_forall in Hacc.
  specialize (Hacc _ E). cbn [fst] in Hacc. congruence.
Qed.

(** A step of the reducer returns on a plain broker name and throws on a
    name that objects inherit. *)
Lemma brokerStats_step_cases acc deal :
  plain_names acc ->
  if JsObject.inherited (broker_name deal)
  then brokerStats_step acc deal = Throws TypeError
  else exists acc', brokerStats_step acc deal = Returns acc'
                    /\ plain_names acc'.
Proof.
  intros Hacc. unfold brokerStats_step. cbv zeta.
  destruct (JsObject.inherited (broker_name deal)) eqn:Hname.
  - unfold JsObject.get. rewrite (own_plain _ _ Hacc Hname), Hname.
    now rewrite (own_plain _ _ Hacc Hname).
  - destruct (JsObject.get acc (broker_name deal)) as [st| |] eqn:E.
    + rewrite E. eexists. split; [reflexivity|].
      apply set_Forall; [exact Hacc | exact Hname].
    + unfold JsObject.get in E. rewrite Hname in E.
      destruct (JsObject.own acc (broker_name deal)); discriminate.
    + unfold JsObject.get at 1. rewrite own_set_same by exact Hname.
      eexists. split; [reflexivity|].
      apply set_Forall; [|exact Hname].
      apply set_Forall; [exact Hacc | exact Hname].
Qed.

Lemma brokerStats_cases deals acc :
  plain_names acc ->
  (Forall (fun deal => JsObject.inherited (broker_name deal) = false) deals
   /\ exists stats, reduce brokerStats_step deals acc = Returns stats)
  \/ (Exists (fun deal => JsObject.inherited (broker_name deal) = true) deals
      /\ reduce brokerStats_step deals acc = Throws TypeError).
Proof.
  revert acc. induction deals as [|d deals IH]; intros acc Hacc.
  - left. split; [constructor | cbn; eauto].
  - pose proof (brokerStats_step_cases acc d Hacc) as Hstep.
    cbn [reduce]. 
    destruct (JsObject.inherited (broker_name d)) eqn:Hname.
    + right. split; [now left|]. now rewrite Hstep.
    + destruct Hstep as (acc' & -> & Hacc'). cbn [mbind outcome_bind].
      destruct (IH acc' Hacc') as [[Hall Hr]|[Hex Ht]].
      * left. split; [now constructor | exact Hr].
      * right. split; [now right | exact Ht].
Qed.

(** X15. On deals with the fields of the interface [Deal], each stage
    field a string or [null] and the broker name a string, building the
    broker performance list fails exactly when the name of a broker of
    the deals is the name of a property that every object inherits, such
    as ["constructor"] or ["toString"], and then with a [TypeError]; in
    every other case the list is returned. (A stage field that holds a
    number or a boolean is outside the type [Deal] of the embedding.) *)
Theorem list_fails_on_inherited_names deals (mode : Mode) :
  (brokerPerformance deals mode = Throws TypeError
   <-> Exists (fun deal => JsObject.inherited (broker_name deal) = true) deals)
  /\ ((exists perf, brokerPerformance deals mode = Returns perf)
      <-> Forall (fun deal => JsObject.inherited (broker_name deal) = false)
                 deals)
  /\ brokerPerformance deals mode <> Throws RangeError.
Proof.
  assert (Hcases := brokerStats_cases deals [] (List.Forall_nil _)).
  fold (brokerStats deals) in Hcases.
  assert (Hexcl : Forall (fun deal => JsObject.inherited (broker_name deal) = false)
                         deals ->
                  Exists (fun deal => JsObject.inherited (broker_name deal) = true)
                         deals -> False).
  { intros Hall Hex. apply List.Exists_exists in Hex as (d & Hd & Ht).
    rewrite List.Forall_forall in Hall. specialize (Hall d Hd). congruence. }
  unfold brokerPerformance.
  destruct deals as [|d deals]; cbn [length Nat.eqb].
  { split; [split; [discriminate | intros Hex; inversion Hex]|].
    split; [split; [constructor | eauto] | discriminate]. }
  set (all := d :: deals) in *.
  destruct Hcases as [[Hall (stats & Hs)]|[Hex Ht]].
  - rewrite Hs. cbn [mbind outcome_bind].
    split; [split; [discriminate | intros Hex; destruct (Hexcl Hall Hex)]|].
    split; [split; [auto | eauto] | discriminate].
  - rewrite Ht. cbn [mbind outcome_bind].
    split; [split; auto|].
    split; [|discriminate].
    split; [intros [perf Hp]; discriminate|].
    intros Hall. destruct (Hexcl Hall Hex).
Qed.
End BrokerListErrors.

(** ** The weekly chart: what it counts and when it fails *)

Section WeeklyChartFacts.
Import JsDate BrokerPerformanceAnalysis JsString Stated StatedWeekly.

Lemma length_map_sum {A B} (f : A -> B) (l : list A) :
  fold_right Z.add 0 (map (fun _ => 1) (map f l)) = Z.of_nat (length l).
Proof. induction l; cbn [map fold_right length]; lia. Qed.

(** A reducer whose steps either return, keeping a property of the
    accumulator, or throw one error on elements of one kind, throws only
    that error, and only on a list with such an element. *)
Lemma reduce_throws {A B} (P : B -> Prop) (R : A -> Prop) (e0 : JsError)
    (f : B -> A -> outcome B) :
  (forall acc x, P acc ->
     (exists acc', f acc x = Returns acc' /\ P acc')
     \/ (f acc x = Throws e0 /\ R x)) ->
  forall l acc e, P acc -> reduce f l acc = Throws e -> e = e0 /\ Exists R l.
Proof.
  intros Hstep l. induction l as [|x l IH]; intros acc e Hacc Hr; cbn in Hr.
  - discriminate.
  - destruct (Hstep acc x Hacc) as [(acc' & Hf & Hacc')|[Hf Hx]];
      rewrite Hf in Hr; cbn in Hr.
    + destruct (IH _ _ Hacc' Hr) as [-> Hex]. split; [reflexivity | now right].
    + injection Hr as <-. split; [reflexivity | now left].
Qed.

Section WithHost.
Context `{Host}.

Local Abbreviation plain_weeks := (fun acc : JsObject.t Week.t =>
  Forall (fun e => JsObject.inherited (fst e) = false) acc).

(** The sum of a counter over the weeks of a dictionary. *)
Local Abbreviation week_sum := (fun (f : Week.t -> Z) (acc : JsObject.t Week.t) =>
  fold_right Z.add 0 (map (fun e => f (snd e)) acc)).

Lemma week_sum_replace (f : Week.t -> Z) acc k old w :
  JsObject.own acc k = Some old ->
  week_sum f (JsObject.replace acc k w) = week_sum f acc - f old + f w.
Proof.
  induction acc as [|[k' v'] acc IH]; cbn; [discriminate|].
  destruct (String.eqb k k'); cbn.
  - intros [= ->]. lia.
  - intros Ho. rewrite (IH Ho). lia.
Qed.

Lemma week_sum_set (f : Week.t -> Z) acc k w :
  JsObject.inherited k = false ->
  week_sum f (JsObject.set acc k w)
  = week_sum f acc
    - match JsObject.own acc k with Some old => f old | None => 0 end
    + f w.
Proof.
  intros Hk. unfold JsObject.set.
  destruct (JsObject.own acc k) as [old|] eqn:Eo.
  - now apply week_sum_replace.
  - destruct (String.eqb_spec k "__proto__") as [->|_]; [discriminate|].
    rewrite map_app, fold_right_app. cbn.
    generalize (map (fun e : string * Week.t => f (snd e)) acc). intros l.
    induction l; cbn; lia.
Qed.

Lemma week_dated_time deal :
  week_dated deal = true
  <-> exists s tv, latest_date deal = Some s /\ truthy s = true
                   /\ of_string s = Some tv.
Proof.
  unfold week_dated. split.
  - destruct (latest_date deal) as [s|]; [|discriminate].
    destruct (truthy s) eqn:Et; [|discriminate].
    destruct (of_string s) as [tv|] eqn:E; [|discriminate].
    exists s, tv. auto.
  - intros (s & tv & -> & -> & ->). reflexivity.
Qed.

(** One step of the weekly reducer: a deal without a date that reads as a
    time is skipped; a dated deal is added to one week, unless its week
    start is out of range. *)
Lemma weeklyGroups_step_cases acc deal :
  plain_weeks acc ->
  (exists acc',
      weeklyGroups_step acc deal = Returns acc'
      /\ plain_weeks acc'
      /\ forall (f : Week.t -> Z) (g : Deal -> Z),
           f (new_week None) = 0 ->
           (forall ws, f (new_week ws) = 0) ->
           (forall d w, f (record_week_deal d w) = f w + g d) ->
           week_sum f acc'
           = week_sum f acc + if week_dated deal then g deal else 0)
  \/ (weeklyGroups_step acc deal = Throws RangeError
      /\ first_week_dated deal).
Proof.
  intros Hacc. unfold weeklyGroups_step, week_dated.
  destruct (latest_date deal) as [s|] eqn:Es.
  2: { left. exists acc. repeat split; auto. intros; lia. }
  destruct (truthy s) eqn:Et; cbn [negb andb].
  2: { left. exists acc. repeat split; auto. intros; lia. }
  destruct (of_string s) as [tv|] eqn:Etv; cbn [getTime].
  2: { left. exists acc. repeat split; auto. intros; lia. }
  destruct (week_start (Some tv)) as [ws|] eqn:Ews.
  2: { right. split; [reflexivity|]. exists s, tv. repeat split; auto.
       destruct (Z_lt_le_dec tv (minTime + 7 * msPerDay)) as [Hlt|Hge];
         [exact Hlt|].
       assert (Hmax : tv <= maxTime).
       { apply of_string_range in Etv. lia. }
       rewrite week_start_returns in Ews by lia. discriminate. }
  left. rewrite week_key_date. cbn [mbind outcome_bind].
  pose proof (ISODate_not_inherited ws) as Hkey.
  set (weekKey := ISODate ws) in *.
  destruct (JsObject.own acc weekKey) as [w|] eqn:Eo.
  - unfold JsObject.get. rewrite Eo. cbv iota. rewrite ?Eo.
    eexists. split; [reflexivity|].
    split; [apply set_Forall; [exact Hacc | exact Hkey]|].
    intros f g _ _ Hf. rewrite week_sum_set by exact Hkey.
    rewrite Eo, Hf. lia.
  - unfold JsObject.get. rewrite Eo, Hkey. cbv iota.
    rewrite own_set_same by exact Hkey.
    eexists. split; [reflexivity|].
    split; [apply set_Forall; [|exact Hkey];
            apply set_Forall; [exact Hacc | exact Hkey]|].
    intros f g _ Hnew Hf. rewrite !week_sum_set by exact Hkey.
    rewrite own_set_same by exact Hkey. rewrite Eo, Hf, Hnew. lia.
Qed.

(** The sum, over the deals that are dated, of a number of each deal. *)
Local Abbreviation dated_sum := (fun (g : Deal -> Z) (deals : list Deal) =>
  fold_right Z.add 0 (map (fun d => if week_dated d then g d else 0) deals)).

Lemma weeklyGroups_from brokerDeals acc :
  plain_weeks acc ->
  (exists groups,
      reduce weeklyGroups_step brokerDeals acc = Returns groups
      /\ forall (f : Week.t -> Z) (g : Deal -> Z),
           f (new_week None) = 0 ->
           (forall ws, f (new_week ws) = 0) ->
           (forall d w, f (record_week_deal d w) = f w + g d) ->
           week_sum f groups = week_sum f acc + dated_sum g brokerDeals)
  \/ (reduce weeklyGroups_step brokerDeals acc = Throws RangeError
      /\ Exists first_week_dated brokerDeals).
Proof.
  revert acc. induction brokerDeals as [|d deals IH]; intros acc Hacc.
  - left. exists acc. split; [reflexivity|]. intros. cbn. lia.
  - cbn [reduce].
    destruct (weeklyGroups_step_cases acc d Hacc)
      as [(acc' & -> & Hacc' & Hsum)|[-> Hd]]; cbn [mbind outcome_bind].
    + destruct (IH acc' Hacc') as [(groups & -> & Hgroups)|[-> Hex]].
      * left. exists groups. split; [reflexivity|].
        intros f g H0 Hnew Hrec.
        rewrite (Hgroups f g H0 Hnew Hrec), (Hsum f g H0 Hnew Hrec).
        cbn [map fold_right]. lia.
      * right. split; [reflexivity | now right].
    + right. split; [reflexivity | now left].
Qed.

Lemma record_week_deal_counts d w :
  Week.totalDeals (record_week_deal d w) = Week.totalDeals w + 1
  /\ Week.settledDeals (record_week_deal d w)
     = Week.settledDeals w + (if isSettled d then 1 else 0)
  /\ Week.convertedDeals (record_week_deal d w)
     = Week.convertedDeals w + (if isConverted d then 1 else 0).
Proof.
  unfold record_week_deal.
  destruct (isSettled d), (isConverted d); cbn; repeat split; lia.
Qed.

Lemma dated_sum_count (p : Deal -> bool) deals :
  dated_sum (fun d => if p d then 1 else 0) deals
  = Z.of_nat (length (List.filter (fun d => week_dated d && p d) deals)).
Proof.
  induction deals as [|d deals IH]; [reflexivity|].
  cbn [map fold_right List.filter]. rewrite IH.
  destruct (week_dated d), (p d); cbn [andb length]; lia.
Qed.

(** The categories of the chart hold the weeks between them. *)
Lemma threshold_chart_sum (f : WeekRow.t -> Z) (g : Category.t -> Z)
    threshold weeks :
  (forall label avg ws, g (category_of label avg ws)
                        = fold_right Z.add 0 (map f ws)) ->
  fold_right Z.add 0 (map g (threshold_chart threshold weeks))
  = fold_right Z.add 0 (map f weeks).
Proof.
  intros Hg. rewrite threshold_chart_cases. cbv zeta.
  assert (Hsplit : fold_right Z.add 0 (map f weeks)
                   = fold_right Z.add 0
                       (map f (List.filter
                                 (fun w => negb (WeekRow.isAboveThreshold w))
                                 weeks))
                     + fold_right Z.add 0
                         (map f (List.filter WeekRow.isAboveThreshold weeks))).
  { induction weeks as [|w weeks IH]; [reflexivity|].
    cbn [List.filter map fold_right]. rewrite IH.
    destruct (WeekRow.isAboveThreshold w); cbn [negb map fold_right]; lia. }
  rewrite Hsplit, map_app, fold_right_app.
  destruct (List.filter (fun w => negb (WeekRow.isAboveThreshold w)) weeks)
    as [|b below];
    destruct (List.filter WeekRow.isAboveThreshold weeks) as [|a above];
    cbn [map fold_right]; rewrite ?Hg; cbn [map fold_right]; lia.
Qed.
End WithHost.

(** X16. With a broker selected, the bars of the weekly chart count each
    deal of the broker whose date reads as a time in exactly one week:
    the deals of the bars add up to the number of these deals, and the
    weeks of the bars to the number of weeks that have a deal. Deals
    without a date, or with a date that does not read as a time, are in
    no bar. *)
Theorem bars_count_the_dated_deals `{Host} filteredDeals
    (selectedBroker : string) (mode : Mode) (threshold : Z) chart :
  selectedBroker <> "all" ->
  chartData filteredDeals selectedBroker mode threshold = Returns chart ->
  let brokerDeals :=
    List.filter (fun deal => String.eqb (broker_name deal) selectedBroker)
                filteredDeals in
  fold_right Z.add 0 (map Category.totalDeals chart)
  = Z.of_nat (length (List.filter week_dated brokerDeals))
  /\ exists groups,
       weeklyGroups brokerDeals = Returns groups
       /\ fold_right Z.add 0 (map Category.weekCount chart)
          = Z.of_nat (length groups).
Proof.
  intros Hall Hchart. cbv zeta.
  set (brokerDeals := List.filter _ filteredDeals).
  assert (Hgroups : exists groups,
             weeklyGroups brokerDeals = Returns groups
             /\ chart = threshold_chart threshold
                          (weeklyData mode threshold groups)).
  { unfold chartData in Hchart. fold brokerDeals in Hchart.
    destruct (String.eqb_spec selectedBroker "all"); [contradiction|].
    cbn [orb] in Hchart.
    destruct (Nat.eqb_spec (length filteredDeals) 0) as [E|_].
    { injection Hchart as <-. exists []. split; [|reflexivity].
      subst brokerDeals. destruct filteredDeals; [reflexivity | discriminate]. }
    destruct (Nat.eqb_spec (length brokerDeals) 0) as [E|_].
    { injection Hchart as <-. exists []. split; [|reflexivity].
      destruct brokerDeals; [reflexivity | discriminate]. }
    apply bind_Returns in Hchart as (groups & Hg & [= <-]). eauto. }
  destruct Hgroups as (groups & Hg & ->).
  destruct (weeklyGroups_from brokerDeals [] (List.Forall_nil _))
    as [(groups' & Hg' & Hsum)|[Ht _]];
    fold (weeklyGroups brokerDeals) in *; [|congruence].
  assert (groups' = groups) by congruence. subst groups'.
  assert (Hrows : forall f : Week.t -> Z,
             fold_right Z.add 0
               (map (fun w => f (snd w)) (JsObject.entries groups))
             = fold_right Z.add 0 (map (fun e => f (snd e)) groups)).
  { intros f. apply sum_perm, Permutation_map, entries_perm. }
  split.
  - rewrite (threshold_chart_sum WeekRow.totalDeals)
      by (intros; apply sumZ_total).
    unfold weeklyData. rewrite map_map.
    rewrite (map_ext _ (fun e : string * Week.t => Week.totalDeals (snd e)))
      by reflexivity.
    rewrite (Hrows Week.totalDeals).
    rewrite (Hsum Week.totalDeals (fun _ => 1)); try reflexivity.
    + cbn [map fold_right Z.add].
      rewrite (dated_sum_count (fun _ => true)), Z.add_0_l.
      f_equal. f_equal. apply List.filter_ext. intros d. apply andb_true_r.
    + intros d w. apply record_week_deal_counts.
  - exists groups. split; [exact Hg|].
    rewrite (threshold_chart_sum (fun _ => 1) Category.weekCount).
    + unfold weeklyData. rewrite length_map_sum.
      now rewrite (Permutation_length (entries_perm groups)).
    + intros label avg ws. cbn. clear. induction ws; cbn [length map fold_right]; lia.
Qed.

(** X17. On deals with the fields of the interface [Deal], each stage
    field and the date a string or [null], the weekly chart fails only
    with a [RangeError], and only when a deal of the selected broker is
    dated in the first seven days of the range of time values, where the
    Monday of its week cannot be represented; no broker name and no other
    date makes it fail. (A stage field that holds a number or a boolean is
    outside the type [Deal] of the embedding.) *)
Theorem weekly_chart_fails_only_out_of_range `{Host} filteredDeals
    (selectedBroker : string) (mode : Mode) (threshold : Z) (e : JsError) :
  chartData filteredDeals selectedBroker mode threshold = Throws e ->
  e = RangeError
  /\ Exists first_week_dated
            (List.filter
               (fun deal => String.eqb (broker_name deal) selectedBroker)
               filteredDeals).
Proof.
  unfold chartData.
  destruct (String.eqb selectedBroker "all" || (length filteredDeals =? 0)%nat);
    [discriminate|].
  set (brokerDeals := List.filter _ filteredDeals).
  destruct (length brokerDeals =? 0)%nat; [discriminate|].
  destruct (weeklyGroups_from brokerDeals [] (List.Forall_nil _))
    as [(groups & Hg & _)|[Ht Hex]];
    fold (weeklyGroups brokerDeals) in *.
  - rewrite Hg. discriminate.
  - rewrite Ht. cbn [mbind outcome_bind]. intros [= <-]. auto.
Qed.
End WeeklyChartFacts.

Lemma bars_count_the_dated_deals_witness :
  exists chart,
    BrokerPerformanceAnalysis.chartData (H := JsDate.iso_host 0)
      Samples.three_deals "A" BrokerPerformanceAnalysis.settled 20
    = Returns chart
    /\ fold_right Z.add 0 (map BrokerPerformanceAnalysis.Category.totalDeals chart)
       = 2.
Proof.
  assert (E : BrokerPerformanceAnalysis.chartData (H := JsDate.iso_host 0)
                Samples.three_deals "A" BrokerPerformanceAnalysis.settled 20
              = Samples.weekly_chart_of_A)
    by (vm_compute; reflexivity).
  unfold Samples.weekly_chart_of_A in E.
  eexists. split; [exact E|].
  refine (proj1 (bars_count_the_dated_deals (H := JsDate.iso_host 0)
                   Samples.three_deals "A"
                   BrokerPerformanceAnalysis.settled 20 _ _ E)).
  discriminate.
Defined.

Lemma weekly_chart_fails_only_out_of_range_witness :
  Exists (StatedWeekly.first_week_dated (H := JsDate.iso_host 0))
         (List.filter
            (fun deal =>
               String.eqb (BrokerPerformanceAnalysis.broker_name deal) "A")
            [Samples.deal "1" "A" 1 None None (Some "-271821-04-20")]).
Proof.
  apply (weekly_chart_fails_only_out_of_range (H := JsDate.iso_host 0)
           [Samples.deal "1" "A" 1 None None (Some "-271821-04-20")]
           "A" BrokerPerformanceAnalysis.settled 20 RangeError).
  vm_compute. reflexivity.
Defined.

(** ** Sorted arrays of strings *)

Section StringSortFacts.

Lemma compare_trans a b c :
  String.compare a b = Lt -> String.compare b c = Lt ->
  String.compare a c = Lt.
Proof.
  intros Hab Hbc.
  apply OrderedTypeEx.String_as_OT.cmp_lt.
  apply OrderedTypeEx.String_as_OT.cmp_lt in Hab, Hbc.
  eapply OrderedTypeEx.String_as_OT.lt_trans; eassumption.
Qed.

(** Insertion by a comparison that is total and transitive sorts. *)
Lemma Array_sort_sorted {A} (cmp : A -> A -> Q) (le : A -> A -> Prop) :
  (forall a b, Qle_bool (cmp a b) 0 = true -> le a b) ->
  (forall a b, Qle_bool (cmp a b) 0 = false -> le b a) ->
  (forall a b c, le a b -> le b c -> le a c) ->
  forall l, StronglySorted le (Array_sort cmp l).
Proof.
  intros Hle Hgt Htrans l. induction l as [|x l IH]; [constructor|].
  cbn [Array_sort fold_right]. fold (Array_sort cmp l).
  induction IH as [|y s Hs IHs Hy]; cbn [sort_insert].
  - repeat constructor.
  - destruct (Qle_bool (cmp x y) 0) eqn:E.
    + constructor; [now constructor|].
      constructor; [now apply Hle|].
      eapply List.Forall_impl; [|exact Hy].
      intros z Hz. eapply Htrans; [apply Hle; exact E | exact Hz].
    + constructor; [exact IHs|].
      rewrite (sort_insert_perm cmp x s).
      constructor; [now apply Hgt | exact Hy].
Qed.

Lemma sort_strings_sorted (l : list string) :
  StronglySorted (fun a b => String.compare a b <> Gt)
                 (JsArray.sort_strings l).
Proof.
  apply Array_sort_sorted.
  - intros a b. destruct (String.compare a b); discriminate.
  - intros a b. rewrite (String.compare_antisym b a).
    destruct (String.compare a b); cbn; discriminate.
  - intros a b c Hab Hbc.
    destruct (String.compare a b) eqn:Eab; [| |contradiction].
    + apply String.compare_eq_iff in Eab. now subst.
    + destruct (String.compare b c) eqn:Ebc; [| |contradiction].
      * apply String.compare_eq_iff in Ebc. subst. now rewrite Eab.
      * now rewrite (compare_trans a b c).
Qed.

Lemma compare_refl a : String.compare a a = Eq.
Proof.
  induction a as [|c a IH]; [reflexivity|]. cbn.
  unfold Ascii.compare. rewrite N.compare_refl. exact IH.
Qed.

(** A sorted array of strings without repeats ascends. *)
Lemma ascending_strict (l : list string) :
  List.NoDup l ->
  StronglySorted (fun a b => String.compare a b <> Gt) l ->
  StronglySorted (fun a b => String.compare a b = Lt) l.
Proof.
  intros Hnd Hs. induction Hs as [|x l Hs IH Hx]; [constructor|].
  inversion Hnd as [|? ? Hin Hnd']; subst.
  constructor; [auto|].
  rewrite List.Forall_forall in *. intros y Hy. specialize (Hx y Hy).
  destruct (String.compare x y) eqn:E; [|reflexivity|contradiction].
  apply String.compare_eq_iff in E. subst. contradiction.
Qed.

Lemma sort_strings_unique (l : list string) :
  StronglySorted (fun a b => String.compare a b = Lt)
                 (JsArray.sort_strings (JsArray.unique l))
  /\ forall x, In x (JsArray.sort_strings (JsArray.unique l)) <-> In x l.
Proof.
  split.
  - apply ascending_strict; [|apply sort_strings_sorted].
    eapply Permutation_NoDup; [symmetry; apply Array_sort_perm|].
    apply unique_NoDup.
  - intros x. rewrite <- (unique_In l x). unfold JsArray.sort_strings.
    split; apply Permutation_in; [|symmetry]; apply Array_sort_perm.
Qed.

Lemma StronglySorted_skipn {A} (R : A -> A -> Prop) n (l : list A) :
  StronglySorted R l -> StronglySorted R (skipn n l).
Proof.
  revert l. induction n as [|n IH]; intros l Hl; [exact Hl|].
  destruct l as [|x l]; [constructor|]. cbn. apply IH.
  now inversion Hl.
Qed.

Lemma StronglySorted_map {A B} (R : B -> B -> Prop) (f : A -> B) (l : list A) :
  StronglySorted R (map f l) -> StronglySorted (fun a b => R (f a) (f b)) l.
Proof.
  induction l as [|x l IH]; [constructor|]. cbn. intros Hs.
  inversion Hs as [|? ? Hl Hx]; subst.
  constructor; [auto|]. rewrite List.Forall_map in Hx. exact Hx.
Qed.

Lemma slice_last_length {A} n (l : list A) :
  (length (JsArray.slice_last n l) <= n)%nat.
Proof. unfold JsArray.slice_last. rewrite length_skipn. lia. Qed.

Lemma slice_last_map {A B} (f : A -> B) n (l : list A) :
  map f (JsArray.slice_last n l) = JsArray.slice_last n (map f l).
Proof.
  unfold JsArray.slice_last. rewrite length_map. symmetry. apply skipn_map.
Qed.
End StringSortFacts.

(** ** The chart of the lead sources page on uploaded deals *)

Section LeadSourcesChartFacts.
Import JsDate LeadSourcesAnalysis JsString Stated StatedLeadSources.

Local Abbreviation plain_dates := (fun acc : JsObject.t (gset string) =>
  Forall (fun e => JsObject.inherited (fst e) = false) acc).

Lemma own_plain_date (acc : JsObject.t (gset string)) name :
  plain_dates acc -> JsObject.inherited name = true ->
  JsObject.own acc name = None.
Proof.
  intros Hacc Hname. destruct (JsObject.own acc name) as [v|] eqn:E;
    [|reflexivity].
  apply own_In in E. rewrite List.Forall_forall in Hacc.
  specialize (Hacc _ E). cbn [fst] in Hacc. congruence.
Qed.

Lemma idsByDate_step_cases acc deal :
  plain_dates acc ->
  if bucketed_on_inherited_name deal
  then idsByDate_step acc deal = Throws TypeError
  else exists acc', idsByDate_step acc deal = Returns acc'
                    /\ plain_dates acc'.
Proof.
  intros Hacc. unfold idsByDate_step, bucketed_on_inherited_name.
  destruct (bucket_date deal) as [date|]; [|eauto].
  destruct (filled (Some date)); cbn [andb]; [|eauto].
  destruct (JsObject.inherited date) eqn:Hname.
  - unfold JsObject.get. rewrite (own_plain_date _ _ Hacc Hname), Hname.
    now rewrite (own_plain_date _ _ Hacc Hname).
  - destruct (JsObject.own acc date) as [ids|] eqn:Eo.
    + unfold JsObject.get. rewrite Eo. cbv iota. rewrite ?Eo.
      eexists. split; [reflexivity|]. now apply set_Forall.
    + unfold JsObject.get. rewrite Eo, Hname. cbv iota.
      rewrite own_set_same by exact Hname.
      eexists. split; [reflexivity|].
      apply set_Forall; [|exact Hname]. now apply set_Forall.
Qed.

Lemma idsByDate_from (l : list Deal) acc :
  plain_dates acc ->
  (existsb bucketed_on_inherited_name l = false
   /\ exists byDate, reduce idsByDate_step l acc = Returns byDate)
  \/ (existsb bucketed_on_inherited_name l = true
      /\ reduce idsByDate_step l acc = Throws TypeError).
Proof.
  revert acc. induction l as [|d l IH]; intros acc Hacc.
  - left. split; [reflexivity | cbn; eauto].
  - pose proof (idsByDate_step_cases acc d Hacc) as Hstep.
    cbn [reduce existsb].
    destruct (bucketed_on_inherited_name d).
    + right. split; [reflexivity|]. now rewrite Hstep.
    + destruct Hstep as (acc' & -> & Hacc'). cbn [mbind outcome_bind orb].
      apply IH, Hacc'.
Qed.

Lemma idsByDate_cases select deals :
  (existsb (fun d => select d && bucketed_on_inherited_name d) deals = false
   /\ exists byDate, idsByDate select deals = Returns byDate)
  \/ (existsb (fun d => select d && bucketed_on_inherited_name d) deals = true
      /\ idsByDate select deals = Throws TypeError).
Proof.
  assert (E : existsb bucketed_on_inherited_name (List.filter select deals)
              = existsb (fun d => select d && bucketed_on_inherited_name d)
                        deals).
  { induction deals as [|d deals IH]; [reflexivity|].
    cbn [List.filter existsb]. destruct (select d); cbn [existsb andb orb];
      now rewrite IH. }
  rewrite <- E. apply idsByDate_from. constructor.
Qed.

(** The counts of a dictionary of counts are not negative. *)
Lemma countByDate_nonneg byDate :
  Forall (fun e => 0 <= snd e) (countByDate byDate).
Proof.
  unfold countByDate.
  assert (Hfold : forall l (acc : JsObject.t Z),
             Forall (fun e => 0 <= snd e) acc ->
             Forall (fun e => 0 <= snd e)
                    (fold_left (fun acc '(date, dealIds) =>
                                  JsObject.set acc date
                                    (Z.of_nat (size (dealIds : gset string))))
                               l acc)).
  { induction l as [|[date ids] l IH]; intros acc Hacc; [exact Hacc|].
    cbn [fold_left]. apply IH. apply set_Forall; [exact Hacc | cbn; lia]. }
  apply Hfold. constructor.
Qed.

Lemma rolling_avg_nonneg `{Host} (dateValueMap : JsObject.t Z) targetDate dates :
  Forall (fun e => 0 <= snd e) dateValueMap ->
  (0 <= calculate30DayRollingAvg dateValueMap targetDate dates)%Q.
Proof.
  intros Hmap. unfold calculate30DayRollingAvg.
  destruct (length dates =? 0)%nat; [lra|].
  assert (Hentries : Forall (fun e => 0 <= snd e) (JsObject.entries dateValueMap)).
  { eapply Permutation_Forall; [symmetry; apply entries_perm | exact Hmap]. }
  assert (Hfold : forall l (a : Z),
             0 <= a -> Forall (fun e : string * Z => 0 <= snd e) l ->
             0 <= fold_left
                    (fun sum '(date, count) =>
                       if ge (of_string date)
                             (of_number (tv ← getTime (of_string targetDate);
                                         Some (tv - 30 * 24 * 60 * 60 * 1000)))
                          && le (of_string date) (of_string targetDate)
                       then sum + count else sum) l a).
  { induction l as [|[date count] l IH]; intros a Ha Hl; [exact Ha|].
    cbn [fold_left]. inversion Hl as [|? ? Hc Hl']; subst. cbn [snd] in Hc.
    apply IH; [|exact Hl'].
    destruct (_ && _); lia. }
  specialize (Hfold _ 0 (Z.le_refl 0) Hentries).
  apply Qle_shift_div_l; [lra|]. rewrite Qmult_0_l.
  change 0%Q with (inject_Z 0). now rewrite <- Zle_Qle.
Qed.

Lemma allDates_sorted deals :
  StronglySorted (fun a b => String.compare a b = Lt) (allDates deals)
  /\ forall date,
       In date (allDates deals)
       <-> exists deal, In deal deals /\ bucket_date deal = Some date
                        /\ filled (Some date) = true.
Proof.
  unfold allDates. destruct (sort_strings_unique
    (omap (fun deal => match bucket_date deal with
                       | Some date => if filled (Some date) then Some date else None
                       | None => None
                       end) deals)) as [Hs Hin].
  split; [exact Hs|]. intros date. rewrite Hin.
  rewrite <- list_elem_of_In, list_elem_of_omap. split.
  - intros (deal & Hd%list_elem_of_In & Hb).
    exists deal. split; [exact Hd|].
    destruct (bucket_date deal) as [d|]; [|discriminate].
    destruct (filled (Some d)) eqn:Ef; [|discriminate].
    injection Hb as ->. auto.
  - intros (deal & Hd & Hb & Hf). exists deal.
    split; [now apply list_elem_of_In|]. now rewrite Hb, Hf.
Qed.

(** X18. The chart of the lead sources page has at most 90 points, those
    of the latest dates: the dates ascend without repeats, each is the
    date, not blank, under which a deal is bucketed, and no rolling
    average of the chart is negative. *)
Theorem chart_has_the_latest_90_dates `{Host} deals points :
  chartData deals = Returns points ->
  (length points <= 90)%nat
  /\ map date points = JsArray.slice_last 90 (allDates deals)
  /\ StronglySorted (fun p q => String.compare (date p) (date q) = Lt) points
  /\ Forall (fun p =>
               (exists deal, In deal deals
                             /\ bucket_date deal = Some (date p)
                             /\ filled (Some (date p)) = true)
               /\ (0 <= settledDeals30DayAvg p)%Q
               /\ (0 <= rednoteDeals30DayAvg p)%Q) points.
Proof.
  intros Hc. unfold chartData in Hc.
  destruct (allDates_sorted deals) as [Hsorted Hdates].
  destruct (length deals =? 0)%nat eqn:El.
  { injection Hc as <-. 
    assert (deals = []) by (destruct deals; [reflexivity | discriminate]).
    subst deals. cbn. repeat split; try lia; constructor. }
  apply bind_Returns in Hc as (settledCounts & Hs & Hc).
  apply bind_Returns in Hc as (rednoteCounts & Hr & Hc).
  assert (Hsn : Forall (fun e => 0 <= snd e) settledCounts).
  { unfold settledCountByDate in Hs.
    apply bind_Returns in Hs as (byDate & _ & [= <-]).
    apply countByDate_nonneg. }
  assert (Hrn : Forall (fun e => 0 <= snd e) rednoteCounts).
  { unfold rednoteCountByDate in Hr.
    apply bind_Returns in Hr as (byDate & _ & [= <-]).
    apply countByDate_nonneg. }
  destruct (Nat.eqb_spec (length (allDates deals)) 0) as [E0|E0].
  { injection Hc as <-. 
    assert (Ea : allDates deals = [])
      by (destruct (allDates deals); [reflexivity | discriminate]).
    rewrite Ea. cbn. repeat split; try lia; constructor. }
  injection Hc as <-.
  set (point := fun d : string => {| date := d; settledDeals30DayAvg := _;
                                     rednoteDeals30DayAvg := _ |}).
  assert (Edates : map date (JsArray.slice_last 90 (map point (allDates deals)))
                   = JsArray.slice_last 90 (allDates deals)).
  { rewrite slice_last_map, map_map. cbn [point date]. now rewrite map_id. }
  split; [apply slice_last_length|]. split; [exact Edates|]. split.
  - apply (StronglySorted_map (fun a b => String.compare a b = Lt) date).
    rewrite Edates.
    unfold JsArray.slice_last. now apply StronglySorted_skipn.
  - apply List.Forall_forall. intros p Hp%In_slice_last.
    apply in_map_iff in Hp as (d & <- & Hd). cbn [point date
      settledDeals30DayAvg rednoteDeals30DayAvg].
    split; [now apply Hdates|].
    split; now apply rolling_avg_nonneg.
Qed.

Lemma chart_has_the_latest_90_dates_witness :
  exists points,
    chartData (H := iso_host 0) Samples.uploaded_twice = Returns points
    /\ (length points <= 90)%nat.
Proof.
  eexists. split; [vm_compute; reflexivity|].
  eapply (chart_has_the_latest_90_dates (H := iso_host 0)
            Samples.uploaded_twice).
  vm_compute. reflexivity.
Defined.

(** X19. On deals with the fields of the interface [Deal], the two dates
    strings or absent, building the chart of the lead sources page fails
    exactly when a settled deal or a Rednote deal is bucketed under a text
    that is the name of a property every object inherits, such as
    ["constructor"], and then with a [TypeError]; every other list of
    deals gives a chart. (A date that holds a number is outside the type
    [Deal] of the embedding.) *)
Theorem chart_fails_on_inherited_dates `{Host} deals :
  (chartData deals = Throws TypeError
   <-> existsb (fun d => charted d && bucketed_on_inherited_name d) deals
       = true)
  /\ ((exists points, chartData deals = Returns points)
      <-> existsb (fun d => charted d && bucketed_on_inherited_name d) deals
          = false)
  /\ chartData deals <> Throws RangeError.
Proof.
  assert (Hor : existsb (fun d => charted d && bucketed_on_inherited_name d) deals
                = existsb (fun d => is_settled d && bucketed_on_inherited_name d)
                          deals
                  || existsb (fun d => is_rednote d && bucketed_on_inherited_name d)
                             deals).
  { unfold charted. induction deals as [|d deals IH]; [reflexivity|].
    cbn [existsb]. rewrite IH.
    destruct (is_settled d), (is_rednote d), (bucketed_on_inherited_name d);
      cbn [andb orb]; rewrite ?orb_true_r; try reflexivity;
      repeat match goal with
             | |- context [existsb ?f ?l] => destruct (existsb f l)
             end; reflexivity. }
  rewrite Hor. unfold chartData.
  destruct deals as [|d0 deals0] eqn:Ed; cbn [length Nat.eqb].
  { cbn. split; [split; discriminate|].
    split; [split; eauto | discriminate]. }
  rewrite <- Ed in *. clear Ed d0 deals0.
  unfold settledCountByDate, rednoteCountByDate.
  destruct (idsByDate_cases is_settled deals) as [[-> (sb & ->)]|[-> ->]];
    cbn [mbind outcome_bind orb].
  2: { split; [split; auto|]. split; [|discriminate].
       split; [intros [? ?]; discriminate | discriminate]. }
  destruct (idsByDate_cases is_rednote deals) as [[-> (rb & ->)]|[-> ->]];
    cbn [mbind outcome_bind orb].
  2: { split; [split; auto|]. split; [|discriminate].
       split; [intros [? ?]; discriminate | discriminate]. }
  destruct (length (allDates deals) =? 0)%nat.
  - split; [split; discriminate|]. split; [split; eauto | discriminate].
  - split; [split; discriminate|]. split; [split; eauto | discriminate].
Qed.
End LeadSourcesChartFacts.

(** ** The years and the chart of the lead sources page on sample deals *)

Section SampleYearsFacts.
Import JsDate LeadSourcesSample LeadSourcesSampleData JsString.
Context `{Host}.

Lemma StronglySorted_rev {A} (R : A -> A -> Prop) (l : list A) :
  StronglySorted R l -> StronglySorted (fun a b => R b a) (List.rev l).
Proof.
  induction 1 as [|x l Hs IH Hx]; [constructor|]. cbn [List.rev].
  assert (Happ : forall l1 l2,
             StronglySorted (fun a b => R b a) l1 ->
             StronglySorted (fun a b => R b a) l2 ->
             (forall a b, In a l1 -> In b l2 -> R b a) ->
             StronglySorted (fun a b => R b a) (l1 ++ l2)).
  { clear. induction l1 as [|a l1 IH]; intros l2 H1 H2 H12; [exact H2|].
    cbn. inversion H1 as [|? ? Hl1 Ha]; subst.
    constructor.
    - apply IH; auto. intros; apply H12; [now right | assumption].
    - apply Forall_app. split; [exact Ha|].
      apply List.Forall_forall. intros b Hb. apply H12; [now left | exact Hb]. }
  apply Happ; [exact IH | repeat constructor|].
  intros a b Ha%in_rev [<-|[]].
  rewrite List.Forall_forall in Hx. now apply Hx.
Qed.

(** X20. The years offered on the sample page are the year texts of the
    deals with a creation date, each once, in descending order of their
    text; the text is ["NaN"] for a creation date that does not read as a
    time. Selecting an offered year leaves at least one deal for the
    chart. *)
Theorem sample_years_descend deals :
  StronglySorted (fun a b => String.compare b a = Lt) (availableYears deals)
  /\ (forall y,
        In y (availableYears deals)
        <-> exists deal,
              In deal deals /\ truthy (created_date deal) = true
              /\ y = year_toString
                       (getFullYear (of_string (created_date deal))))
  /\ (forall y, In y (availableYears deals) ->
                List.filter (year_matches y) deals <> []).
Proof.
  unfold availableYears.
  destruct (sort_strings_unique (omap year_of deals)) as [Hs Hin].
  assert (Hyears : forall y,
             In y (List.rev (JsArray.sort_strings
                               (JsArray.unique (omap year_of deals))))
             <-> exists deal,
                   In deal deals /\ truthy (created_date deal) = true
                   /\ y = year_toString
                            (getFullYear (of_string (created_date deal)))).
  { intros y. rewrite <- in_rev, Hin.
    rewrite <- list_elem_of_In, list_elem_of_omap. unfold year_of. split.
    - intros (deal & Hd%list_elem_of_In & Hy).
      destruct (truthy (created_date deal)) eqn:Et; [|discriminate].
      injection Hy as <-. eauto.
    - intros (deal & Hd & Et & ->). exists deal.
      split; [now apply list_elem_of_In|]. now rewrite Et. }
  split; [|split].
  - now apply (StronglySorted_rev (fun a b => String.compare a b = Lt)).
  - exact Hyears.
  - intros y (deal & Hd & _ & ->)%Hyears E.
    assert (Hf : In deal (List.filter
                   (year_matches (year_toString
                      (getFullYear (of_string (created_date deal))))) deals)).
    { apply List.filter_In. split; [exact Hd|].
      unfold year_matches. apply String.eqb_refl. }
    rewrite E in Hf. destruct Hf.
Qed.
End SampleYearsFacts.

(** The row counter returns on creation dates that are not names that
    objects inherit. *)
Lemma rowsByDate_returns (select : LeadSourcesSample.Deal -> bool) deals :
  Forall (fun d => JsObject.inherited (LeadSourcesSample.created_date d) = false)
         deals ->
  exists m, LeadSourcesSample.rowsByDate select deals = Some m.
Proof.
  intros Hall. unfold LeadSourcesSample.rowsByDate.
  assert (Hsel : Forall (fun d => JsObject.inherited
                                    (LeadSourcesSample.created_date d) = false)
                        (List.filter select deals)).
  { apply List.Forall_forall. intros d [Hd _]%List.filter_In.
    rewrite List.Forall_forall in Hall. now apply Hall. }
  generalize (@nil (string * Z)).
  induction Hsel as [|d l Hd _ IH]; intros acc; cbn [foldl]; [eauto|].
  cbn [mbind option_bind]. unfold LeadSourcesSample.rowsByDate_step at 2.
  unfold JsObject.get. rewrite Hd.
  destruct (JsObject.own acc (LeadSourcesSample.created_date d)); apply IH.
Qed.

Section SampleChartFacts.
Import JsDate LeadSourcesSample JsString Stated.
Context `{Host}.

Lemma StronglySorted_filter {A} (R : A -> A -> Prop) (p : A -> bool) l :
  StronglySorted R l -> StronglySorted R (List.filter p l).
Proof.
  induction 1 as [|x l Hs IH Hx]; [constructor|]. cbn.
  destruct (p x); [|exact IH]. constructor; [exact IH|].
  apply List.Forall_forall. intros y [Hy _]%List.filter_In.
  rewrite List.Forall_forall in Hx. now apply Hx.
Qed.

(** A date that does not read as a time has no rolling average. *)
Lemma rolling_sum_invalid (dateValueMap : JsObject.t Z) targetDate :
  of_string targetDate = None ->
  calculate30DayRollingSum dateValueMap targetDate = Some null.
Proof. intros E. unfold calculate30DayRollingSum. now rewrite E. Qed.

(** A date with 30 days of time before it has one. *)
Lemma rolling_sum_number (dateValueMap : JsObject.t Z) targetDate tv :
  of_string targetDate = Some tv -> minTime + 30 * msPerDay <= tv ->
  exists q, calculate30DayRollingSum dateValueMap targetDate = Some (Num q).
Proof.
  intros Hs Htv. pose proof (of_string_range _ _ Hs) as Hrange.
  unfold calculate30DayRollingSum. rewrite Hs, setDate_getDate_sub.
  rewrite TimeClip_Some by (unfold minTime, maxTime, msPerDay in *; lia).
  change (tv - 30 * msPerDay) with (tv - Z.of_nat 30 * msPerDay).
  rewrite window_loop_total.
  - eexists. reflexivity.
  - unfold msPerDay in *. lia.
  - lia.
  - unfold window_fuel.
    replace ((tv - (tv - Z.of_nat 30 * msPerDay)) / msPerDay) with 30
      by (unfold msPerDay; Z.div_mod_to_equations; lia).
    cbn; lia.
Qed.

(** The dates of a dictionary of row counts are the creation dates of
    the selected deals. *)
Lemma rowsByDate_dates select deals m date :
  rowsByDate select deals = Some m ->
  In date (map fst m)
  <-> exists deal, In deal deals /\ select deal = true
                   /\ created_date deal = date.
Proof.
  intros Hm. unfold rowsByDate in Hm.
  pose proof (rowsByDate_fold_counted _ [] [] m (fun _ => eq_refl) Hm date)
    as Hc.
  cbn [app] in Hc. cbv zeta in Hc.
  assert (Hkey : In date (map fst m) <-> JsObject.own m date <> None).
  { split.
    - intros Hin Ho. now apply own_None_keys in Ho.
    - intros Ho. destruct (JsObject.own m date) as [v|] eqn:E; [|contradiction].
      apply own_In in E. now apply (in_map fst) in E. }
  rewrite Hkey, Hc.
  set (rows := List.filter (fun deal => String.eqb (created_date deal) date)
                           (List.filter select deals)).
  split.
  - intros Hne. destruct rows as [|d rows'] eqn:Er; [now cbn in Hne|].
    assert (Hd : In d rows) by (rewrite Er; now left).
    apply List.filter_In in Hd as [Hd Ed%String.eqb_eq].
    apply List.filter_In in Hd as [Hd Hs]. eauto.
  - intros (deal & Hd & Hs & Ed).
    assert (Hin : In deal rows).
    { apply List.filter_In. split; [apply List.filter_In; auto|].
      now apply String.eqb_eq. }
    destruct rows; [destruct Hin | cbn; discriminate].
Qed.

(** The points of the chart of the sample page, when the functions of
    the page return. *)
Lemma sample_chart_points deals (selectedYear : string) points :
  chartData deals selectedYear = Some points ->
  let filtered :=
    if String.eqb selectedYear "all" then deals
    else List.filter (year_matches selectedYear) deals in
  StronglySorted (fun p q => String.compare (date p) (date q) = Lt) points
  /\ Forall (fun p =>
               (settledDeals30DayAvg p <> null
                \/ rednoteDeals30DayAvg p <> null)
               /\ of_string (date p) <> None
               /\ exists deal,
                    In deal filtered
                    /\ (is_settled deal || is_rednote deal) = true
                    /\ created_date deal = date p) points
  /\ forall deal tv,
       In deal filtered ->
       (is_settled deal || is_rednote deal) = true ->
       of_string (created_date deal) = Some tv ->
       minTime + 30 * msPerDay <= tv ->
       In (created_date deal) (map date points).
Proof.
  intros Hc. cbv zeta. unfold chartData in Hc.
  destruct (length deals =? 0)%nat eqn:El.
  { injection Hc as <-.
    assert (deals = []) by (destruct deals; [reflexivity | discriminate]).
    subst deals. split; [constructor|]. split; [constructor|].
    intros deal tv Hd. destruct (String.eqb selectedYear "all"); destruct Hd. }
  set (filtered := if String.eqb selectedYear "all" then deals
                   else List.filter (year_matches selectedYear) deals) in *.
  destruct (rowsByDate is_settled filtered) as [sb|] eqn:Esb; [|discriminate].
  destruct (rowsByDate is_rednote filtered) as [rb|] eqn:Erb; [|discriminate].
  cbn [mbind option_bind] in Hc.
  set (keys := map fst (JsObject.entries sb) ++ map fst (JsObject.entries rb))
    in *.
  destruct (mapM (point sb rb) (JsArray.sort_strings (JsArray.unique keys)))
    as [result|] eqn:Em; [|discriminate].
  cbn [mbind option_bind] in Hc. injection Hc as <-.
  destruct (sort_strings_unique keys) as [Hsorted Hkeys].
  assert (Hpoint : forall d p, point sb rb d = Some p ->
             date p = d
             /\ calculate30DayRollingSum sb d = Some (settledDeals30DayAvg p)
             /\ calculate30DayRollingSum rb d = Some (rednoteDeals30DayAvg p)).
  { intros d p. unfold point.
    destruct (calculate30DayRollingSum sb d) as [s|]; [|discriminate].
    destruct (calculate30DayRollingSum rb d) as [r|]; [|discriminate].
    cbn. intros [= <-]. auto. }
  assert (Edates : map date result
                   = JsArray.sort_strings (JsArray.unique keys)).
  { apply (mapM_fmap_Some_inv _ _ _ _ Em). intros d p Hp.
    now apply Hpoint in Hp. }
  assert (Hkey : forall d, In d keys
             <-> exists deal, In deal filtered
                              /\ (is_settled deal || is_rednote deal) = true
                              /\ created_date deal = d).
  { intros d. subst keys. rewrite in_app_iff.
    rewrite (perm_In_iff _ _ d (Permutation_map fst (entries_perm sb))).
    rewrite (perm_In_iff _ _ d (Permutation_map fst (entries_perm rb))).
    rewrite (rowsByDate_dates _ _ _ _ Esb), (rowsByDate_dates _ _ _ _ Erb).
    split.
    - intros [(deal & Hd & Hs & Ed)|(deal & Hd & Hs & Ed)];
        exists deal; rewrite Hs, ?orb_true_r; auto.
    - intros (deal & Hd & Hs & Ed).
      apply orb_true_iff in Hs as [Hs|Hs]; [left | right]; eauto. }
  assert (Hresult : forall p, In p result -> point sb rb (date p) = Some p).
  { apply mapM_Some_1 in Em. clear -Em Hpoint.
    induction Em as [|d p l k Hp _ IH]; [intros ? []|].
    intros q [<-|Hq]; [|now apply IH].
    destruct (Hpoint _ _ Hp) as [<- _]. exact Hp. }
  split; [|split].
  - apply StronglySorted_filter.
    apply (StronglySorted_map (fun a b => String.compare a b = Lt) date).
    now rewrite Edates.
  - apply List.Forall_forall. intros p [Hp Hnn]%List.filter_In.
    destruct (Hpoint _ _ (Hresult p Hp)) as (_ & Hs & Hr).
    split; [|split].
    + destruct (settledDeals30DayAvg p), (rednoteDeals30DayAvg p);
        try discriminate; auto; left; discriminate.
    + intros E. rewrite (rolling_sum_invalid sb _ E) in Hs.
      rewrite (rolling_sum_invalid rb _ E) in Hr.
      injection Hs as Hs. injection Hr as Hr.
      rewrite <- Hs, <- Hr in Hnn. discriminate.
    + apply Hkey, Hkeys. rewrite <- Edates. now apply in_map.
  - intros deal tv Hd Hsel Htv Hrange.
    assert (Hin : In (created_date deal) (map date result)).
    { rewrite Edates. apply Hkeys, Hkey. eauto. }
    apply in_map_iff in Hin as (p & Ep & Hp).
    apply in_map_iff. exists p. split; [exact Ep|].
    apply List.filter_In. split; [exact Hp|].
    destruct (Hpoint _ _ (Hresult p Hp)) as (_ & Hs & _).
    rewrite Ep in Hs.
    destruct (rolling_sum_number sb _ _ Htv Hrange) as [q Hq].
    rewrite Hq in Hs. injection Hs as <-. reflexivity.
Qed.

(** The rolling average of the sample page is a number or [null] for
    every date text. *)
Lemma rolling_sum_returns (dateValueMap : JsObject.t Z) targetDate :
  exists r, calculate30DayRollingSum dateValueMap targetDate = Some r.
Proof.
  destruct (of_string targetDate) as [tv|] eqn:E.
  - destruct (full_window_null_before_30_days dateValueMap targetDate tv E)
      as [Hnull Hnum].
    destruct (Z.lt_ge_cases tv (minTime + 30 * msPerDay)); eauto.
  - eexists. now apply rolling_sum_invalid.
Qed.

Lemma points_return (sb rb : JsObject.t Z) (dates : list string) :
  exists result, mapM (point sb rb) dates = Some result.
Proof.
  apply mapM_is_Some_2, List.Forall_forall. intros d _.
  unfold compose, point.
  destruct (rolling_sum_returns sb d) as [s ->].
  destruct (rolling_sum_returns rb d) as [r ->].
  cbn. now eexists.
Qed.

(** The chart of the sample page is produced when no creation date is
    the name of a property that every object inherits. *)
Lemma sample_chart_returns deals (selectedYear : string) :
  Forall (fun deal => JsObject.inherited (created_date deal) = false) deals ->
  exists points, chartData deals selectedYear = Some points.
Proof.
  intros Hplain. unfold chartData.
  destruct (length deals =? 0)%nat; [now eexists|].
  set (filtered := if String.eqb selectedYear "all" then deals
                   else List.filter (year_matches selectedYear) deals).
  assert (Hf : Forall (fun deal => JsObject.inherited (created_date deal) = false)
                      filtered).
  { subst filtered. destruct (String.eqb selectedYear "all"); [exact Hplain|].
    apply List.Forall_forall. intros d [Hd _]%List.filter_In.
    rewrite List.Forall_forall in Hplain. now apply Hplain. }
  destruct (rowsByDate_returns is_settled filtered Hf) as [sb ->].
  destruct (rowsByDate_returns is_rednote filtered Hf) as [rb ->].
  cbn [mbind option_bind].
  match goal with
  | |- context [mapM (point sb rb) ?l] =>
      destruct (points_return sb rb l) as [result ->]
  end.
  cbn [mbind option_bind]. now eexists.
Qed.

(** X21. When no creation date is the name of a property that every
    object inherits, as for every generated deal, whose creation date is
    an ISO date, the chart of the sample page is produced. It has one
    point for each creation date of a settled or Rednote deal of the
    selected year that reads as a time with 30 days of time before it, in
    ascending order of the date text; every point has at least one
    rolling average, and a creation date that does not read as a time
    gives no point. *)
Theorem sample_chart_dates deals (selectedYear : string) :
  let filtered :=
    if String.eqb selectedYear "all" then deals
    else List.filter (year_matches selectedYear) deals in
  Forall (fun deal => JsObject.inherited (created_date deal) = false) deals ->
  exists points,
    chartData deals selectedYear = Some points
    /\ StronglySorted (fun p q => String.compare (date p) (date q) = Lt)
                      points
    /\ Forall (fun p =>
                 (settledDeals30DayAvg p <> null
                  \/ rednoteDeals30DayAvg p <> null)
                 /\ of_string (date p) <> None
                 /\ exists deal,
                      In deal filtered
                      /\ (is_settled deal || is_rednote deal) = true
                      /\ created_date deal = date p) points
    /\ forall deal tv,
         In deal filtered ->
         (is_settled deal || is_rednote deal) = true ->
         of_string (created_date deal) = Some tv ->
         minTime + 30 * msPerDay <= tv ->
         In (created_date deal) (map date points).
Proof.
  intros filtered Hplain.
  destruct (sample_chart_returns deals selectedYear Hplain) as [points Hc].
  exists points. split; [exact Hc|].
  exact (sample_chart_points deals selectedYear points Hc).
Qed.
End SampleChartFacts.

Lemma sample_chart_dates_witness :
  exists points,
    LeadSourcesSample.chartData (H := JsDate.iso_host 0)
      Samples.first_days "all" = Some points
    /\ map LeadSourcesSample.date points = ["2023-01-01"; "2023-01-03"]
    /\ Forall (fun p => JsDate.of_string (H := JsDate.iso_host 0)
                          (LeadSourcesSample.date p) <> None) points.
Proof.
  destruct (sample_chart_dates (H := JsDate.iso_host 0)
              Samples.first_days "all")
    as (points & Hc & _ & Hpoints & _).
  { repeat constructor. }
  exists points. split; [exact Hc|]. split.
  - assert (E : LeadSourcesSample.chartData (H := JsDate.iso_host 0)
                  Samples.first_days "all" = Some points) by exact Hc.
    vm_compute in E. injection E as <-. reflexivity.
  - eapply List.Forall_impl; [|exact Hpoints].
    cbv beta. intros p (_ & Hp & _). exact Hp.
Defined.

(** ** The generated sample deals *)

Section SampleDataFacts.
Import JsDate LeadSourcesSample LeadSourcesSampleData JsString.
Context `{Host}.
Variable random : nat -> Q.
Hypothesis random_range : forall n, (0 <= random n < 1)%Q.

Lemma pick_range calls (n : Z) :
  0 < n -> 0 <= pick random calls (inject_Z n) < n.
Proof.
  intros Hn. unfold pick. destruct (random_range calls) as [H0 H1].
  assert (Hn' : (0 < inject_Z n)%Q)
    by (change 0%Q with (inject_Z 0); now rewrite <- Zlt_Qlt).
  set (x := (random calls * inject_Z n)%Q).
  assert (Hx0 : (0 <= x)%Q) by (subst x; nra).
  assert (Hx1 : (x < inject_Z n)%Q) by (subst x; nra).
  pose proof (Qfloor_le x) as Hle. pose proof (Qlt_floor x) as Hlt.
  split.
  - change 0 with (Qfloor 0). now apply Qfloor_resp_le.
  - rewrite Zlt_Qlt. lra.
Qed.

Lemma below_cases calls p : below random calls p = true \/ below random calls p = false.
Proof. destruct (below random calls p); auto. Qed.

(** A random time between two times. *)
Lemma random_date (s e : Z) calls :
  0 <= s -> s < e -> e <= maxTime ->
  exists tv,
    date_of_number
      (Some (inject_Z s + random calls * inject_Z (e - s))%Q) = Some tv
    /\ s <= tv < e.
Proof.
  intros Hs Hse He. destruct (random_range calls) as [H0 H1].
  unfold date_of_number. cbn [mbind option_bind].
  set (x := (inject_Z s + random calls * inject_Z (e - s))%Q).
  assert (Hd : (0 < inject_Z (e - s))%Q).
  { change 0%Q with (inject_Z 0). rewrite <- Zlt_Qlt. lia. }
  assert (Hxs : (inject_Z s <= x)%Q) by (subst x; nra).
  assert (Hxe : (x < inject_Z e)%Q).
  { assert (E : (inject_Z e == inject_Z s + inject_Z (e - s))%Q).
    { rewrite <- inject_Z_plus. now replace (s + (e - s)) with e by lia. }
    subst x. rewrite E. nra. }
  assert (Hs' : (0 <= inject_Z s)%Q).
  { change 0%Q with (inject_Z 0). now rewrite <- Zle_Qle. }
  assert (Hpos : Qle_bool 0 x = true) by (apply Qle_bool_iff; lra).
  rewrite Hpos.
  assert (Hfloor : s <= Qfloor x < e).
  { split.
    - rewrite <- (Qfloor_Z s). now apply Qfloor_resp_le.
    - rewrite Zlt_Qlt. pose proof (Qfloor_le x). lra. }
  exists (Qfloor x). split; [|exact Hfloor].
  apply TimeClip_Some. unfold minTime, maxTime in *. lia.
Qed.

Lemma status_at_range (index : Z) :
  0 <= index < 6 ->
  In (if 0 <=? index then nth (Z.to_nat index) statuses "" else "") statuses.
Proof.
  intros Hi.
  assert (Hcases : index = 0 \/ index = 1 \/ index = 2 \/ index = 3
                   \/ index = 4 \/ index = 5) by lia.
  destruct Hcases as [->|[->|[->|[->|[->| ->]]]]]; cbn; auto 10.
Qed.

(** One pass of the loop pushes a deal of the stated kind. *)
Lemma sample_deal_ok (i : Z) (calls : nat) :
  exists deal calls',
    sample_deal random (Some 1672531200000) (Some 1736467200000) i calls
    = (Returns deal, calls')
    /\ sample_of i deal.
Proof.
  unfold sample_deal. cbn [getTime mbind option_bind].
  destruct (random_date 1672531200000 1736467200000 calls)
    as (tv & -> & Htv); [lia | lia | unfold maxTime; lia |].
  cbn [toISOString mbind outcome_bind]. rewrite ISOString_date.
  pose proof (pick_range (S (S (S calls))) 15 ltac:(lia)) as Hbroker.
  change (inject_Z 15) with 15%Q in Hbroker.
  destruct (below random (S calls) (25 # 100)) eqn:Er;
    destruct (below random (S (S calls)) (15 # 100)) eqn:Es;
    cbn [negb];
    repeat match goal with
           | |- context [below random ?c (35 # 100)] =>
               destruct (below random c (35 # 100))
           end;
    cbv beta iota zeta;
    eexists; eexists; (split; [reflexivity|]);
    unfold sample_of;
    cbn [deal_id deal_name broker_name status deal_value From_Rednote
         From_LifeX created_date];
    (split; [reflexivity|]); (split; [reflexivity|]);
    (split; [eexists; split; [exact Hbroker | reflexivity]|]);
    (split; [first [ now left
                   | right; apply status_at_range;
                     apply pick_range; lia ]|]);
    (split; [eexists; split; [apply pick_range; lia
                             | reflexivity]|]);
    (split; [cbn; auto|]); (split; [cbn; auto|]);
    (split; [first [reflexivity | discriminate]|]);
    exists tv; (split; [lia | reflexivity]).
Qed.

(** The numbers from [i] on. *)
Local Abbreviation numbers := (fun (i : Z) (count : nat) =>
  map (fun k => i + Z.of_nat k) (seq 0 count)).

Lemma numbers_S i count :
  numbers i (S count) = i :: numbers (i + 1) count.
Proof.
  cbn [seq map]. rewrite Z.add_0_r. f_equal.
  rewrite <- seq_shift, map_map. apply map_ext. intros k. lia.
Qed.

Lemma generate_from_ok (count : nat) :
  forall i calls deals,
  exists new,
    generate_from random (Some 1672531200000) (Some 1736467200000)
                  count i calls deals
    = Returns (deals ++ new)
    /\ Forall2 sample_of (numbers i count) new.
Proof.
  induction count as [|count IH]; intros i calls deals.
  - exists []. split; [cbn; now rewrite app_nil_r | constructor].
  - cbn [generate_from].
    destruct (sample_deal_ok i calls) as (deal & calls' & -> & Hdeal).
    cbn [mbind outcome_bind].
    destruct (IH (i + 1) calls' (deals ++ [deal])) as (new & -> & Hnew).
    exists (deal :: new). split; [now rewrite <- app_assoc|].
    rewrite numbers_S. now constructor.
Qed.

Lemma append_inj (p a b : string) : p +:+ a = p +:+ b -> a = b.
Proof.
  induction p as [|c p IH]; [auto|].
  cbv beta iota fix delta [String.append]. fold String.append.
  intros [= E]. auto.
Qed.

Lemma numbers_NoDup i count : List.NoDup (numbers i count).
Proof.
  apply NoDup_map_injective; [|apply List.seq_NoDup].
  intros a b. lia.
Qed.

Lemma numbers_range i count k :
  In k (numbers i count) -> i <= k < i + Z.of_nat count.
Proof.
  intros (j & <- & Hj)%in_map_iff. apply List.in_seq in Hj. lia.
Qed.

End SampleDataFacts.

Section SampleDataTheorems.
Import JsDate LeadSourcesSample LeadSourcesSampleData JsString.
Context `{Host}.
Variable random : nat -> Q.
Hypothesis random_range : forall n, (0 <= random n < 1)%Q.

Local Abbreviation numbers := (fun (i : Z) (count : nat) =>
  map (fun k => i + Z.of_nat k) (seq 0 count)).

(** The deals before the sort: the deals of the 2000 passes of the loop,
    in a host that reads the two dates of the range. *)
Lemma generated_by_the_loop :
  Date_parse "2023-01-01" = Some 1672531200000 ->
  Date_parse "2025-01-10" = Some 1736467200000 ->
  exists new,
    generateSampleDeals random
    = Returns (Array_sort (by_created_date (H := H)) new)
    /\ Forall2 sample_of (numbers 0 2000%nat) new.
Proof.
  intros Hstart Hend. unfold generateSampleDeals, of_string.
  rewrite Hstart, Hend.
  change (TimeClip 1672531200000) with (Some 1672531200000).
  change (TimeClip 1736467200000) with (Some 1736467200000).
  destruct (generate_from_ok random random_range 2000%nat 0 0%nat [])
    as (new & -> & Hnew).
  cbn [app mbind outcome_bind]. eauto.
Qed.

Lemma loop_ids (l : list Z) (new : list Deal) :
  Forall2 sample_of l new ->
  map deal_id new = map (fun k => "deal_" +:+ of_Z k) l.
Proof.
  induction 1 as [|k d ks ds Hd _ IH]; [reflexivity|].
  cbn [map]. rewrite IH. f_equal. apply Hd.
Qed.

Lemma loop_ids_NoDup i count (new : list Deal) :
  Forall2 sample_of (numbers i count) new -> List.NoDup (map deal_id new).
Proof.
  intros Hnew. rewrite (loop_ids _ _ Hnew).
  apply NoDup_map_injective; [|apply numbers_NoDup].
  intros a b E. now apply append_inj, of_Z_inj in E.
Qed.

(** X22. The sample data are 2000 deals with the distinct ids [deal_0]
    to [deal_1999]. Each deal has one of 15 brokers, one of seven
    statuses, a whole value from 0 up to but not including 1,500,000 and a
    creation date from 2023-01-01 to 2025-01-10, and no deal is attributed
    to both Rednote and LifeX. *)
Theorem sample_deals_are_2000_distinct :
  Date_parse "2023-01-01" = Some 1672531200000 ->
  Date_parse "2025-01-10" = Some 1736467200000 ->
  exists deals,
    generateSampleDeals random = Returns deals
    /\ length deals = 2000%nat
    /\ List.NoDup (map deal_id deals)
    /\ (forall i, 0 <= i < 2000 ->
                  In ("deal_" +:+ of_Z i) (map deal_id deals))
    /\ Forall (fun deal => exists i, 0 <= i < 2000 /\ sample_of i deal) deals.
Proof.
  intros Hstart Hend.
  destruct (generated_by_the_loop Hstart Hend) as (new & -> & Hnew).
  eexists. split; [reflexivity|].
  set (sorted := Array_sort (by_created_date (H := H)) new).
  assert (Hperm : Permutation sorted new) by apply Array_sort_perm.
  pose proof (loop_ids _ _ Hnew) as Hids.
  assert (Hlen : length new = 2000%nat).
  { rewrite <- (length_map deal_id), Hids, !length_map. apply length_seq. }
  split; [|split; [|split]].
  - now rewrite (Permutation_length Hperm).
  - eapply Permutation_NoDup; [symmetry; apply Permutation_map, Hperm|].
    now apply (loop_ids_NoDup 0 2000%nat).
  - intros i Hi.
    eapply Permutation_in; [symmetry; apply Permutation_map, Hperm|].
    rewrite Hids. apply in_map_iff. exists i. split; [reflexivity|].
    apply in_map_iff. exists (Z.to_nat i). split; [lia|].
    apply List.in_seq. lia.
  - eapply Permutation_Forall; [symmetry; exact Hperm|].
    clear -Hnew.
    assert (Hall : Forall (fun deal => exists i, In i (numbers 0 2000%nat)
                                                 /\ sample_of i deal) new).
    { revert Hnew. generalize (numbers 0 2000%nat). intros l Hnew.
      induction Hnew as [|i d ks ds Hd _ IH]; constructor.
      - exists i. split; [now left | exact Hd].
      - eapply List.Forall_impl; [|exact IH].
        intros deal (k & Hk & Hs). exists k. split; [now right | exact Hs]. }
    eapply List.Forall_impl; [|exact Hall].
    intros deal (k & Hk%numbers_range & Hs). exists k. split; [lia | exact Hs].
Qed.

(** X23. On the sample data the count that the chart keeps for a date is
    the number of distinct deals, settled or from Rednote, created on that
    date, whatever year is selected: the generated ids are distinct, so
    counting rows counts deals. *)
Theorem sample_counts_are_distinct_deals
    (select keep : Deal -> bool) deals (m : JsObject.t Z) (date : string) :
  Date_parse "2023-01-01" = Some 1672531200000 ->
  Date_parse "2025-01-10" = Some 1736467200000 ->
  generateSampleDeals random = Returns deals ->
  rowsByDate select (List.filter keep deals) = Some m ->
  Stated.count_at m date
  = Z.of_nat (size (list_to_set
                      (map deal_id
                           (Stated.rows_on select (List.filter keep deals) date))
                    : gset string)).
Proof.
  intros Hstart Hend Hdeals Hm.
  destruct (generated_by_the_loop Hstart Hend) as (new & Hd & Hnew).
  assert (Hnd : List.NoDup (map deal_id deals)).
  { rewrite Hd in Hdeals. injection Hdeals as <-.
    eapply Permutation_NoDup;
      [symmetry; apply Permutation_map, Array_sort_perm|].
    now apply (loop_ids_NoDup 0 2000%nat). }
  rewrite (rowsByDate_rows _ _ _ date Hm).
  rewrite size_list_to_set; [now rewrite length_map|].
  unfold Stated.rows_on.
  apply NoDup_map_filter, NoDup_map_filter.
  now apply NoDup_ListNoDup.
Qed.
End SampleDataTheorems.

Lemma sample_counts_are_distinct_deals_witness :
  exists deals m,
    LeadSourcesSampleData.generateSampleDeals (H := JsDate.iso_host 0)
      (fun _ => 0%Q) = Returns deals
    /\ LeadSourcesSample.rowsByDate LeadSourcesSample.is_settled
         (List.filter (fun _ => true) deals) = Some m
    /\ Stated.count_at m "2023-01-01"
       = Z.of_nat (size (list_to_set
                           (map LeadSourcesSample.deal_id
                                (Stated.rows_on LeadSourcesSample.is_settled
                                   (List.filter (fun _ => true) deals)
                                   "2023-01-01"))
                         : gset string)).
Proof.
  assert (Hrange : forall n : nat, (0 <= 0 < 1)%Q)
    by (intros n; split; [apply Qle_refl | reflexivity]).
  destruct (generated_by_the_loop (H := JsDate.iso_host 0) (fun _ => 0%Q)
              Hrange eq_refl eq_refl)
    as (new & Hd & Hnew).
  set (deals := Array_sort _ new) in *.
  destruct (rowsByDate_returns LeadSourcesSample.is_settled
              (List.filter (fun _ => true) deals)) as [m Hm].
  { apply List.Forall_forall. intros d [Hin _]%List.filter_In.
    apply (Permutation_in _ (Array_sort_perm _ new)) in Hin.
    assert (Hall : Forall (fun d => exists i, LeadSourcesSampleData.sample_of i d)
                          new).
    { clear -Hnew. revert Hnew.
      generalize (map (fun k : nat => 0 + Z.of_nat k) (seq 0 2000)).
      intros l Hnew. induction Hnew; constructor; eauto. }
    rewrite List.Forall_forall in Hall.
    destruct (Hall d Hin) as (i & Hs).
    destruct Hs as (_ & _ & _ & _ & _ & _ & _ & _ & tv & _ & ->).
    apply ISODate_not_inherited. }
  exists deals, m. split; [exact Hd|]. split; [exact Hm|].
  exact (sample_counts_are_distinct_deals (H := JsDate.iso_host 0)
           (fun _ => 0%Q) Hrange LeadSourcesSample.is_settled (fun _ => true)
           deals m "2023-01-01" eq_refl eq_refl Hd Hm).
Defined.

Lemma sample_deals_are_2000_distinct_witness :
  exists deals,
    LeadSourcesSampleData.generateSampleDeals (H := JsDate.iso_host 0)
      (fun _ => 0%Q) = Returns deals
    /\ length deals = 2000%nat.
Proof.
  destruct (sample_deals_are_2000_distinct (H := JsDate.iso_host 0)
              (fun _ => 0%Q))
    as (deals & Hd & Hlen & _).
  - intros n. split; [apply Qle_refl | reflexivity].
  - reflexivity.
  - reflexivity.
  - exists deals. split; [exact Hd | exact Hlen].
Defined.

(** ** The claim on counts per date *)

Section DateCountClaims.
Import Stated.
Import LeadSourcesSampleData.
Context `{Host}.
Variable random : nat -> Q.
Hypothesis random_range : forall n, (0 <= random n < 1)%Q.

(** The creation dates of the deals of the loop are ISO dates, which are
    not names that objects inherit. *)
Lemma loop_dates_plain (l : list Z) (new : list LeadSourcesSample.Deal) :
  Forall2 sample_of l new ->
  Forall (fun d => JsObject.inherited (LeadSourcesSample.created_date d)
                   = false) new.
Proof.
  induction 1 as [|k d ks ds Hd _ IH]; constructor; [|exact IH].
  destruct Hd as (_ & _ & _ & _ & _ & _ & _ & _ & tv & _ & ->).
  apply ISODate_not_inherited.
Qed.

(** C4. The count of a date that is fed to the rolling average is the
    number of distinct [deal_id]s of the deals of that date. On the page
    of uploaded deals, for the settled and for the Rednote series and for
    every list of deals, the ids of a date are collected in a set: two
    rows with the same [deal_id] and date count once. The sample page
    receives the generated deals only; it counts the rows of a date,
    and since the generated ids are distinct, for every sequence of
    random numbers, every selection and every year filter, that is the
    number of distinct [deal_id]s of the date as well. *)
Theorem counts_per_date (deals : list LeadSourcesAnalysis.Deal) :
  Date_parse "2023-01-01" = Some 1672531200000 ->
  Date_parse "2025-01-10" = Some 1736467200000 ->
  (forall settledCounts date,
      LeadSourcesAnalysis.settledCountByDate deals = Returns settledCounts ->
      count_at settledCounts date
      = Z.of_nat (size (distinct_ids LeadSourcesAnalysis.is_settled deals date)))
  /\ (forall rednoteCounts date,
        LeadSourcesAnalysis.rednoteCountByDate deals = Returns rednoteCounts ->
        count_at rednoteCounts date
        = Z.of_nat (size (distinct_ids LeadSourcesAnalysis.is_rednote
                                       deals date)))
  /\ (forall row row' date settledCounts,
        deals = [row; row'] ->
        LeadSourcesAnalysis.deal_id row = LeadSourcesAnalysis.deal_id row' ->
        LeadSourcesAnalysis.is_settled row = true ->
        LeadSourcesAnalysis.is_settled row' = true ->
        bucket_is date row = true -> bucket_is date row' = true ->
        LeadSourcesAnalysis.settledCountByDate deals = Returns settledCounts ->
        count_at settledCounts date = 1)
  /\ exists sample,
       generateSampleDeals random = Returns sample
       /\ List.NoDup (map LeadSourcesSample.deal_id sample)
       /\ forall select keep,
            exists counts,
              LeadSourcesSample.rowsByDate select (List.filter keep sample)
              = Some counts
              /\ forall date,
                   count_at counts date
                   = Z.of_nat
                       (size (list_to_set
                                (map LeadSourcesSample.deal_id
                                     (rows_on select (List.filter keep sample)
                                              date))
                              : gset string)).
Proof.
  intros Hstart Hend.
  assert (Hsettled : forall settledCounts date,
             LeadSourcesAnalysis.settledCountByDate deals
             = Returns settledCounts ->
             count_at settledCounts date
             = Z.of_nat (size (distinct_ids LeadSourcesAnalysis.is_settled
                                            deals date))).
  { intros settledCounts date Hs.
    unfold LeadSourcesAnalysis.settledCountByDate in Hs.
    apply bind_Returns in Hs as (byDate & Hb & [= <-]).
    now apply countByDate_distinct. }
  split; [exact Hsettled | split; [|split]].
  - intros rednoteCounts date Hr.
    unfold LeadSourcesAnalysis.rednoteCountByDate in Hr.
    apply bind_Returns in Hr as (byDate & Hb & [= <-]).
    now apply countByDate_distinct.
  - intros row row' date settledCounts Hdeals Hid Hs1 Hs2 Hb1 Hb2 Hs.
    rewrite (Hsettled _ date Hs). subst deals.
    unfold distinct_ids. cbn [List.filter].
    rewrite Hs1, Hs2, Hb1, Hb2. cbn. rewrite Hid.
    rewrite union_empty_r_L, union_idemp_L, size_singleton. reflexivity.
  - destruct (generated_by_the_loop random random_range Hstart Hend)
      as (new & Hd & Hnew).
    set (sample := Array_sort _ new) in *.
    assert (Hperm : Permutation sample new) by apply Array_sort_perm.
    assert (Hnd : List.NoDup (map LeadSourcesSample.deal_id sample)).
    { eapply Permutation_NoDup; [symmetry; apply Permutation_map, Hperm|].
      exact (loop_ids_NoDup 0 2000%nat new Hnew). }
    exists sample. split; [exact Hd|]. split; [exact Hnd|].
    intros select keep.
    destruct (rowsByDate_returns select (List.filter keep sample))
      as [counts Hc].
    { apply List.Forall_forall. intros d [Hin _]%List.filter_In.
      apply (Permutation_in _ Hperm) in Hin.
      pose proof (loop_dates_plain _ _ Hnew) as Hplain.
      rewrite List.Forall_forall in Hplain. now apply Hplain. }
    exists counts. split; [exact Hc|]. intros date.
    rewrite (rowsByDate_rows _ _ _ date Hc).
    rewrite size_list_to_set; [now rewrite length_map|].
    unfold rows_on. apply NoDup_map_filter, NoDup_map_filter.
    now apply NoDup_ListNoDup.
Qed.
End DateCountClaims.

Lemma counts_per_date_witness :
  (exists settledCounts,
      LeadSourcesAnalysis.settledCountByDate Samples.uploaded_twice
      = Returns settledCounts
      /\ Stated.count_at settledCounts "2024-01-05" = 1)
  /\ (exists sample,
         LeadSourcesSampleData.generateSampleDeals (H := JsDate.iso_host 0)
           (fun _ => 0%Q) = Returns sample
         /\ List.NoDup (map LeadSourcesSample.deal_id sample)).
Proof.
  assert (Hrange : forall n : nat, (0 <= 0 < 1)%Q)
    by (intros n; split; [apply Qle_refl | reflexivity]).
  destruct (counts_per_date (H := JsDate.iso_host 0) (fun _ => 0%Q) Hrange
              Samples.uploaded_twice eq_refl eq_refl)
    as (_ & _ & Htwice & sample & Hsample & Hnd & _).
  split.
  - eexists. split; [reflexivity|].
    eapply Htwice; reflexivity.
  - exists sample. split; [exact Hsample | exact Hnd].
Defined.

(** ** File names and amounts *)

Section UploadTextFacts.
Import JsString JsText DealsUpload.

Lemma append_String_assoc a c b :
  (a +:+ String c EmptyString) +:+ b = a +:+ String c b.
Proof.
  induction a as [|x a IH]; [reflexivity|].
  change (String x ((a +:+ String c EmptyString) +:+ b)
          = String x (a +:+ String c b)).
  now rewrite IH.
Qed.

Lemma split_pop_plain sep s current :
  existsb (Ascii.eqb sep) (list_ascii_of_string s) = false ->
  split_pop sep s current = current +:+ s.
Proof.
  revert current.
  induction s as [|c s IH]; intros current;
    cbn [split_pop list_ascii_of_string existsb].
  - intros _. induction current as [|x current IH]; [reflexivity|].
    change (String x current = String x (current +:+ EmptyString)).
    now rewrite <- IH.
  - intros [Hc Hs]%orb_false_iff. rewrite Ascii.eqb_sym, Hc, IH by exact Hs.
    apply append_String_assoc.
Qed.

(** The piece after the last separator. *)
Lemma split_pop_last sep base ext current :
  existsb (Ascii.eqb sep) (list_ascii_of_string ext) = false ->
  split_pop sep (base +:+ String sep ext) current = ext.
Proof.
  intros Hext. revert current.
  induction base as [|c base IH]; intros current.
  - change (EmptyString +:+ String sep ext) with (String sep ext).
    cbn [split_pop]. rewrite Ascii.eqb_refl. now rewrite split_pop_plain.
  - change (String c base +:+ String sep ext)
      with (String c (base +:+ String sep ext)).
    cbn [split_pop]. destruct (Ascii.eqb c sep); apply IH.
Qed.

(** The extension is what follows the last dot, in lower case. *)
Lemma fileExtension_of_name file base ext :
  name file = base +:+ "." +:+ ext ->
  includes ext "." = false ->
  fileExtension file = toLowerCase ext.
Proof.
  intros Hname Hext. unfold fileExtension. rewrite Hname.
  rewrite includes_char in Hext.
  change (base +:+ "." +:+ ext) with (base +:+ String "." ext).
  now rewrite split_pop_last.
Qed.

Lemma all_digits_uint (u : Decimal.uint) :
  all_digits (NilEmpty.string_of_uint u) = true.
Proof. induction u; cbn; auto. Qed.

Lemma split_at_point_digits s :
  all_digits s = true -> split_at_point s = (s, None).
Proof.
  induction s as [|c s IH]; [reflexivity|].
  cbn [all_digits split_at_point]. intros [Hc Hs]%andb_true_iff.
  rewrite (IH Hs).
  destruct (Ascii.eqb_spec c ".") as [->|_]; [discriminate | reflexivity].
Qed.

Lemma unsigned_decimal_uint (u : Decimal.uint) :
  u <> Decimal.Nil ->
  unsigned_decimal (NilEmpty.string_of_uint u)
  = Some (inject_Z (Z.of_N (Pos.of_uint u))).
Proof.
  intros Hu. unfold unsigned_decimal.
  rewrite split_at_point_digits, all_digits_uint by apply all_digits_uint.
  unfold digits_value. rewrite (radix_prefix_uint u None eq_refl Hu).
  destruct u; [contradiction | reflexivity..].
Qed.

(** The numeral of an integer is read back as the integer. *)
Lemma Number_of_amount_of_Z z :
  Number_of_amount (of_Z z) = Some (inject_Z z).
Proof.
  unfold of_Z. destruct z as [|p|p]; [reflexivity|..];
    cbn [Z.to_int NilZero.string_of_int];
    pose proof (Unsigned.to_uint_nonnil p) as Hp;
    pose proof (unsigned_decimal_uint _ Hp) as Hd;
    rewrite DecimalPos.Unsigned.of_to in Hd;
    (replace (NilZero.string_of_uint (Pos.to_uint p))
       with (NilEmpty.string_of_uint (Pos.to_uint p))
       by (destruct (Pos.to_uint p); [contradiction | reflexivity..])).
  - etransitivity; [|exact Hd].
    destruct (Pos.to_uint p); [contradiction | reflexivity..].
  - cbn [Number_of_amount]. now rewrite Hd.
Qed.

Lemma no_digit_all_digits s :
  Forall (fun c => is_digit c = false) (list_ascii_of_string s) ->
  all_digits s = true -> s = EmptyString.
Proof.
  destruct s as [|c s]; [reflexivity|]. cbn.
  intros Hs. inversion Hs as [|? ? Hc _]; subst. now rewrite Hc.
Qed.

Lemma split_at_point_chars (P : ascii -> Prop) s :
  Forall P (list_ascii_of_string s) ->
  Forall P (list_ascii_of_string (fst (split_at_point s)))
  /\ (forall f, snd (split_at_point s) = Some f ->
                Forall P (list_ascii_of_string f)).
Proof.
  induction s as [|c s IH]; cbn [split_at_point list_ascii_of_string].
  - intros _. split; [constructor | discriminate].
  - intros Hs. inversion Hs as [|? ? Hc Hs']; subst.
    destruct (Ascii.eqb c ".").
    + split; [constructor|]. now intros f [= <-].
    + destruct (IH Hs') as [Hw Hf].
      destruct (split_at_point s) as [whole fraction]. cbn in *.
      split; [now constructor | exact Hf].
Qed.

Lemma unsigned_decimal_no_digit s :
  Forall (fun c => is_digit c = false) (list_ascii_of_string s) ->
  unsigned_decimal s = None.
Proof.
  intros Hs. unfold unsigned_decimal.
  destruct (split_at_point_chars _ s Hs) as [Hw Hf].
  destruct (split_at_point s) as [whole fraction]. cbn in *.
  destruct (all_digits whole) eqn:Ew; [|reflexivity].
  rewrite (no_digit_all_digits _ Hw Ew).
  destruct fraction as [f|]; [|reflexivity].
  destruct (all_digits f) eqn:Ef; [|reflexivity].
  now rewrite (no_digit_all_digits _ (Hf f eq_refl) Ef).
Qed.

(** Text without a digit is not a number, or is empty. *)
Lemma Number_of_amount_no_digit s :
  Forall (fun c => is_digit c = false) (list_ascii_of_string s) ->
  default 0%Q (Number_of_amount s) = 0%Q.
Proof.
  intros Hs. destruct s as [|c s]; [reflexivity|].
  assert (Hu : unsigned_decimal (String c s) = None)
    by now apply unsigned_decimal_no_digit.
  assert (Hu' : unsigned_decimal s = None).
  { apply unsigned_decimal_no_digit. now inversion Hs. }
  unfold Number_of_amount.
  destruct c as [[] [] [] [] [] [] [] []]; rewrite ?Hu, ?Hu'; reflexivity.
Qed.

Lemma keep_amount_no_digit s :
  Forall (fun c => is_digit c = false) (list_ascii_of_string s) ->
  Forall (fun c => is_digit c = false) (list_ascii_of_string (keep_amount s)).
Proof.
  induction s as [|c s IH]; cbn; [constructor|].
  intros Hs. inversion Hs; subst.
  destruct (is_amount_char c); cbn; [constructor|]; auto.
Qed.
End UploadTextFacts.

(** ** The deals of a sheet *)

Section DictMoreFacts.
Context {V : Type}.
Implicit Types (o : JsObject.t V) (k : string) (v : V).

(** An assignment leaves the other properties as they are. *)
Lemma own_set_other o k v k' :
  k' <> k -> JsObject.own (JsObject.set o k v) k' = JsObject.own o k'.
Proof.
  intros Hne. unfold JsObject.set. destruct (JsObject.own o k) eqn:E.
  - rewrite own_replace by congruence.
    destruct (String.eqb_spec k' k); [contradiction | reflexivity].
  - destruct (String.eqb k "__proto__"); [reflexivity|].
    rewrite own_app. cbn.
    destruct (String.eqb_spec k' k); [contradiction|].
    now destruct (JsObject.own o k').
Qed.

Lemma own_set_field o k v :
  k <> "__proto__" -> JsObject.own (JsObject.set o k v) k = Some v.
Proof.
  intros Hk. rewrite own_set by now right. now rewrite String.eqb_refl.
Qed.

Lemma own_keys o k v : JsObject.own o k = Some v -> In k (map fst o).
Proof. intros Ho%own_In. now apply (in_map fst) in Ho. Qed.
End DictMoreFacts.

Section ImportFacts.
Import JsString JsText DealsUpload.
Variable Number_toString : Q -> string.
Variable Date_toString : Z -> string.

Local Abbreviation text_or := (DealsUpload.text_or Number_toString Date_toString).
Local Abbreviation import_row :=
  (DealsUpload.import_row Number_toString Date_toString).
Local Abbreviation import_rows :=
  (DealsUpload.import_rows Number_toString Date_toString).
Local Abbreviation dealsArray_of_sheet :=
  (DealsUpload.dealsArray_of_sheet Number_toString Date_toString).

Lemma assign_columns_other headers colIndex r deal k :
  ~ In (Some k) headers ->
  JsObject.own (assign_columns headers colIndex r deal) k
  = JsObject.own deal k.
Proof.
  revert colIndex deal.
  induction headers as [|[h|] headers IH]; intros colIndex deal Hk;
    cbn [assign_columns]; [reflexivity|..].
  - rewrite IH by (intros ?; apply Hk; now right).
    apply own_set_other. intros ->. apply Hk. now left.
  - apply IH. intros ?. apply Hk. now right.
Qed.

Lemma cell_or_null_valid r colIndex :
  valid_dates r -> cell_or_null r colIndex <> DateCell None.
Proof.
  intros Hr. unfold cell_or_null.
  destruct (r !! colIndex) as [[c|]|] eqn:E; [|discriminate..].
  apply list_elem_of_lookup_2, list_elem_of_In in E.
  destruct c as [| | |[tv|]| |]; try discriminate. contradiction.
Qed.

Lemma assign_columns_valid headers colIndex r deal :
  valid_dates r -> Forall no_invalid_date deal ->
  Forall no_invalid_date (assign_columns headers colIndex r deal).
Proof.
  intros Hr. revert colIndex deal.
  induction headers as [|[h|] headers IH]; intros colIndex deal Hd;
    cbn [assign_columns]; [exact Hd | | now apply IH].
  apply IH, set_Forall; [exact Hd|]. now apply cell_or_null_valid.
Qed.

Lemma amount_other deal k :
  k <> "deal_value" -> JsObject.own (amount deal) k = JsObject.own deal k.
Proof.
  intros Hk. unfold amount.
  destruct (JsObject.own deal "deal_value") as [[]|];
    try reflexivity; now apply own_set_other.
Qed.

Lemma amount_value deal :
  exists value, JsObject.own (amount deal) "deal_value" = Some (Num value).
Proof.
  unfold amount.
  destruct (JsObject.own deal "deal_value") as [[]|] eqn:E;
    try (eexists; apply own_set_field; discriminate).
  eexists. exact E.
Qed.

Lemma amount_valid deal :
  Forall no_invalid_date deal -> Forall no_invalid_date (amount deal).
Proof.
  intros Hd. unfold amount.
  destruct (JsObject.own deal "deal_value") as [[]|];
    try exact Hd; apply set_Forall; try exact Hd; discriminate.
Qed.

Lemma iso_cell_idem c : iso_cell (iso_cell c) = iso_cell c.
Proof. now destruct c as [[| | |[]| |]|]. Qed.

Lemma iso_cell_invalid c :
  iso_cell c = Some (DateCell None) -> c = Some (DateCell None).
Proof. destruct c as [[| | |[]| |]|]; cbn; congruence. Qed.

Lemma iso_cell_date c d : iso_cell c = Some (DateCell d) -> d = None.
Proof. destruct c as [[| | |[]| |]|]; cbn; congruence. Qed.

(** One step of the loop over the keys. *)
Lemma date_to_iso_own deal key deal' :
  date_to_iso deal key = Done deal' ->
  JsObject.own deal key <> Some (DateCell None)
  /\ forall k, JsObject.own deal' k
               = if String.eqb k key then iso_cell (JsObject.own deal k)
                 else JsObject.own deal k.
Proof.
  unfold date_to_iso.
  destruct (JsObject.own deal key) as [c|] eqn:E.
  2: { intros [= <-]. split; [discriminate|]. intros k.
       destruct (String.eqb_spec k key) as [->|]; now rewrite ?E. }
  destruct c as [s|n|b|[tv|]|  |]; cbn [JsDate.toISOString];
    try discriminate;
    intros [= <-]; (split; [discriminate|]); intros k.
  4: { rewrite own_set by (left; congruence).
       destruct (String.eqb_spec k key) as [->|]; now rewrite ?E. }
  all: destruct (String.eqb_spec k key) as [->|]; now rewrite ?E.
Qed.

Lemma forEach_dates keys deal deal' :
  forEach date_to_iso keys deal = Done deal' ->
  (forall k, In k keys -> JsObject.own deal k <> Some (DateCell None))
  /\ (forall k, In k keys ->
                JsObject.own deal' k = iso_cell (JsObject.own deal k))
  /\ (forall k, ~ In k keys -> JsObject.own deal' k = JsObject.own deal k).
Proof.
  revert deal. induction keys as [|key keys IH]; intros deal; cbn [forEach].
  - intros [= <-]. split; [|split]; [intros k [] | intros k [] | reflexivity].
  - destruct (date_to_iso deal key) as [d1|] eqn:E1; cbn; [|discriminate].
    intros Hrest. destruct (date_to_iso_own _ _ _ E1) as [Hkey Hown1].
    destruct (IH _ Hrest) as (Hvalid & Hin & Hout).
    assert (Hstep : forall k, iso_cell (JsObject.own d1 k)
                              = iso_cell (JsObject.own deal k)).
    { intros k. rewrite Hown1. destruct (String.eqb k key);
        [apply iso_cell_idem | reflexivity]. }
    split; [|split].
    + intros k [<-|Hk]; [exact Hkey|]. intros Ek.
      apply (Hvalid k Hk). rewrite Hown1, Ek. now destruct (String.eqb k key).
    + intros k Hk. destruct (in_dec string_dec k keys) as [Hk'|Hk'].
      * rewrite (Hin k Hk'). apply Hstep.
      * destruct Hk as [<-|Hk]; [|contradiction].
        rewrite (Hout _ Hk'), Hown1. now rewrite String.eqb_refl.
    + intros k Hk. rewrite Hout by (intros ?; apply Hk; now right).
      rewrite Hown1. destruct (String.eqb_spec k key) as [->|]; [|reflexivity].
      exfalso. apply Hk. now left.
Qed.

(** The loop over the keys: every valid [Date] becomes its ISO string,
    and no invalid [Date] was there. *)
Lemma dates_to_iso_own deal deal' :
  dates_to_iso deal = Done deal' ->
  (forall k, JsObject.own deal k <> Some (DateCell None))
  /\ (forall k, JsObject.own deal' k = iso_cell (JsObject.own deal k)).
Proof.
  unfold dates_to_iso. intros (Hvalid & Hin & Hout)%forEach_dates.
  assert (Hkeys : forall k c, JsObject.own deal k = Some c ->
                              In k (map fst (JsObject.entries deal))).
  { intros k c Hk%own_keys.
    eapply Permutation_in; [|exact Hk].
    apply Permutation_map, Permutation_sym, entries_perm. }
  split.
  - intros k Ek. exact (Hvalid k (Hkeys _ _ Ek) Ek).
  - intros k.
    destruct (in_dec string_dec k (map fst (JsObject.entries deal)))
      as [Hk|Hk]; [now apply Hin|].
    rewrite (Hout _ Hk).
    destruct (JsObject.own deal k) as [c|] eqn:Ek; [|reflexivity].
    exfalso. exact (Hk (Hkeys _ _ Ek)).
Qed.

Lemma forEach_dates_done keys deal :
  (forall k, JsObject.own deal k <> Some (DateCell None)) ->
  exists deal', forEach date_to_iso keys deal = Done deal'.
Proof.
  revert deal. induction keys as [|key keys IH]; intros deal Hvalid;
    cbn [forEach]; [now eexists|].
  assert (Hd : exists d1, date_to_iso deal key = Done d1).
  { unfold date_to_iso. specialize (Hvalid key).
    destruct (JsObject.own deal key) as [[| | |[tv|]| |]|];
      cbn; try (eexists; reflexivity). now contradiction Hvalid. }
  destruct Hd as [d1 E1]. rewrite E1. cbn.
  apply IH. intros k Ek.
  destruct (date_to_iso_own _ _ _ E1) as [_ Hown1]. rewrite Hown1 in Ek.
  destruct (String.eqb k key); [apply iso_cell_invalid in Ek|];
    exact (Hvalid _ Ek).
Qed.

(** The deal made of a row. *)
Lemma import_row_fields headers index r deal :
  import_row headers index r = Done deal ->
  JsObject.own deal "deal_id"
  = Some (Text (text_or (assign_columns headers 0 r []) "deal_id"
                        ("excel_" +:+ of_Z (Z.of_nat index + 1))))
  /\ (exists name, JsObject.own deal "deal_name" = Some (Text name))
  /\ (exists broker, JsObject.own deal "broker_name" = Some (Text broker))
  /\ (exists status, JsObject.own deal "status" = Some (Text status))
  /\ (exists value, JsObject.own deal "deal_value" = Some (Num value))
  /\ (forall key d, JsObject.own deal key <> Some (DateCell d)).
Proof.
  unfold DealsUpload.import_row. cbv zeta.
  intros [Hvalid Hown]%dates_to_iso_own.
  split; [|split; [|split; [|split; [|split]]]].
  - rewrite Hown, amount_other by discriminate.
    rewrite !own_set_other by discriminate.
    now rewrite own_set_field by discriminate.
  - eexists. rewrite Hown, amount_other by discriminate.
    rewrite !own_set_other by discriminate.
    now rewrite own_set_field by discriminate.
  - eexists. rewrite Hown, amount_other by discriminate.
    rewrite !own_set_other by discriminate.
    now rewrite own_set_field by discriminate.
  - eexists. rewrite Hown, amount_other by discriminate.
    now rewrite own_set_field by discriminate.
  - match type of Hown with
    | context [amount ?d] => destruct (amount_value d) as [value Ev]
    end.
    exists value. now rewrite Hown, Ev.
  - intros key d Ek. rewrite Hown in Ek.
    pose proof (iso_cell_date _ _ Ek) as ->.
    apply iso_cell_invalid in Ek. exact (Hvalid _ Ek).
Qed.

(** A row without an invalid date gives a deal. *)
Lemma import_row_done headers index r :
  valid_dates r -> exists deal, import_row headers index r = Done deal.
Proof.
  intros Hr. unfold DealsUpload.import_row. cbv zeta.
  apply forEach_dates_done. intros k Ek. apply own_In in Ek. revert Ek.
  match goal with
  | |- In _ ?d -> _ =>
      assert (Hd : Forall no_invalid_date d);
      [|intros Ek; rewrite List.Forall_forall in Hd;
        now apply (Hd _ Ek)]
  end.
  apply amount_valid.
  repeat (apply set_Forall; [|discriminate]).
  apply assign_columns_valid; [exact Hr | constructor].
Qed.

Lemma import_rows_each headers index rows deals :
  import_rows headers index rows = Done deals ->
  Forall2 (fun j deal => exists r, In r rows
                                   /\ import_row headers j r = Done deal)
          (seq index (length rows)) deals.
Proof.
  revert index deals.
  induction rows as [|r rows IH]; intros index deals;
    cbn [DealsUpload.import_rows length seq].
  - intros [= <-]. constructor.
  - destruct (import_row headers index r) as [deal|] eqn:E; cbn;
      [|discriminate].
    destruct (import_rows headers (S index) rows) as [deals'|] eqn:E';
      cbn; [|discriminate].
    intros [= <-]. constructor.
    + exists r. split; [now left | exact E].
    + eapply Forall2_impl; [apply IH, E'|].
      intros j deal' (r' & Hr' & Hd). exists r'. split; [now right | exact Hd].
Qed.

(** The deal at a position of the mapped rows is the deal of the row at
    that position. *)
Lemma import_rows_lookup headers index rows deals :
  import_rows headers index rows = Done deals ->
  length deals = length rows
  /\ forall j deal,
       deals !! j = Some deal ->
       exists r, rows !! j = Some r
                 /\ import_row headers (index + j) r = Done deal.
Proof.
  revert index deals.
  induction rows as [|r rows IH]; intros index deals;
    cbn [DealsUpload.import_rows].
  - intros [= <-]. split; [reflexivity|]. intros j deal Hj. discriminate.
  - destruct (import_row headers index r) as [deal0|] eqn:E; cbn;
      [|discriminate].
    destruct (import_rows headers (S index) rows) as [deals'|] eqn:E';
      cbn; [|discriminate].
    intros [= <-]. destruct (IH _ _ E') as [Hlen Hrows].
    split; [cbn; now rewrite Hlen|].
    intros [|j] deal Hj; cbn in Hj.
    + injection Hj as <-. exists r. split; [reflexivity|].
      now rewrite Nat.add_0_r.
    + destruct (Hrows j deal Hj) as (r' & Hr' & Hd).
      exists r'. split; [exact Hr'|]. now rewrite Nat.add_succ_r.
Qed.

Lemma import_rows_done headers index rows :
  Forall valid_dates rows ->
  exists deals, import_rows headers index rows = Done deals.
Proof.
  intros Hrows. revert index.
  induction Hrows as [|r rows Hr Hrows IH]; intros index;
    cbn [DealsUpload.import_rows]; [now eexists|].
  destruct (import_row_done headers index r Hr) as [deal ->].
  destruct (IH (S index)) as [deals ->]. cbn. now eexists.
Qed.

Lemma trim_headers_each first headers :
  mapM trim_header first = Done headers ->
  forall k, In (Some k) headers ->
            exists s, In (Some (Text s)) first /\ k = trim s.
Proof.
  revert headers. induction first as [|c first IH]; intros headers; cbn.
  - intros [= <-] k [].
  - destruct (trim_header c) as [h|] eqn:Eh; cbn; [|discriminate].
    destruct (mapM trim_header first) as [hs|]; cbn; [|discriminate].
    intros [= <-] k [->|Hk].
    + destruct c as [[| | | | |]|]; try discriminate.
      injection Eh as <-. eexists. split; [now left | reflexivity].
    + destruct (IH _ eq_refl k Hk) as (s & Hs & ->).
      exists s. split; [now right | reflexivity].
Qed.

Lemma trim_headers_done first :
  Forall header_cell first ->
  exists headers, mapM trim_header first = Done headers.
Proof.
  induction 1 as [|c first Hc _ [hs IH]]; cbn; [now eexists|].
  rewrite IH. destruct c as [[| | | | |]|]; try contradiction;
    cbn; now eexists.
Qed.
End ImportFacts.

(** ** The upload handler *)

Section UploadTheorems.
Import JsString JsText DealsUpload.
Variable Number_toString : Q -> string.
Variable Date_toString : Z -> string.
Variable storage_key : string.
Variable read_json : File -> attempt json.
Variable read_sheet : File -> attempt (list row).
Variable JSON_stringify : list record -> string.
Variable quota_exceeded : gmap string string -> string -> string -> bool.
Variable host_message : HostThrow -> string.

Local Abbreviation dealsArray_of_sheet :=
  (DealsUpload.dealsArray_of_sheet Number_toString Date_toString).
Local Abbreviation keep_deals :=
  (DealsUpload.keep_deals storage_key JSON_stringify quota_exceeded).
Local Abbreviation read_file :=
  (DealsUpload.read_file Number_toString Date_toString storage_key
     read_json read_sheet JSON_stringify quota_exceeded).
Local Abbreviation kept := (DealsUpload.kept storage_key JSON_stringify).
Local Abbreviation read_deals :=
  (DealsUpload.read_deals Number_toString Date_toString read_json read_sheet).
Local Abbreviation upload :=
  (handleFileUpload Number_toString Date_toString storage_key
     read_json read_sheet JSON_stringify quota_exceeded host_message).

Lemma keep_deals_cases dealsArray st :
  (quota_exceeded (storage st) storage_key (JSON_stringify dealsArray) = true
   /\ keep_deals dealsArray st
      = (setError None (setDeals dealsArray st), Some (ByHost QuotaExceeded)))
  \/ (quota_exceeded (storage st) storage_key (JSON_stringify dealsArray)
      = false
      /\ keep_deals dealsArray st = (kept dealsArray st, None)).
Proof.
  unfold DealsUpload.keep_deals, DealsUpload.kept. cbn.
  destruct (quota_exceeded _ _ _); [left | right]; split; reflexivity.
Qed.

Lemma read_file_deals file st :
  read_file file st
  = match read_deals file with
    | Done dealsArray => keep_deals dealsArray st
    | Fails e => (st, Some e)
    end.
Proof.
  unfold DealsUpload.read_file, DealsUpload.read_deals. cbv zeta.
  destruct (String.eqb (fileExtension file) "json").
  - destruct (read_json file) as [v|]; cbn; [|reflexivity].
    now destruct (dealsArray_of_json v).
  - destruct (String.eqb (fileExtension file) "xlsx"
              || String.eqb (fileExtension file) "xls"); [|reflexivity].
    destruct (read_sheet file) as [rows|]; cbn; [|reflexivity].
    now destruct (dealsArray_of_sheet rows).
Qed.

(** The two ways the handler ends. *)
Lemma upload_cases file st :
  (exists dealsArray,
      read_deals file = Done dealsArray
      /\ quota_exceeded (storage st) storage_key (JSON_stringify dealsArray)
         = false
      /\ upload (Some file) st
         = setInputValue ""
             (setIsLoading false
                (kept dealsArray (setError None (setIsLoading true st)))))
  \/ (exists err,
         (read_deals file = Fails err
          \/ exists dealsArray,
               read_deals file = Done dealsArray
               /\ quota_exceeded (storage st) storage_key
                                 (JSON_stringify dealsArray) = true
               /\ err = ByHost QuotaExceeded)
         /\ upload (Some file) st
            = {| deals := []; isLoading := false;
                 error := Some (message_of host_message err);
                 storage := delete storage_key (storage st);
                 input_value := "" |}).
Proof.
  unfold handleFileUpload. cbv zeta. rewrite read_file_deals.
  destruct (read_deals file) as [dealsArray|err] eqn:E.
  - destruct (keep_deals_cases dealsArray
                (setError None (setIsLoading true st)))
      as [[Hq ->]|[Hq ->]]; cbn in Hq.
    + right. exists (ByHost QuotaExceeded). split; [|reflexivity].
      right. now exists dealsArray.
    + left. now exists dealsArray.
  - right. exists err. split; [now left | reflexivity].
Qed.

(** X24: whatever the file holds, the handler leaves the page
    consistent: it is no longer loading and the file input is empty;
    either no error is shown and the storage holds the text of the deals
    of the page under the key, or an error is shown, the page has no
    deals and the storage holds nothing under the key; no other key of
    the storage is touched. *)
Theorem upload_leaves_page_consistent file st :
  isLoading (upload (Some file) st) = false
  /\ input_value (upload (Some file) st) = ""
  /\ (forall k, k <> storage_key ->
                storage (upload (Some file) st) !! k = storage st !! k)
  /\ ((error (upload (Some file) st) = None
       /\ storage (upload (Some file) st) !! storage_key
          = Some (JSON_stringify (deals (upload (Some file) st))))
      \/ (exists message,
             error (upload (Some file) st) = Some message
             /\ deals (upload (Some file) st) = []
             /\ storage (upload (Some file) st) !! storage_key = None)).
Proof.
  destruct (upload_cases file st) as [(dealsArray & _ & _ & ->)
                                     |(err & _ & ->)]; cbn.
  - split; [reflexivity|]. split; [reflexivity|]. split.
    + intros k Hk. now rewrite lookup_insert_ne.
    + left. split; [reflexivity|]. now rewrite lookup_insert_eq.
  - split; [reflexivity|]. split; [reflexivity|]. split.
    + intros k Hk. now rewrite lookup_delete_ne.
    + right. eexists. split; [reflexivity|]. split; [reflexivity|].
      now rewrite lookup_delete_eq.
Qed.

(** X25: a file whose name ends, after its last dot, in anything but
    json, xlsx or xls in whatever case is refused: the page shows the
    message about the format, has no deals and stores none. *)
Theorem other_extensions_are_refused file base ext st :
  name file = base +:+ "." +:+ ext ->
  includes ext "." = false ->
  ~ In (toLowerCase ext) ["json"; "xlsx"; "xls"] ->
  error (upload (Some file) st) = Some unsupported
  /\ deals (upload (Some file) st) = []
  /\ storage (upload (Some file) st) !! storage_key = None.
Proof.
  intros Hname Hext Hother.
  pose proof (fileExtension_of_name _ _ _ Hname Hext) as Hfile.
  assert (Hread : read_deals file = Fails (Error unsupported)).
  { unfold DealsUpload.read_deals. rewrite Hfile.
    destruct (String.eqb_spec (toLowerCase ext) "json") as [E|_];
      [exfalso; apply Hother; rewrite E; cbn; tauto|].
    destruct (String.eqb_spec (toLowerCase ext) "xlsx") as [E|_];
      [exfalso; apply Hother; rewrite E; cbn; tauto|].
    destruct (String.eqb_spec (toLowerCase ext) "xls") as [E|_];
      [exfalso; apply Hother; rewrite E; cbn; tauto|].
    reflexivity. }
  destruct (upload_cases file st)
    as [(dealsArray & Hd & _)|(err & [Hd|(dealsArray & Hd & _)] & ->)];
    try congruence.
  rewrite Hread in Hd. injection Hd as <-. cbn.
  split; [reflexivity|]. split; [reflexivity|]. now rewrite lookup_delete_eq.
Qed.

(** X26: a JSON file that parses is accepted exactly when the value is
    an array, or an object whose own property deals is an array, and the
    storage has room for it; then the page holds the elements of that
    array. *)
Theorem json_file_is_accepted_iff file st v :
  fileExtension file = "json" ->
  read_json file = Done v ->
  (error (upload (Some file) st) = None
   <-> exists l,
         (v = JArray l
          \/ exists o, v = JObject o
                       /\ JsObject.own o "deals" = Some (JArray l))
         /\ quota_exceeded (storage st) storage_key
                           (JSON_stringify (map Parsed l)) = false)
  /\ (forall l,
         v = JArray l
         \/ (exists o, v = JObject o
                       /\ JsObject.own o "deals" = Some (JArray l)) ->
         error (upload (Some file) st) = None ->
         deals (upload (Some file) st) = map Parsed l).
Proof.
  intros Hext Hv.
  assert (Hread : read_deals file
                  = dealsArray ← dealsArray_of_json v;
                    Done (map Parsed dealsArray)).
  { unfold DealsUpload.read_deals. now rewrite Hext, Hv. }
  assert (Hshape : forall l,
             dealsArray_of_json v = Done l
             <-> (v = JArray l
                  \/ exists o, v = JObject o
                               /\ JsObject.own o "deals" = Some (JArray l))).
  { intros l. split.
    - destruct v as [| | | |l'|o]; cbn; try discriminate.
      + intros [= ->]. now left.
      + destruct (JsObject.own o "deals") as [[| | | |l'|]|] eqn:Eo;
          try discriminate.
        intros [= ->]. right. now exists o.
    - intros [->|(o & -> & Ho)]; cbn; [reflexivity | now rewrite Ho]. }
  destruct (upload_cases file st)
    as [(dealsArray & Hd & Hq & ->)
       |(err & [Hd|(dealsArray & Hd & Hq & _)] & ->)];
    rewrite Hread in Hd; cbn.
  - destruct (dealsArray_of_json v) as [l|] eqn:El; [|discriminate].
    injection Hd as <-. split.
    + split; [|reflexivity]. intros _. exists l.
      split; [now apply Hshape | exact Hq].
    + intros l' Hl' _. apply Hshape in Hl'. congruence.
  - split; [|discriminate]. split; [discriminate|].
    intros (l & Hl%Hshape & _). rewrite Hl in Hd. discriminate.
  - split; [|discriminate]. split; [discriminate|].
    intros (l & Hl%Hshape & Hq'). rewrite Hl in Hd. cbn in Hd.
    injection Hd as <-. congruence.
Qed.

(** X27: after the upload of a sheet, every deal of the page is an
    imported row in normal form: its id, name, broker and status are
    strings, its name is not blank, its amount is a number and none of
    its properties is a Date; and the page has at most one deal for each
    row after the header row. *)
Theorem sheet_deals_are_normalised file st jsonData :
  fileExtension file = "xlsx" \/ fileExtension file = "xls" ->
  read_sheet file = Done jsonData ->
  Forall (fun deal => exists o, deal = Imported o /\ normalised o)
         (deals (upload (Some file) st))
  /\ (length (deals (upload (Some file) st)) <= length jsonData - 1)%nat.
Proof.
  intros Hext Hrows.
  assert (Hread : read_deals file
                  = dealsArray ← dealsArray_of_sheet jsonData;
                    Done (map Imported dealsArray)).
  { unfold DealsUpload.read_deals.
    destruct Hext as [-> | ->]; cbn [String.eqb Ascii.eqb Bool.eqb orb];
      now rewrite Hrows. }
  destruct (upload_cases file st)
    as [(dealsArray & Hd & _ & ->)|(err & _ & ->)]; cbn;
    [|split; [constructor | lia]].
  rewrite Hread in Hd.
  destruct (dealsArray_of_sheet jsonData) as [ds|] eqn:Eds; [|discriminate].
  injection Hd as <-. rewrite length_map.
  destruct jsonData as [|first rows]; [discriminate|].
  cbn [DealsUpload.dealsArray_of_sheet] in Eds.
  destruct (mapM trim_header first) as [headers|]; cbn in Eds;
    [|discriminate].
  destruct (DealsUpload.import_rows Number_toString Date_toString
              headers 0 rows) as [all|] eqn:Eall; cbn in Eds; [|discriminate].
  injection Eds as <-.
  pose proof (import_rows_each _ _ _ _ _ _ Eall) as Heach.
  split.
  - apply List.Forall_forall. intros deal (o & <- & Ho)%in_map_iff.
    exists o. split; [reflexivity|].
    apply filter_In in Ho as [Ho Hnamed].
    assert (Hrow : exists j r,
               DealsUpload.import_row Number_toString Date_toString
                 headers j r = Done o).
    { clear -Heach Ho. induction Heach as [|j d js ds (r & _ & Hd) _ IH].
      - destruct Ho.
      - destruct Ho as [<-|Ho]; [now exists j, r | auto]. }
    destruct Hrow as (j & r & Hrow).
    destruct (import_row_fields _ _ _ _ _ _ Hrow)
      as (Hid & _ & Hbroker & Hstatus & Hvalue & Hdates).
    unfold normalised. split; [eauto|]. split; [|auto].
    unfold named in Hnamed.
    destruct (JsObject.own o "deal_name") as [[name| | | | |]|];
      try discriminate.
    now exists name.
  - apply Forall2_length in Heach. rewrite length_seq in Heach.
    pose proof (List.filter_length_le named all). cbn [length]. lia.
Qed.

(** X28: when no header of the sheet is deal_id, the deal made of the
    row at position j of the rows after the header row (counted from 0,
    before the rows without a name are dropped) gets the id excel_(j+1),
    so no two imported deals share an id. *)
Theorem generated_ids_are_distinct first rows deals :
  dealsArray_of_sheet (first :: rows) = Done deals ->
  (forall s, In (Some (Text s)) first -> trim s <> "deal_id") ->
  exists headers all,
    mapM trim_header first = Done headers
    /\ DealsUpload.import_rows Number_toString Date_toString headers 0 rows
       = Done all
    /\ length all = length rows
    /\ deals = List.filter named all
    /\ (forall j deal,
          all !! j = Some deal ->
          JsObject.own deal "deal_id"
          = Some (Text ("excel_" +:+ of_Z (Z.of_nat j + 1)))
          /\ exists r,
               rows !! j = Some r
               /\ DealsUpload.import_row Number_toString Date_toString
                    headers j r = Done deal)
    /\ NoDup (map (fun deal => JsObject.own deal "deal_id") deals).
Proof.
  cbn [DealsUpload.dealsArray_of_sheet]. intros Hdeals Hfirst.
  destruct (mapM trim_header first) as [headers|] eqn:Eh; cbn in Hdeals;
    [|discriminate].
  destruct (DealsUpload.import_rows Number_toString Date_toString
              headers 0 rows) as [all|] eqn:Eall; cbn in Hdeals;
    [|discriminate].
  injection Hdeals as <-.
  assert (Habsent : ~ In (Some "deal_id") headers).
  { intros (s & Hs & E)%(trim_headers_each _ _ Eh).
    exact (Hfirst s Hs (eq_sym E)). }
  destruct (import_rows_lookup _ _ _ _ _ _ Eall) as [Hlen Hrows].
  assert (Hid : forall j r deal,
             DealsUpload.import_row Number_toString Date_toString
               headers j r = Done deal ->
             JsObject.own deal "deal_id"
             = Some (Text ("excel_" +:+ of_Z (Z.of_nat j + 1)))).
  { intros j r deal Hd.
    destruct (import_row_fields _ _ _ _ _ _ Hd) as [-> _].
    unfold DealsUpload.text_or.
    now rewrite assign_columns_other by exact Habsent. }
  exists headers, all.
  split; [reflexivity|]. split; [exact Eall|]. split; [exact Hlen|].
  split; [reflexivity|]. split.
  - intros j deal Hj. destruct (Hrows j deal Hj) as (r & Hr & Hd).
    cbn [Nat.add] in Hd. split; [exact (Hid _ _ _ Hd) | eauto].
  - pose proof (import_rows_each _ _ _ _ _ _ Eall) as Heach.
    assert (Hids : map (fun deal => JsObject.own deal "deal_id") all
                   = map (fun j => Some (Text ("excel_"
                                               +:+ of_Z (Z.of_nat j + 1))))
                         (seq 0 (length rows))).
    { clear -Heach Hid.
      induction Heach as [|j d js ds (r & _ & Hd) _ IH]; [reflexivity|].
      cbn [map]. rewrite IH. f_equal. exact (Hid _ _ _ Hd). }
    apply NoDup_map_filter. rewrite Hids. apply NoDup_ListNoDup.
    apply NoDup_map_injective; [|apply List.seq_NoDup].
    intros a b [= E%append_inj%of_Z_inj]. lia.
Qed.

(** X29: an amount written as text is read by its digits, dots and minus
    signs: when these spell the numeral of an integer of magnitude at most
    2^53, as in $1,250, the deal gets that integer as its amount (larger
    integers are rounded to the nearest binary floating point number by
    the code, and are left out here), and text without a digit gives the
    amount 0. *)
Theorem amount_text_is_read deal s :
  JsObject.own deal "deal_value" = Some (Text s) ->
  (forall z, Z.abs z <= 2 ^ 53 ->
             keep_amount s = of_Z z ->
             JsObject.own (amount deal) "deal_value"
             = Some (Num (Some (inject_Z z))))
  /\ (Forall (fun c => is_digit c = false) (list_ascii_of_string s) ->
      JsObject.own (amount deal) "deal_value" = Some (Num (Some 0%Q))).
Proof.
  intros Hs. unfold amount. rewrite Hs.
  rewrite own_set_field by discriminate. split.
  - intros z _ ->. now rewrite Number_of_amount_of_Z.
  - intros Hno. now rewrite Number_of_amount_no_digit
      by now apply keep_amount_no_digit.
Qed.

(** X30: a sheet whose header row holds only text and empty cells, none
    of them the text __proto__, and whose rows hold no invalid Date is
    always imported; the upload can then fail only for want of room in
    the storage. (Under a header __proto__ a Date cell would become the
    prototype of the deal, which is left out here.) *)
Theorem sheet_with_valid_dates_is_imported file st first rows :
  fileExtension file = "xlsx" \/ fileExtension file = "xls" ->
  read_sheet file = Done (first :: rows) ->
  Forall header_cell first ->
  (forall s, In (Some (Text s)) first -> trim s <> "__proto__") ->
  Forall valid_dates rows ->
  exists dealsArray,
    dealsArray_of_sheet (first :: rows) = Done dealsArray
    /\ ((error (upload (Some file) st) = None
         /\ deals (upload (Some file) st) = map Imported dealsArray)
        \/ (quota_exceeded (storage st) storage_key
                           (JSON_stringify (map Imported dealsArray)) = true
            /\ error (upload (Some file) st)
               = Some (host_message QuotaExceeded)
            /\ deals (upload (Some file) st) = [])).
Proof.
  intros Hext Hrows Hfirst _ Hvalid.
  destruct (trim_headers_done _ Hfirst) as [headers Eh].
  destruct (import_rows_done Number_toString Date_toString headers 0 rows
              Hvalid) as [all Eall].
  assert (Hsheet : dealsArray_of_sheet (first :: rows)
                   = Done (List.filter named all)).
  { cbn [DealsUpload.dealsArray_of_sheet]. rewrite Eh. cbn.
    now rewrite Eall. }
  exists (List.filter named all). split; [exact Hsheet|].
  assert (Hread : read_deals file
                  = Done (map Imported (List.filter named all))).
  { unfold DealsUpload.read_deals.
    destruct Hext as [-> | ->]; cbn [String.eqb Ascii.eqb Bool.eqb orb];
      rewrite Hrows; cbn -[DealsUpload.dealsArray_of_sheet];
      now rewrite Hsheet. }
  destruct (upload_cases file st)
    as [(dealsArray & Hd & _ & ->)
       |(err & [Hd|(dealsArray & Hd & Hq & ->)] & ->)];
    rewrite Hread in Hd; try discriminate; injection Hd as <-; cbn.
  - left. split; reflexivity.
  - right. split; [exact Hq|]. split; reflexivity.
Qed.
End UploadTheorems.

Section UploadWitnesses.
Import JsString JsText DealsUpload UploadExample.

Lemma other_extensions_are_refused_witness :
  error (upload (Some table) page) = Some unsupported
  /\ deals (upload (Some table) page) = []
  /\ storage (upload (Some table) page) !! "dashboard-deals-data" = None.
Proof.
  unfold upload.
  apply (other_extensions_are_refused _ _ _ _ _ _ _ _ table "deals.json" "csv");
    [reflexivity | reflexivity |].
  vm_compute. intros [H|[H|[H|[]]]]; discriminate H.
Defined.

Lemma json_file_is_accepted_iff_witness :
  error (upload (Some parsed) page) = None.
Proof.
  unfold upload.
  apply (proj1 (json_file_is_accepted_iff _ _ _ _ _ _ _ _ parsed page _
                  eq_refl eq_refl)).
  exists [JNumber 1; JNull]. split; [|reflexivity].
  right. eexists. split; reflexivity.
Defined.

Lemma sheet_deals_are_normalised_witness :
  Forall (fun deal => exists o, deal = Imported o /\ normalised o)
         (deals (upload (Some sheet) page))
  /\ (length (deals (upload (Some sheet) page)) <= length rows - 1)%nat.
Proof.
  unfold upload.
  apply sheet_deals_are_normalised; [left|]; reflexivity.
Defined.

Lemma generated_ids_are_distinct_witness :
  exists deals,
    dealsArray_of_sheet text_of_number text_of_date rows = Done deals
    /\ NoDup (map (fun deal => JsObject.own deal "deal_id") deals).
Proof.
  eexists. split; [vm_compute; reflexivity|].
  destruct (generated_ids_are_distinct text_of_number text_of_date
              header_row data_rows _ eq_refl)
    as (headers & all & _ & _ & _ & _ & _ & Hids); [|exact Hids].
  intros s [[= <-]|[[= <-]|[[= <-]|[]]]]; vm_compute; discriminate.
Defined.

Lemma amount_text_is_read_witness :
  JsObject.own (amount [("deal_value", Text "$1,250")]) "deal_value"
  = Some (Num (Some (inject_Z 1250))).
Proof.
  apply (proj1 (amount_text_is_read [("deal_value", Text "$1,250")]
                                    "$1,250" eq_refl) 1250).
  - vm_compute. discriminate.
  - reflexivity.
Defined.

Lemma sheet_with_valid_dates_is_imported_witness :
  exists dealsArray,
    dealsArray_of_sheet text_of_number text_of_date rows = Done dealsArray
    /\ error (upload (Some sheet) page) = None
    /\ deals (upload (Some sheet) page) = map Imported dealsArray.
Proof.
  unfold upload.
  destruct (sheet_with_valid_dates_is_imported
              text_of_number text_of_date "dashboard-deals-data"
              (fun _ => Done (JObject [("deals", JArray [JNumber 1; JNull])]))
              (fun _ => Done rows) (fun _ => "[]") (fun _ _ _ => false)
              (fun _ => "host") sheet page header_row data_rows)
    as (dealsArray & Hsheet & [Hkept|[Hfull _]]).
  - left. reflexivity.
  - reflexivity.
  - repeat constructor.
  - intros s [[= <-]|[[= <-]|[[= <-]|[]]]]; vm_compute; discriminate.
  - repeat constructor; vm_compute; intuition discriminate.
  - exists dealsArray. split; [exact Hsheet | exact Hkept].
  - discriminate Hfull.
Defined.
End UploadWitnesses.

(** ** Worked examples *)

Section Examples.
Import BrokerPerformanceAnalysis.

(** A settled deal of 100 and an application of broker A. *)
Example two_deals_of_A :
  match brokerPerformance
          [ Samples.deal "1" "A" 100 None (Some "2024-01-01") None;
            Samples.deal "2" "A" 0 (Some "x") None None ] settled with
  | Returns [p] =>
      brokerName p = "A" /\ totalDeals p = 2 /\ settledDeals p = 1
      /\ (settledRate p == 50)%Q /\ convertedDeals p = 2
      /\ (conversionRate p == 100)%Q /\ (settledValue p == 100)%Q
      /\ (avgDealValue p == 100)%Q
  | _ => False
  end.
Proof. vm_compute. repeat split; reflexivity. Qed.

Example no_deals mode : brokerPerformance [] mode = Returns [].
Proof. reflexivity. Qed.

(** A broker named like a property of [Object.prototype] makes the reducer
    throw. *)
Example broker_named_constructor :
  brokerPerformance [Samples.deal "1" "constructor" 1 None None None] settled
  = Throws TypeError.
Proof. reflexivity. Qed.

(** [Object.entries] lists a broker named by an array index first; the
    stable sort keeps that order among equal settled values. *)
Example broker_named_by_index :
  match brokerPerformance
          [ Samples.deal "1" "A" 1 None None None;
            Samples.deal "2" "7" 1 None None None ] settled with
  | Returns perf => map brokerName perf = ["7"; "A"]
  | _ => False
  end.
Proof. vm_compute. reflexivity. Qed.

(** East of Greenwich the key of the week of Sunday 2024-01-07 is the UTC
    date of the local midnight of Monday 2024-01-01. *)
Example week_key_east_of_greenwich :
  let host := JsDate.iso_host 39600000 in
  week_key (week_start (H := host) (JsDate.of_string (H := host) "2024-01-07"))
  = Returns "2023-12-31".
Proof. vm_compute. reflexivity. Qed.
End Examples.
